(** * PillSyncOS alarm drivers: piezo buzzer and NeoPixel strip

    Shallow embedding of [functions/piezo_alarm.py] and
    [functions/neopixel_alarm.py].  Both modules are blocking timing loops
    over a hardware library.  The embedding threads an explicit world
    through every call: the chronological trace of effects (hardware calls,
    sleeps, printed lines), a clock that advances by the sleeps executed,
    a schedule saying which of the coming hardware calls raise, and the
    module's globals together with the state of the attached device.

    Times (Python floats in the source) are rationals, and [time.time()]
    reads a clock that only [time.sleep] moves.  A [while] loop takes a
    budget of passes; a run that uses the budget up is cut inside the loop
    and reported as [OutOfFuel], without running any [finally] block. *)

From Stdlib Require Import ZArith QArith Qround String List Bool Lia Lqa.
Import ListNotations.

Set Implicit Arguments.

(** ** Python runtime: results, effects, control flow *)

(** Exceptions that can travel through the drivers: a hardware library call
    that raises, [time.sleep] refusing a negative length, and an attribute
    looked up on [None]. *)
Inductive exn : Type :=
| HardwareError
| ValueError
| AttributeError.

(** Outcome of running a piece of code: it returns, it raises, or the
    iteration budget given to a [while] loop ran out before the loop
    finished (the run is cut inside the loop). *)
Inductive result (A : Type) : Type :=
| Ok (a : A)
| Raise (e : exn)
| OutOfFuel.

Arguments Raise {A} e.
Arguments OutOfFuel {A}.

(** One entry of the trace.  [Call op] is a hardware call that went through,
    [Failed op] one that raised. *)
Inductive event (Op : Type) : Type :=
| Call (op : Op)
| Failed (op : Op)
| Sleep (t : Q)
| Print (line : string).

Arguments Sleep {Op} t.
Arguments Print {Op} line.

Record world (Op D : Type) : Type := mkWorld {
  trace : list (event Op);
  clock : Q;
  faults : list bool;
  mem : D
}.

Section Runtime.

Variables Op D : Type.

#[local] Abbreviation W := (world Op D).

Definition M (A : Type) : Type := W -> result A * W.

Definition ret {A} (a : A) : M A := fun w => (Ok a, w).

Definition bind {A B} (m : M A) (k : A -> M B) : M B := fun w =>
  match m w with
  | (Ok a, w1) => k a w1
  | (Raise e, w1) => (Raise e, w1)
  | (OutOfFuel, w1) => (OutOfFuel, w1)
  end.

Definition raise {A} (e : exn) : M A := fun w => (Raise e, w).

Definition read {A} (f : D -> A) : M A := fun w => (Ok (f (mem w)), w).

Definition modify (f : D -> D) : M unit := fun w =>
  (Ok tt, mkWorld (trace w) (clock w) (faults w) (f (mem w))).

Definition log (e : event Op) (w : W) : W :=
  mkWorld (trace w ++ [e]) (clock w) (faults w) (mem w).

(** [print(line)] *)
Definition print (line : string) : M unit := fun w => (Ok tt, log (Print line) w).

(** [time.time()] *)
Definition time_time : M Q := fun w => (Ok (clock w), w).

Definition Qltb (x y : Q) : bool :=
  match x ?= y with Lt => true | _ => false end.

(** [time.sleep(t)]: raises [ValueError] on a negative length, otherwise
    blocks for [t]. *)
Definition sleep (t : Q) : M unit := fun w =>
  if Qltb t 0 then (Raise ValueError, w)
  else (Ok tt, mkWorld (trace w ++ [Sleep t]) (clock w + t) (faults w) (mem w)).

(** A call into the hardware library.  The head of the fault schedule says
    whether this call raises; an exhausted schedule means the hardware
    behaves from then on.  A call that raises leaves the device as it was. *)
Definition hw_call (op : Op) (effect : D -> D) : M unit := fun w =>
  match faults w with
  | true :: fs => (Raise HardwareError, mkWorld (trace w ++ [Failed op]) (clock w) fs (mem w))
  | false :: fs => (Ok tt, mkWorld (trace w ++ [Call op]) (clock w) fs (effect (mem w)))
  | [] => (Ok tt, mkWorld (trace w ++ [Call op]) (clock w) [] (effect (mem w)))
  end.

(** [try: body finally: final] *)
Definition try_finally {A} (body : M A) (final : M unit) : M A := fun w =>
  match body w with
  | (OutOfFuel, w1) => (OutOfFuel, w1)
  | (Ok a, w1) =>
      match final w1 with
      | (Ok _, w2) => (Ok a, w2)
      | (Raise e, w2) => (Raise e, w2)
      | (OutOfFuel, w2) => (OutOfFuel, w2)
      end
  | (Raise e, w1) =>
      match final w1 with
      | (Ok _, w2) => (Raise e, w2)
      | (Raise e', w2) => (Raise e', w2)
      | (OutOfFuel, w2) => (OutOfFuel, w2)
      end
  end.

(** [for _ in range(n): body], with [n] a Python int: no iteration when
    [n <= 0]. *)
Fixpoint repeatM (n : nat) (body : M unit) : M unit :=
  match n with
  | O => ret tt
  | S k => bind body (fun _ => repeatM k body)
  end.

Definition for_range (n : Z) (body : M unit) : M unit := repeatM (Z.to_nat n) body.

(** [while cond: body].  [fuel] is the number of iterations of the body the
    run is allowed; the test itself costs nothing, so a loop whose test is
    false on entry finishes with any budget. *)
Fixpoint while (fuel : nat) (cond : M bool) (body : M unit) : M unit :=
  bind cond (fun c =>
    if c then
      match fuel with
      | O => fun w => (OutOfFuel, w)
      | S f => bind body (fun _ => while f cond body)
      end
    else ret tt).

(** [(time.time() - start) < duration], the test of both pattern loops. *)
Definition running (start duration : Q) : M bool :=
  bind time_time (fun now => ret (Qltb (now - start) duration)).

(** *** Properties of a piece of code, used to state the loop facts *)

(** [m] leaves true whatever [P] says of the globals and the device. *)
Definition keeps {A} (P : D -> Prop) (m : M A) : Prop :=
  forall w r w', P (mem w) -> m w = (r, w') -> P (mem w').

(** [m] never runs out of budget, and whenever it returns it has blocked
    for exactly [d]. *)
Definition advances {A} (m : M A) (d : Q) : Prop :=
  forall w r w', m w = (r, w') ->
    r <> OutOfFuel /\ (forall a, r = Ok a -> clock w' == clock w + d).

(** However [m] ends, it has blocked for at most [d]. *)
Definition within {A} (m : M A) (d : Q) : Prop :=
  forall w r w', m w = (r, w') -> clock w <= clock w' /\ clock w' <= clock w + d.

End Runtime.

Arguments ret {Op D A} a.
Arguments read {Op D A} f.
Arguments raise {Op D A} e.
Arguments print {Op D} line.
Arguments time_time {Op D}.
Arguments sleep {Op D} t.
Arguments modify {Op D} f.
Arguments hw_call {Op D} op effect.
Arguments bind {Op D A B} m k.
Arguments try_finally {Op D A} body final.
Arguments repeatM {Op D} n body.
Arguments for_range {Op D} n body.
Arguments while {Op D} fuel cond body.
Arguments log {Op D} e w.
Arguments running {Op D} start duration.
Arguments keeps {Op D A} P m.
Arguments advances {Op D A} m d.
Arguments within {Op D A} m d.

Declare Scope py_scope.
Delimit Scope py_scope with py.
Notation "x <- m ;; k" := (bind m (fun x => k))
  (at level 61, m at next level, right associativity) : py_scope.
Notation "m ;; k" := (bind m (fun _ => k))
  (at level 61, right associativity) : py_scope.

Open Scope py_scope.

(** Time one pass of a pattern loop takes when nothing raises: the beeps of
    the group ([range] runs no iteration for a count below one) and the
    pause. *)
Definition cycle_time (n : Z) (on_time off_time pause : Q) : Q :=
  inject_Z (Z.max 0 n) * (on_time + off_time) + pause.

(** ** functions/piezo_alarm.py *)

Module piezo_alarm.

(** Constants of [RPi.GPIO] the driver uses. *)
Inductive numbering : Type := BCM | BOARD.
Inductive direction : Type := OUT.
Inductive level : Type := LOW | HIGH.

(** The library operations the driver calls. *)
Inductive gpio_op : Type :=
| GPIO_setmode (mode : numbering)
| GPIO_setup (pin : Z) (dir : direction)
| GPIO_output (pin : Z) (lvl : level)
| GPIO_cleanup (pin : Z).

(** What the name [GPIO] is bound to after the module-level [try]/[except]:
    the imported [RPi.GPIO], or an instance of the local class [MockGPIO]
    whose five methods are all [pass]. *)
Inductive gpio_binding : Type := RealGPIO | MockGPIO.

Definition PIEZO_PIN : Z := 4.

(** Module globals, and the board as far as the driver touches it: the
    numbering mode, and direction and level of the piezo line. *)
Record state : Type := mkState {
  RPI_AVAILABLE : bool;
  GPIO : gpio_binding;
  _initialized : bool;
  pin_numbering : option numbering;
  pin_direction : option direction;
  pin_level : level
}.

Definition set_initialized (b : bool) (s : state) : state :=
  mkState (RPI_AVAILABLE s) (GPIO s) b (pin_numbering s) (pin_direction s) (pin_level s).

Definition on_piezo_line (pin : Z) (f : state -> state) (s : state) : state :=
  if (pin =? PIEZO_PIN)%Z then f s else s.

(** Effect of each library operation on the board. *)
Definition gpio_effect (op : gpio_op) (s : state) : state :=
  match op with
  | GPIO_setmode m =>
      mkState (RPI_AVAILABLE s) (GPIO s) (_initialized s) (Some m) (pin_direction s) (pin_level s)
  | GPIO_setup pin d =>
      on_piezo_line pin (fun s =>
        mkState (RPI_AVAILABLE s) (GPIO s) (_initialized s) (pin_numbering s) (Some d) (pin_level s)) s
  | GPIO_output pin l =>
      on_piezo_line pin (fun s =>
        mkState (RPI_AVAILABLE s) (GPIO s) (_initialized s) (pin_numbering s) (pin_direction s) l) s
  | GPIO_cleanup pin =>
      on_piezo_line pin (fun s =>
        mkState (RPI_AVAILABLE s) (GPIO s) (_initialized s) (pin_numbering s) None LOW) s
  end.

Definition W : Type := world gpio_op state.

(** A method call on whatever [GPIO] is bound to: the hardware library, or
    the mock, whose methods do nothing. *)
Definition gpio (op : gpio_op) : M gpio_op state unit := fun w =>
  match GPIO (mem w) with
  | RealGPIO => hw_call op (gpio_effect op) w
  | MockGPIO => (Ok tt, w)
  end.

(** Module load.  [import_ok] says whether [import RPi.GPIO as GPIO]
    succeeded; when it raises, the [except Exception] branch clears the flag
    and binds [GPIO] to a [MockGPIO] instance.  The piezo line is idle. *)
Definition load_state (import_ok : bool) : state :=
  mkState import_ok (if import_ok then RealGPIO else MockGPIO) false None None LOW.

Definition load (import_ok : bool) (fs : list bool) : W :=
  mkWorld [] 0 fs (load_state import_ok).

Definition _init_gpio : M gpio_op state unit :=
  initialized <- read _initialized ;;
  if initialized then ret tt else
  avail <- read RPI_AVAILABLE ;;
  if negb avail then ret tt else
  gpio (GPIO_setmode BCM) ;;
  gpio (GPIO_setup PIEZO_PIN OUT) ;;
  gpio (GPIO_output PIEZO_PIN LOW) ;;
  modify (set_initialized true).

Definition _beep (on_time off_time : Q) : M gpio_op state unit :=
  _init_gpio ;;
  avail <- read RPI_AVAILABLE ;;
  if negb avail then ret tt else
  gpio (GPIO_output PIEZO_PIN HIGH) ;;
  sleep on_time ;;
  gpio (GPIO_output PIEZO_PIN LOW) ;;
  sleep off_time.

Definition mock_notice : string :=
  "[piezo_alarm MOCK] alarm() called – GPIO not available on this platform, doing nothing.".

(** One beep of the group inside [alarm]. *)
Definition beep (beep_on_time beep_off_time : Q) : M gpio_op state unit :=
  gpio (GPIO_output PIEZO_PIN HIGH) ;;
  sleep beep_on_time ;;
  gpio (GPIO_output PIEZO_PIN LOW) ;;
  sleep beep_off_time.

(** Body of the [while]: one group of beeps, then the pause. *)
Definition group (beeps_per_group : Z) (beep_on_time beep_off_time group_pause : Q)
  : M gpio_op state unit :=
  for_range beeps_per_group (beep beep_on_time beep_off_time) ;;
  sleep group_pause.

Definition pattern (fuel : nat) (start duration : Q) (beeps_per_group : Z)
  (beep_on_time beep_off_time group_pause : Q) : M gpio_op state unit :=
  while fuel (running start duration)
    (group beeps_per_group beep_on_time beep_off_time group_pause).

Definition force_off : M gpio_op state unit := gpio (GPIO_output PIEZO_PIN LOW).

Definition alarm (fuel : nat) (duration : Q) (beeps_per_group : Z)
  (beep_on_time beep_off_time group_pause : Q) : M gpio_op state unit :=
  avail <- read RPI_AVAILABLE ;;
  if negb avail then
    print mock_notice
  else
    _init_gpio ;;
    start <- time_time ;;
    try_finally
      (pattern fuel start duration beeps_per_group beep_on_time beep_off_time group_pause)
      force_off.

Definition cleanup : M gpio_op state unit :=
  avail <- read RPI_AVAILABLE ;;
  if negb avail then ret tt else
  initialized <- read _initialized ;;
  if initialized then
    gpio (GPIO_output PIEZO_PIN LOW) ;;
    gpio (GPIO_cleanup PIEZO_PIN) ;;
    modify (set_initialized false)
  else ret tt.

(** *** Vocabulary of the statements about this driver *)

(** The import succeeded: the flag is set and [GPIO] is the library. *)
Definition hardware_present (w : W) : Prop :=
  RPI_AVAILABLE (mem w) = true /\ GPIO (mem w) = RealGPIO.

(** What [_init_gpio] sends to the board, by the value of [_initialized]. *)
Definition init_events (initialized : bool) : list (event gpio_op) :=
  if initialized then []
  else [Call (GPIO_setmode BCM); Call (GPIO_setup PIEZO_PIN OUT);
        Call (GPIO_output PIEZO_PIN LOW)].

Definition beep_events (on_time off_time : Q) : list (event gpio_op) :=
  [Call (GPIO_output PIEZO_PIN HIGH); Sleep on_time;
   Call (GPIO_output PIEZO_PIN LOW); Sleep off_time].

Definition cycle_events (n : Z) (on_time off_time pause : Q) : list (event gpio_op) :=
  concat (repeat (beep_events on_time off_time) (Z.to_nat n)) ++ [Sleep pause].

Definition is_write (e : event gpio_op) : bool :=
  match e with
  | Call (GPIO_output _ _) => true
  | _ => false
  end.

(** Number of level writes that reached the pin. *)
Definition writes (tr : list (event gpio_op)) : nat := length (filter is_write tr).

(** [n] calls of [_init_gpio] in a row. *)
Definition init_calls (n : nat) : M gpio_op state unit := repeatM n _init_gpio.

(** [n] calls of [cleanup] in a row. *)
Definition cleanup_calls (n : nat) : M gpio_op state unit := repeatM n cleanup.

(** The [__main__] block: [alarm(duration=10.0)] with the default pattern
    (3 beeps of 0.15 s on, 0.1 s off, pause 0.5 s), then [cleanup()]. *)
Definition main (fuel : nat) : M gpio_op state unit :=
  print "Starting piezo alarm test for 10 seconds..." ;;
  alarm fuel 10 3 (15 # 100) (1 # 10) (1 # 2) ;;
  print "Done." ;;
  cleanup.

End piezo_alarm.

(** ** functions/neopixel_alarm.py *)

Module neopixel_alarm.

Definition color : Type := (Z * Z * Z)%type.

Definition black : color := (0, 0, 0)%Z.

(** The [board] module, as far as the driver looks into it: the attribute
    [D18], which [getattr(board, "D18", None)] reads. *)
Record board_module : Type := mkBoard { D18 : option Z }.

Inductive neopixel_module : Type := NeoPixelLib.

(** A [neopixel.NeoPixel] object: its construction arguments.  The pixel
    buffer it owns is kept in the state below. *)
Record strip : Type := mkStrip {
  strip_pin : option Z;
  strip_n : Z;
  strip_brightness : Q;
  strip_auto_write : bool
}.

Inductive pixel_op : Type :=
| NeoPixel_new (pin : option Z) (n : Z) (brightness : Q) (auto_write : bool)
| Pixels_fill (c : color)
| Pixels_show.

(** Module globals, the buffer of the strip object and what the LEDs
    display. *)
Record state : Type := mkState {
  NEOPIXEL_AVAILABLE : bool;
  board : option board_module;
  neopixel : option neopixel_module;
  PIXEL_PIN : option Z;
  _pixels : option strip;
  buffer : list color;
  shown : list color
}.

Definition NUM_PIXELS : Z := 8.
Definition BRIGHTNESS : Q := 4 # 10.

Definition set_pixels (p : option strip) (s : state) : state :=
  mkState (NEOPIXEL_AVAILABLE s) (board s) (neopixel s) (PIXEL_PIN s) p (buffer s) (shown s).

Definition set_buffer (b : list color) (s : state) : state :=
  mkState (NEOPIXEL_AVAILABLE s) (board s) (neopixel s) (PIXEL_PIN s) (_pixels s) b (shown s).

(** Push the buffer to the LEDs. *)
Definition push (s : state) : state :=
  mkState (NEOPIXEL_AVAILABLE s) (board s) (neopixel s) (PIXEL_PIN s) (_pixels s)
    (buffer s) (buffer s).

Definition W : Type := world pixel_op state.

(** [neopixel.NeoPixel(pin, n, brightness=..., auto_write=...)]: a fresh
    object with an all-black buffer.  When [neopixel] is [None] the
    attribute lookup raises. *)
Definition NeoPixel (pin : option Z) (n : Z) (brightness : Q) (auto_write : bool)
  : M pixel_op state strip :=
  lib <- read neopixel ;;
  match lib with
  | None => raise AttributeError
  | Some NeoPixelLib =>
      hw_call (NeoPixel_new pin n brightness auto_write)
        (set_buffer (repeat black (Z.to_nat n))) ;;
      ret (mkStrip pin n brightness auto_write)
  end.

(** [pixels.fill(color)]: stage the colour on every pixel; pushed at once
    only when the strip was built with [auto_write]. *)
Definition fill (pixels : strip) (c : color) : M pixel_op state unit :=
  hw_call (Pixels_fill c) (fun s =>
    let s1 := set_buffer (map (fun _ => c) (buffer s)) s in
    if strip_auto_write pixels then push s1 else s1).

(** [pixels.show()] *)
Definition show (pixels : strip) : M pixel_op state unit :=
  hw_call Pixels_show push.

(** Module load.  [imported] is the [board] module when both imports
    succeeded; when one raises, the [except Exception] branch clears the
    flag, defines the class [MockPixels] (never instantiated anywhere in the
    module) and binds [board] and [neopixel] to [None].  The LEDs are dark. *)
Definition load_state (imported : option board_module) : state :=
  match imported with
  | Some b =>
      mkState true (Some b) (Some NeoPixelLib) (D18 b) None [] (repeat black (Z.to_nat NUM_PIXELS))
  | None =>
      mkState false None None None None [] (repeat black (Z.to_nat NUM_PIXELS))
  end.

Definition load (imported : option board_module) (fs : list bool) : W :=
  mkWorld [] 0 fs (load_state imported).

Definition init_notice : string :=
  "[neopixel_alarm MOCK] neopixel not available on this platform.".

Definition mock_notice : string :=
  "[neopixel_alarm MOCK] alarm_flash() called – no neopixel hardware on this platform, doing nothing.".

Definition _init_pixels : M pixel_op state (option strip) :=
  cached <- read _pixels ;;
  match cached with
  | Some p => ret (Some p)
  | None =>
      avail <- read NEOPIXEL_AVAILABLE ;;
      if negb avail then
        print init_notice ;;
        ret None
      else
        pin <- read PIXEL_PIN ;;
        p <- NeoPixel pin NUM_PIXELS BRIGHTNESS false ;;
        modify (set_pixels (Some p)) ;;
        fill p black ;;
        show p ;;
        read _pixels
  end.

Definition _set_all (c : color) : M pixel_op state unit :=
  pixels <- _init_pixels ;;
  match pixels with
  | None => ret tt
  | Some p =>
      fill p c ;;
      show p
  end.

(** One flash of the group inside [alarm_flash]. *)
Definition flash (c : color) (flash_on_time flash_off_time : Q) : M pixel_op state unit :=
  _set_all c ;;
  sleep flash_on_time ;;
  _set_all black ;;
  sleep flash_off_time.

(** Body of the [while]: one group of flashes, then the pause. *)
Definition group (flash_on_time flash_off_time : Q) (group_flashes : Z) (group_pause : Q)
  (c : color) : M pixel_op state unit :=
  for_range group_flashes (flash c flash_on_time flash_off_time) ;;
  sleep group_pause.

Definition pattern (fuel : nat) (start duration flash_on_time flash_off_time : Q)
  (group_flashes : Z) (group_pause : Q) (c : color) : M pixel_op state unit :=
  while fuel (running start duration)
    (group flash_on_time flash_off_time group_flashes group_pause c).

Definition force_off : M pixel_op state unit := _set_all black.

Definition alarm_flash (fuel : nat) (duration flash_on_time flash_off_time : Q)
  (group_flashes : Z) (group_pause : Q) (c : color) : M pixel_op state unit :=
  avail <- read NEOPIXEL_AVAILABLE ;;
  if negb avail then
    print mock_notice
  else
    start <- time_time ;;
    _init_pixels ;;
    try_finally
      (pattern fuel start duration flash_on_time flash_off_time group_flashes group_pause c)
      force_off.

Definition cleanup : M pixel_op state unit :=
  pixels <- _init_pixels ;;
  match pixels with
  | None => ret tt
  | Some _ => _set_all black
  end.

(** *** Vocabulary of the statements about this driver *)

(** The imports succeeded: the flag is set and [neopixel] is the library. *)
Definition hardware_present (w : W) : Prop :=
  NEOPIXEL_AVAILABLE (mem w) = true /\ neopixel (mem w) = Some NeoPixelLib.

(** What [_init_pixels] sends to the strip, by the value of [_pixels]. *)
Definition init_events (cached : option strip) (pin : option Z) : list (event pixel_op) :=
  match cached with
  | Some _ => []
  | None => [Call (NeoPixel_new pin NUM_PIXELS BRIGHTNESS false);
             Call (Pixels_fill black); Call Pixels_show]
  end.

Definition set_all_events (c : color) : list (event pixel_op) :=
  [Call (Pixels_fill c); Call Pixels_show].

Definition flash_events (c : color) (on_time off_time : Q) : list (event pixel_op) :=
  set_all_events c ++ [Sleep on_time] ++ set_all_events black ++ [Sleep off_time].

Definition cycle_events (n : Z) (on_time off_time pause : Q) (c : color)
  : list (event pixel_op) :=
  concat (repeat (flash_events c on_time off_time) (Z.to_nat n)) ++ [Sleep pause].

Definition is_push (e : event pixel_op) : bool :=
  match e with
  | Call Pixels_show => true
  | _ => false
  end.

(** Number of updates pushed to the LEDs. *)
Definition pushes (tr : list (event pixel_op)) : nat := length (filter is_push tr).

Definition all_black (l : list color) : Prop := Forall (fun c => c = black) l.

(** [n] calls of [_init_pixels] in a row, results dropped. *)
Definition init_calls (n : nat) : M pixel_op state unit :=
  repeatM n (_init_pixels ;; ret tt).

(** [n] calls of [cleanup] in a row. *)
Definition cleanup_calls (n : nat) : M pixel_op state unit := repeatM n cleanup.

(** The handle [_init_pixels] builds: [PIXEL_PIN], 8 pixels, brightness
    0.4, manual push. *)
Definition module_strip (s : state) : strip :=
  mkStrip (PIXEL_PIN s) NUM_PIXELS BRIGHTNESS false.

(** [_pixels] is [None] or the handle the module itself builds. *)
Definition well_configured (s : state) : Prop :=
  _pixels s = None \/ _pixels s = Some (module_strip s).

(** The [__main__] block: [alarm_flash(duration=10.0)] with the default
    pattern (3 red flashes of 0.15 s on, 0.15 s off, pause 0.5 s), then
    [cleanup()]. *)
Definition main (fuel : nat) : M pixel_op state unit :=
  print "Starting Neopixel alarm flash test for 10 seconds..." ;;
  alarm_flash fuel 10 (15 # 100) (15 # 100) 3 (1 # 2) (255, 0, 0)%Z ;;
  print "Done." ;;
  cleanup.

End neopixel_alarm.

(** ** Facts about the runtime *)

Lemma Qltb_lt (x y : Q) : Qltb x y = true <-> x < y.
Proof.
  unfold Qltb. rewrite Qlt_alt.
  destruct (x ?= y); split; intro H; try reflexivity; discriminate.
Qed.

Lemma Qltb_ge (x y : Q) : Qltb x y = false <-> y <= x.
Proof.
  split; intro H.
  - apply Qnot_lt_le. intro L. apply Qltb_lt in L. congruence.
  - destruct (Qltb x y) eqn:E; [|reflexivity].
    apply Qltb_lt in E. exfalso. exact (Qle_not_lt _ _ H E).
Qed.

Lemma inject_nat_succ (n : nat) :
  inject_Z (Z.of_nat (S n)) == inject_Z (Z.of_nat n) + 1.
Proof.
  rewrite Nat2Z.inj_succ. unfold Z.succ. rewrite inject_Z_plus. reflexivity.
Qed.

Lemma inject_nat_nonneg (n : nat) : 0 <= inject_Z (Z.of_nat n).
Proof.
  change 0 with (inject_Z 0). rewrite <- Zle_Qle. lia.
Qed.

Lemma cycle_time_count (n : Z) (on_time off_time pause : Q) :
  cycle_time n on_time off_time pause
  == inject_Z (Z.of_nat (Z.to_nat n)) * (on_time + off_time) + pause.
Proof.
  unfold cycle_time.
  replace (Z.of_nat (Z.to_nat n)) with (Z.max 0 n) by lia. reflexivity.
Qed.

Lemma cycle_time_nonneg_count (n : Z) (on_time off_time pause : Q) :
  (0 <= n)%Z ->
  cycle_time n on_time off_time pause == inject_Z n * (on_time + off_time) + pause.
Proof.
  intro H. unfold cycle_time. rewrite Z.max_r by exact H. reflexivity.
Qed.

Section RuntimeFacts.

Variables Op D : Type.

#[local] Abbreviation W := (world Op D).

Lemma bind_inv {A B} (m : M Op D A) (k : A -> M Op D B) (w : W) r w' :
  bind m k w = (r, w') ->
  (exists a w1, m w = (Ok a, w1) /\ k a w1 = (r, w')) \/
  (exists e, m w = (Raise e, w') /\ r = Raise e) \/
  (m w = (OutOfFuel, w') /\ r = OutOfFuel).
Proof.
  unfold bind. destruct (m w) as [[a|e|] w1]; intro H.
  - left. eauto.
  - right. left. inversion H; subst. eauto.
  - right. right. inversion H; subst. eauto.
Qed.

Lemma bind_ok {A B} (m : M Op D A) (k : A -> M Op D B) (w w1 : W) a :
  m w = (Ok a, w1) -> bind m k w = k a w1.
Proof. intro H. unfold bind. rewrite H. reflexivity. Qed.

Lemma sleep_inv (t : Q) (w : W) r w' :
  sleep t w = (r, w') ->
  (t < 0 /\ r = Raise ValueError /\ w' = w) \/
  (0 <= t /\ r = Ok tt /\
   w' = mkWorld (trace w ++ [Sleep t]) (clock w + t) (faults w) (mem w)).
Proof.
  unfold sleep. destruct (Qltb t 0) eqn:E; intro H; inversion H; subst.
  - left. apply Qltb_lt in E. auto.
  - right. apply Qltb_ge in E. auto.
Qed.

Lemma sleep_ok (t : Q) (w : W) :
  0 <= t ->
  sleep t w = (Ok tt, mkWorld (trace w ++ [Sleep t]) (clock w + t) (faults w) (mem w)).
Proof.
  intro H. unfold sleep. apply Qltb_ge in H. rewrite H. reflexivity.
Qed.

Lemma hw_call_inv (op : Op) (f : D -> D) (w : W) r w' :
  hw_call op f w = (r, w') ->
  (r = Ok tt /\ trace w' = trace w ++ [Call op] /\ mem w' = f (mem w) /\
   clock w' = clock w /\ faults w' = tl (faults w) /\ hd false (faults w) = false) \/
  (r = Raise HardwareError /\ trace w' = trace w ++ [Failed op] /\ mem w' = mem w /\
   clock w' = clock w /\ faults w' = tl (faults w) /\ hd false (faults w) = true).
Proof.
  unfold hw_call. destruct (faults w) as [|[|] fs]; intro H; inversion H; subst; simpl;
    intuition auto.
Qed.

Lemma hw_call_ok (op : Op) (f : D -> D) (w : W) :
  faults w = [] ->
  hw_call op f w = (Ok tt, mkWorld (trace w ++ [Call op]) (clock w) [] (f (mem w))).
Proof. intro H. unfold hw_call. rewrite H. reflexivity. Qed.

Lemma running_eq (start duration : Q) (w : W) :
  running start duration w = (Ok (Qltb (clock w - start) duration), w).
Proof. reflexivity. Qed.

Lemma while_unfold fuel (cond : M Op D bool) (body : M Op D unit) :
  while fuel cond body =
  bind cond (fun c =>
    if c then
      match fuel with
      | O => fun w => (OutOfFuel, w)
      | S f => bind body (fun _ => while f cond body)
      end
    else ret tt).
Proof. destruct fuel; reflexivity. Qed.

(** A loop whose test is false on entry does nothing, whatever the budget. *)
Lemma while_stopped fuel start duration (body : M Op D unit) (w : W) :
  duration <= clock w - start ->
  while fuel (running start duration) body w = (Ok tt, w).
Proof.
  intro H. rewrite while_unfold. unfold bind. rewrite running_eq.
  apply Qltb_ge in H. rewrite H. reflexivity.
Qed.

Lemma while_running fuel start duration (body : M Op D unit) (w : W) :
  clock w - start < duration ->
  while (S fuel) (running start duration) body w
  = bind body (fun _ => while fuel (running start duration) body) w.
Proof.
  intro H. rewrite while_unfold. unfold bind at 1. rewrite running_eq.
  apply Qltb_lt in H. rewrite H. reflexivity.
Qed.

Lemma while_exhausted start duration (body : M Op D unit) (w : W) :
  clock w - start < duration ->
  while O (running start duration) body w = (OutOfFuel, w).
Proof.
  intro H. rewrite while_unfold. unfold bind. rewrite running_eq.
  apply Qltb_lt in H. rewrite H. reflexivity.
Qed.

Lemma try_finally_inv {A} (body : M Op D A) (final : M Op D unit) (w : W) r w' :
  try_finally body final w = (r, w') ->
  (body w = (OutOfFuel, w') /\ r = OutOfFuel) \/
  (exists r1 w1 r2, body w = (r1, w1) /\ r1 <> OutOfFuel /\ final w1 = (r2, w') /\
     match r2 with
     | Ok _ => r = r1
     | Raise e => r = Raise e
     | OutOfFuel => r = OutOfFuel
     end).
Proof.
  unfold try_finally. destruct (body w) as [[a|e|] w1] eqn:Eb.
  - destruct (final w1) as [[u|e2|] w2] eqn:Ef; intro H; inversion H; subst;
      right; exists (Ok a), w1; eexists; repeat split; try eassumption; try discriminate;
      reflexivity.
  - destruct (final w1) as [[u|e2|] w2] eqn:Ef; intro H; inversion H; subst;
      right; exists (Raise e), w1; eexists; repeat split; try eassumption; try discriminate;
      reflexivity.
  - intro H; inversion H; subst. left. auto.
Qed.

End RuntimeFacts.

(** *** Rules for [keeps] *)

Section KeepsRules.

Variables Op D : Type.
Variable P : D -> Prop.

Lemma keeps_ret {A} (a : A) : keeps (Op := Op) P (ret a).
Proof. intros w r w' HP H. inversion H; subst. exact HP. Qed.

Lemma keeps_raise {A} (e : exn) : keeps (Op := Op) (A := A) P (raise e).
Proof. intros w r w' HP H. inversion H; subst. exact HP. Qed.

Lemma keeps_read {A} (f : D -> A) : keeps (Op := Op) P (read f).
Proof. intros w r w' HP H. inversion H; subst. exact HP. Qed.

Lemma keeps_print (line : string) : keeps (Op := Op) P (print line).
Proof. intros w r w' HP H. inversion H; subst. exact HP. Qed.

Lemma keeps_time_time : keeps (Op := Op) P time_time.
Proof. intros w r w' HP H. inversion H; subst. exact HP. Qed.

Lemma keeps_running (start duration : Q) : keeps (Op := Op) P (running start duration).
Proof. intros w r w' HP H. inversion H; subst. exact HP. Qed.

Lemma keeps_sleep (t : Q) : keeps (Op := Op) P (sleep t).
Proof.
  intros w r w' HP H.
  apply sleep_inv in H as [(_ & _ & ->) | (_ & _ & ->)]; exact HP.
Qed.

Lemma keeps_modify (f : D -> D) :
  (forall s, P s -> P (f s)) -> keeps (Op := Op) P (modify f).
Proof. intros Hf w r w' HP H. inversion H; subst. simpl. auto. Qed.

Lemma keeps_hw_call (op : Op) (f : D -> D) :
  (forall s, P s -> P (f s)) -> keeps P (hw_call op f).
Proof.
  intros Hf w r w' HP H.
  apply hw_call_inv in H as [(_ & _ & E & _) | (_ & _ & E & _)]; rewrite E; auto.
Qed.

Lemma keeps_bind {A B} (m : M Op D A) (k : A -> M Op D B) :
  keeps P m -> (forall a, keeps P (k a)) -> keeps P (bind m k).
Proof.
  intros Hm Hk w r w' HP H.
  apply bind_inv in H as [(a & w1 & H1 & H2) | [(e & H1 & _) | (H1 & _)]].
  - eapply Hk; [|exact H2]. eapply Hm; eauto.
  - eapply Hm; eauto.
  - eapply Hm; eauto.
Qed.

Lemma keeps_repeatM (n : nat) (body : M Op D unit) :
  keeps P body -> keeps P (repeatM n body).
Proof.
  intro Hb. induction n as [|n IH]; simpl.
  - apply keeps_ret.
  - apply keeps_bind; [exact Hb | intros _; exact IH].
Qed.

Lemma keeps_for_range (n : Z) (body : M Op D unit) :
  keeps P body -> keeps P (for_range n body).
Proof. apply keeps_repeatM. Qed.

Lemma keeps_while fuel (cond : M Op D bool) (body : M Op D unit) :
  keeps P cond -> keeps P body -> keeps P (while fuel cond body).
Proof.
  intros Hc Hb. induction fuel as [|fuel IH]; rewrite while_unfold.
  - apply keeps_bind; [exact Hc|]. intros [|].
    + intros w r w' HP H. inversion H; subst. exact HP.
    + apply keeps_ret.
  - apply keeps_bind; [exact Hc|]. intros [|].
    + apply keeps_bind; [exact Hb | intros _; exact IH].
    + apply keeps_ret.
Qed.

Lemma keeps_try_finally {A} (body : M Op D A) (final : M Op D unit) :
  keeps P body -> keeps P final -> keeps P (try_finally body final).
Proof.
  intros Hb Hf w r w' HP H.
  apply try_finally_inv in H as [(H1 & _) | (r1 & w1 & r2 & H1 & _ & H2 & _)].
  - eapply Hb; eauto.
  - eapply Hf; [|exact H2]. eapply Hb; eauto.
Qed.

End KeepsRules.

(** *** Rules for [advances] and [within] *)

Section ClockRules.

Variables Op D : Type.

Lemma advances_eq {A} (m : M Op D A) (d d' : Q) :
  advances m d -> d == d' -> advances m d'.
Proof.
  intros Hm E w r w' H. destruct (Hm _ _ _ H) as [Hn Ha].
  split; [exact Hn|]. intros a Hr. specialize (Ha a Hr). lra.
Qed.

Lemma within_le {A} (m : M Op D A) (d d' : Q) :
  within m d -> d <= d' -> within m d'.
Proof.
  intros Hm E w r w' H. destruct (Hm _ _ _ H) as [H1 H2]. split; lra.
Qed.

Lemma advances_pure {A} (m : M Op D A) :
  (forall w, exists r, m w = (r, w) /\ r <> OutOfFuel) -> advances m 0.
Proof.
  intros Hp w r w' H. destruct (Hp w) as (r0 & E & Hn).
  rewrite E in H. inversion H; subst. split; [exact Hn|]. intros _ _. lra.
Qed.

Lemma within_pure {A} (m : M Op D A) :
  (forall w, exists r, m w = (r, w)) -> within m 0.
Proof.
  intros Hp w r w' H. destruct (Hp w) as (r0 & E).
  rewrite E in H. inversion H; subst. split; lra.
Qed.

Lemma advances_ret {A} (a : A) : advances (Op := Op) (D := D) (ret a) 0.
Proof. apply advances_pure. intro w. exists (Ok a). split; [reflexivity | discriminate]. Qed.

Lemma within_ret {A} (a : A) : within (Op := Op) (D := D) (ret a) 0.
Proof. apply within_pure. intro w. exists (Ok a). reflexivity. Qed.

Lemma advances_read {A} (f : D -> A) : advances (Op := Op) (read f) 0.
Proof.
  apply advances_pure. intro w. exists (Ok (f (mem w))).
  split; [reflexivity | discriminate].
Qed.

Lemma within_read {A} (f : D -> A) : within (Op := Op) (read f) 0.
Proof. apply within_pure. intro w. exists (Ok (f (mem w))). reflexivity. Qed.

Lemma advances_raise {A} (e : exn) (d : Q) : advances (Op := Op) (D := D) (A := A) (raise e) d.
Proof.
  intros w r w' H. inversion H; subst. split; [discriminate|]. intros a Ha. discriminate.
Qed.

Lemma within_raise {A} (e : exn) : within (Op := Op) (D := D) (A := A) (raise e) 0.
Proof. apply within_pure. intro w. exists (Raise e). reflexivity. Qed.

Lemma advances_time_time : advances (Op := Op) (D := D) time_time 0.
Proof.
  apply advances_pure. intro w. exists (Ok (clock w)). split; [reflexivity | discriminate].
Qed.

Lemma within_time_time : within (Op := Op) (D := D) time_time 0.
Proof. apply within_pure. intro w. exists (Ok (clock w)). reflexivity. Qed.

Lemma advances_print (line : string) : advances (Op := Op) (D := D) (print line) 0.
Proof.
  intros w r w' H. inversion H; subst. split; [discriminate|]. intros _ _. simpl. lra.
Qed.

Lemma within_print (line : string) : within (Op := Op) (D := D) (print line) 0.
Proof. intros w r w' H. inversion H; subst. simpl. split; lra. Qed.

Lemma advances_modify (f : D -> D) : advances (Op := Op) (modify f) 0.
Proof.
  intros w r w' H. inversion H; subst. split; [discriminate|]. intros _ _. simpl. lra.
Qed.

Lemma within_modify (f : D -> D) : within (Op := Op) (modify f) 0.
Proof. intros w r w' H. inversion H; subst. simpl. split; lra. Qed.

Lemma advances_sleep (t : Q) : advances (Op := Op) (D := D) (sleep t) t.
Proof.
  intros w r w' H.
  apply sleep_inv in H as [(_ & -> & ->) | (_ & -> & ->)].
  - split; [discriminate|]. intros a Ha. discriminate.
  - split; [discriminate|]. intros _ _. simpl. lra.
Qed.

Lemma within_sleep (t : Q) : 0 <= t -> within (Op := Op) (D := D) (sleep t) t.
Proof.
  intros Ht w r w' H.
  apply sleep_inv in H as [(_ & -> & ->) | (_ & -> & ->)]; simpl; split; lra.
Qed.

Lemma advances_hw_call (op : Op) (f : D -> D) : advances (hw_call op f) 0.
Proof.
  intros w r w' H.
  apply hw_call_inv in H as [(-> & _ & _ & E & _) | (-> & _ & _ & E & _)].
  - split; [discriminate|]. intros _ _. rewrite E. lra.
  - split; [discriminate|]. intros a Ha. discriminate.
Qed.

Lemma within_hw_call (op : Op) (f : D -> D) : within (hw_call op f) 0.
Proof.
  intros w r w' H.
  apply hw_call_inv in H as [(_ & _ & _ & E & _) | (_ & _ & _ & E & _)];
    rewrite E; split; lra.
Qed.

Lemma advances_bind {A B} (m : M Op D A) (k : A -> M Op D B) (d1 d2 : Q) :
  advances m d1 -> (forall a, advances (k a) d2) -> advances (bind m k) (d1 + d2).
Proof.
  intros Hm Hk w r w' H.
  apply bind_inv in H as [(a & w1 & H1 & H2) | [(e & H1 & ->) | (H1 & ->)]].
  - destruct (Hm _ _ _ H1) as [_ Ha]. destruct (Hk a _ _ _ H2) as [Hn Hb].
    split; [exact Hn|]. intros b Hr.
    specialize (Ha a eq_refl). specialize (Hb b Hr). lra.
  - split; [discriminate|]. intros a Ha. discriminate.
  - destruct (Hm _ _ _ H1) as [Hn _]. congruence.
Qed.

Lemma within_bind {A B} (m : M Op D A) (k : A -> M Op D B) (d1 d2 : Q) :
  within m d1 -> 0 <= d2 -> (forall a, within (k a) d2) -> within (bind m k) (d1 + d2).
Proof.
  intros Hm Hd Hk w r w' H.
  apply bind_inv in H as [(a & w1 & H1 & H2) | [(e & H1 & ->) | (H1 & ->)]].
  - destruct (Hm _ _ _ H1) as [Ha1 Ha2]. destruct (Hk a _ _ _ H2) as [Hb1 Hb2].
    split; lra.
  - destruct (Hm _ _ _ H1) as [Ha1 Ha2]. split; lra.
  - destruct (Hm _ _ _ H1) as [Ha1 Ha2]. split; lra.
Qed.

Lemma advances_repeatM (n : nat) (body : M Op D unit) (d : Q) :
  advances body d -> advances (repeatM n body) (inject_Z (Z.of_nat n) * d).
Proof.
  intro Hb. induction n as [|n IH].
  - simpl repeatM. eapply advances_eq; [apply advances_ret|]. simpl. ring.
  - simpl repeatM. eapply advances_eq.
    + apply advances_bind; [exact Hb | intros _; exact IH].
    + rewrite inject_nat_succ. ring.
Qed.

Lemma within_repeatM (n : nat) (body : M Op D unit) (d : Q) :
  within body d -> 0 <= d -> within (repeatM n body) (inject_Z (Z.of_nat n) * d).
Proof.
  intros Hb Hd. induction n as [|n IH].
  - simpl repeatM. eapply within_le; [apply within_ret|].
    change (inject_Z (Z.of_nat 0)) with 0. lra.
  - simpl repeatM. eapply within_le.
    + apply within_bind; [exact Hb | | intros _; exact IH].
      apply Qmult_le_0_compat; [apply inject_nat_nonneg | exact Hd].
    + rewrite inject_nat_succ. lra.
Qed.

(** A pattern loop never lets the clock pass the duration by more than one
    pass of its body. *)
Lemma within_while (start duration d : Q) (body : M Op D unit) :
  within body d -> 0 <= d ->
  forall fuel (w : world Op D) r w',
    while fuel (running start duration) body w = (r, w') ->
    clock w <= clock w' /\
    (clock w - start <= duration + d -> clock w' - start <= duration + d).
Proof.
  intros Hb Hd. induction fuel as [|fuel IH]; intros w r w' H.
  - destruct (Qlt_le_dec (clock w - start) duration) as [L|L].
    + rewrite while_exhausted in H by exact L. inversion H; subst. split; lra.
    + rewrite while_stopped in H by exact L. inversion H; subst. split; lra.
  - destruct (Qlt_le_dec (clock w - start) duration) as [L|L].
    + rewrite while_running in H by exact L.
      apply bind_inv in H as [(a & w1 & H1 & H2) | [(e & H1 & _) | (H1 & _)]].
      * destruct (Hb _ _ _ H1) as [Ha1 Ha2]. destruct (IH _ _ _ H2) as [Hb1 Hb2].
        split; [lra|]. intros _. apply Hb2. lra.
      * destruct (Hb _ _ _ H1) as [Ha1 Ha2]. split; lra.
      * destruct (Hb _ _ _ H1) as [Ha1 Ha2]. split; lra.
    + rewrite while_stopped in H by exact L. inversion H; subst. split; lra.
Qed.

(** A pattern loop whose body blocks for [d > 0] each time it returns
    finishes within any budget of at least [remaining / d] passes. *)
Lemma while_finishes (start duration d : Q) (body : M Op D unit) :
  advances body d -> 0 < d ->
  forall fuel (w : world Op D),
    duration - (clock w - start) <= inject_Z (Z.of_nat fuel) * d ->
    fst (while fuel (running start duration) body w) <> OutOfFuel.
Proof.
  intros Hb Hd. induction fuel as [|fuel IH]; intros w Hf.
  - change (inject_Z (Z.of_nat 0)) with 0 in Hf.
    rewrite while_stopped by lra. discriminate.
  - destruct (Qlt_le_dec (clock w - start) duration) as [L|L].
    + rewrite while_running by exact L. unfold bind.
      destruct (body w) as [[[]|e|] w1] eqn:E.
      * destruct (Hb _ _ _ E) as [_ Ha]. specialize (Ha tt eq_refl).
        apply IH. rewrite inject_nat_succ in Hf. lra.
      * discriminate.
      * destruct (Hb _ _ _ E) as [Hn _]. congruence.
    + rewrite while_stopped by exact L. discriminate.
Qed.

End ClockRules.

(** *** Shape of a loop whose body always returns *)

Section LoopShape.

Variables Op D : Type.

(** [I] holds of the worlds the body runs in; there the body returns, adds
    the events [evs] and blocks for [d]. *)
Variable I : world Op D -> Prop.
Variable evs : list (event Op).
Variable d : Q.
Variable body : M Op D unit.

Hypothesis body_returns : forall w, I w ->
  exists w', body w = (Ok tt, w') /\ I w' /\
    trace w' = trace w ++ evs /\ clock w' == clock w + d.

Lemma repeatM_shape (n : nat) (w : world Op D) :
  I w ->
  exists w', repeatM n body w = (Ok tt, w') /\ I w' /\
    trace w' = trace w ++ concat (repeat evs n) /\
    clock w' == clock w + inject_Z (Z.of_nat n) * d.
Proof.
  revert w. induction n as [|n IH]; intros w HI.
  - exists w. simpl. rewrite app_nil_r. repeat split; auto.
    change (inject_Z 0) with 0. ring.
  - destruct (body_returns HI) as (w1 & E1 & I1 & T1 & C1).
    destruct (IH w1 I1) as (w2 & E2 & I2 & T2 & C2).
    exists w2. simpl repeatM. erewrite bind_ok by exact E1. repeat split; auto.
    + rewrite T2, T1. simpl. rewrite app_assoc. reflexivity.
    + rewrite inject_nat_succ. lra.
Qed.

Lemma while_shape (start duration : Q) (fuel : nat) (w : world Op D) :
  I w ->
  exists k w', (k <= fuel)%nat /\ I w' /\
    trace w' = trace w ++ concat (repeat evs k) /\
    clock w' == clock w + inject_Z (Z.of_nat k) * d /\
    (forall j, (j < k)%nat ->
       clock w + inject_Z (Z.of_nat j) * d - start < duration) /\
    ((while fuel (running start duration) body w = (Ok tt, w') /\
      duration <= clock w' - start) \/
     (while fuel (running start duration) body w = (OutOfFuel, w') /\
      k = fuel /\ clock w' - start < duration)).
Proof.
  revert w. induction fuel as [|fuel IH]; intros w HI.
  - exists O, w. split; [lia|]. split; [exact HI|].
    split; [simpl; rewrite app_nil_r; reflexivity|].
    split; [change (inject_Z (Z.of_nat 0)) with 0; ring|].
    split; [intros j Hj; lia|].
    destruct (Qlt_le_dec (clock w - start) duration) as [L|L].
    + right. rewrite while_exhausted by exact L. auto.
    + left. rewrite while_stopped by exact L. auto.
  - destruct (Qlt_le_dec (clock w - start) duration) as [L|L].
    + destruct (body_returns HI) as (w1 & E1 & I1 & T1 & C1).
      destruct (IH w1 I1) as (k & w2 & Hk & I2 & T2 & C2 & Hj & Hr).
      exists (S k), w2. rewrite while_running by exact L. erewrite bind_ok by exact E1.
      split; [lia|]. split; [exact I2|]. split.
      { rewrite T2, T1. simpl. rewrite app_assoc. reflexivity. }
      split.
      { rewrite inject_nat_succ. lra. }
      split.
      { intros [|j] Hlt.
        - change (inject_Z (Z.of_nat 0)) with 0. lra.
        - assert (Hlt' : (j < k)%nat) by lia. specialize (Hj j Hlt').
          rewrite inject_nat_succ. lra. }
      destruct Hr as [(E2 & Hd) | (E2 & Hk' & Hd)].
      * left. auto.
      * right. repeat split; auto.
    + exists O, w. split; [lia|]. split; [exact HI|].
      split; [simpl; rewrite app_nil_r; reflexivity|].
      split; [change (inject_Z (Z.of_nat 0)) with 0; ring|].
      split; [intros j Hj; lia|].
      left. rewrite while_stopped by exact L. auto.
Qed.

End LoopShape.

(** ** Facts about the piezo driver *)

Section PiezoFacts.

Import piezo_alarm.

#[local] Abbreviation present :=
  (fun s : state => RPI_AVAILABLE s = true /\ GPIO s = RealGPIO).

Lemma piezo_effect_globals (op : gpio_op) (s : state) :
  RPI_AVAILABLE (gpio_effect op s) = RPI_AVAILABLE s /\
  GPIO (gpio_effect op s) = GPIO s /\
  _initialized (gpio_effect op s) = _initialized s.
Proof.
  destruct op; simpl; unfold on_piezo_line;
    try destruct (pin =? PIEZO_PIN)%Z; simpl; auto.
Qed.

Lemma piezo_gpio_real (op : gpio_op) (w : W) :
  GPIO (mem w) = RealGPIO -> gpio op w = hw_call op (gpio_effect op) w.
Proof. intro H. unfold gpio. rewrite H. reflexivity. Qed.

Lemma piezo_gpio_ok (op : gpio_op) (w : W) :
  GPIO (mem w) = RealGPIO -> faults w = [] ->
  gpio op w = (Ok tt, mkWorld (trace w ++ [Call op]) (clock w) [] (gpio_effect op (mem w))).
Proof. intros H F. rewrite piezo_gpio_real by exact H. apply hw_call_ok. exact F. Qed.

Lemma piezo_keeps_gpio (op : gpio_op) : keeps present (gpio op).
Proof.
  assert (K : keeps present (hw_call op (gpio_effect op))).
  { apply keeps_hw_call. intros s [H1 H2].
    destruct (piezo_effect_globals op s) as (E1 & E2 & _). rewrite E1, E2. auto. }
  intros w r w' HP H. rewrite piezo_gpio_real in H by apply HP.
  exact (K w r w' HP H).
Qed.

Lemma piezo_keeps_init : keeps present _init_gpio.
Proof.
  unfold _init_gpio.
  apply keeps_bind; [apply keeps_read|]. intros [|]; [apply keeps_ret|].
  apply keeps_bind; [apply keeps_read|]. intros [|]; simpl; [|apply keeps_ret].
  repeat (apply keeps_bind; [apply piezo_keeps_gpio | intros _]).
  apply keeps_modify. intros s H. exact H.
Qed.

Lemma piezo_keeps_beep (on_time off_time : Q) : keeps present (beep on_time off_time).
Proof.
  unfold beep.
  apply keeps_bind; [apply piezo_keeps_gpio | intros _].
  apply keeps_bind; [apply keeps_sleep | intros _].
  apply keeps_bind; [apply piezo_keeps_gpio | intros _].
  apply keeps_sleep.
Qed.

Lemma piezo_keeps_pattern fuel start duration n on_time off_time pause :
  keeps present (pattern fuel start duration n on_time off_time pause).
Proof.
  unfold pattern. apply keeps_while; [apply keeps_running|].
  unfold group. apply keeps_bind; [|intros _; apply keeps_sleep].
  apply keeps_for_range. apply piezo_keeps_beep.
Qed.

Lemma piezo_advances_gpio (op : gpio_op) : advances (gpio op) 0.
Proof.
  intros w r w' H. unfold gpio in H. destruct (GPIO (mem w)).
  - exact (advances_hw_call _ _ _ H).
  - inversion H; subst. split; [discriminate|]. intros _ _. lra.
Qed.

Lemma piezo_within_gpio (op : gpio_op) : within (gpio op) 0.
Proof.
  intros w r w' H. unfold gpio in H. destruct (GPIO (mem w)).
  - exact (within_hw_call _ _ _ H).
  - inversion H; subst. split; lra.
Qed.

Lemma piezo_advances_init : advances _init_gpio 0.
Proof.
  unfold _init_gpio.
  eapply advances_eq.
  - apply advances_bind; [apply advances_read|]. intros b1.
    instantiate (1 := 0 + (0 + (0 + (0 + 0)))).
    destruct b1.
    + eapply advances_eq; [apply advances_ret | ring].
    + apply advances_bind; [apply advances_read|]. intros b2.
      destruct b2; simpl.
      * repeat (apply advances_bind; [apply piezo_advances_gpio | intros _]).
        apply advances_modify.
      * eapply advances_eq; [apply advances_ret | ring].
  - ring.
Qed.

Lemma piezo_within_init : within _init_gpio 0.
Proof.
  unfold _init_gpio.
  eapply within_le.
  - apply within_bind; [apply within_read | |]. 
    2:{ intros b1. instantiate (1 := 0 + (0 + (0 + (0 + 0)))).
        destruct b1.
        - eapply within_le; [apply within_ret | lra].
        - apply within_bind; [apply within_read | lra |]. intros b2.
          destruct b2; simpl.
          + repeat (apply within_bind; [apply piezo_within_gpio | lra | intros _]).
            apply within_modify.
          + eapply within_le; [apply within_ret | lra]. }
    lra.
  - lra.
Qed.

Lemma piezo_advances_beep (on_time off_time : Q) :
  advances (beep on_time off_time) (on_time + off_time).
Proof.
  unfold beep. eapply advances_eq.
  - apply advances_bind; [apply piezo_advances_gpio | intros _].
    apply advances_bind; [apply advances_sleep | intros _].
    apply advances_bind; [apply piezo_advances_gpio | intros _].
    apply advances_sleep.
  - ring.
Qed.

Lemma piezo_within_beep (on_time off_time : Q) :
  0 <= on_time -> 0 <= off_time ->
  within (beep on_time off_time) (on_time + off_time).
Proof.
  intros H1 H2. unfold beep. eapply within_le.
  - apply within_bind; [apply piezo_within_gpio | | intros _].
    2:{ apply within_bind; [apply within_sleep; exact H1 | | intros _].
        2:{ apply within_bind; [apply piezo_within_gpio | exact H2 | intros _].
            apply within_sleep; exact H2. }
        lra. }
    lra.
  - lra.
Qed.

Lemma piezo_advances_group (n : Z) (on_time off_time pause : Q) :
  advances (group n on_time off_time pause) (cycle_time n on_time off_time pause).
Proof.
  unfold group, for_range. eapply advances_eq.
  - apply advances_bind; [|intros _; apply advances_sleep].
    apply advances_repeatM. apply piezo_advances_beep.
  - rewrite cycle_time_count. reflexivity.
Qed.

Lemma cycle_time_nonneg (n : Z) (on_time off_time pause : Q) :
  0 <= on_time -> 0 <= off_time -> 0 <= pause ->
  0 <= cycle_time n on_time off_time pause.
Proof.
  intros H1 H2 H3. rewrite cycle_time_count.
  assert (0 <= inject_Z (Z.of_nat (Z.to_nat n)) * (on_time + off_time)).
  { apply Qmult_le_0_compat; [apply inject_nat_nonneg | lra]. }
  lra.
Qed.

Lemma piezo_within_group (n : Z) (on_time off_time pause : Q) :
  0 <= on_time -> 0 <= off_time -> 0 <= pause ->
  within (group n on_time off_time pause) (cycle_time n on_time off_time pause).
Proof.
  intros H1 H2 H3. unfold group, for_range. eapply within_le.
  - apply within_bind; [|exact H3|intros _; apply within_sleep; exact H3].
    apply within_repeatM; [apply piezo_within_beep; assumption | lra].
  - rewrite cycle_time_count. lra.
Qed.

End PiezoFacts.

Section PiezoRuns.

Import piezo_alarm.

(** Worlds in which the loop body cannot raise: the library is bound and
    no fault is scheduled. *)
#[local] Abbreviation steady :=
  (fun w : W => faults w = [] /\ RPI_AVAILABLE (mem w) = true /\ GPIO (mem w) = RealGPIO).

Lemma piezo_init_done (w : W) :
  _initialized (mem w) = true -> _init_gpio w = (Ok tt, w).
Proof. intro H. unfold _init_gpio, bind, read. rewrite H. reflexivity. Qed.

Lemma piezo_init_mock (w : W) :
  RPI_AVAILABLE (mem w) = false -> _init_gpio w = (Ok tt, w).
Proof.
  intro H. unfold _init_gpio, bind, read.
  destruct (_initialized (mem w)); [reflexivity|]. rewrite H. reflexivity.
Qed.

Lemma piezo_init_fresh (w : W) :
  steady w -> _initialized (mem w) = false ->
  exists w1, _init_gpio w = (Ok tt, w1) /\
    trace w1 = trace w ++ init_events false /\
    clock w1 = clock w /\
    steady w1 /\
    _initialized (mem w1) = true /\
    pin_level (mem w1) = LOW.
Proof.
  destruct w as [tr ck fs [av g ini nb dir lvl]]. simpl.
  intros (-> & -> & ->) ->.
  eexists. split; [reflexivity|]. simpl.
  rewrite <- !app_assoc. simpl. auto 10.
Qed.

Lemma piezo_init_ok (w : W) :
  steady w ->
  exists w1, _init_gpio w = (Ok tt, w1) /\
    trace w1 = trace w ++ init_events (_initialized (mem w)) /\
    clock w1 = clock w /\
    steady w1 /\
    _initialized (mem w1) = true.
Proof.
  intro Hs. destruct (_initialized (mem w)) eqn:E.
  - exists w. rewrite piezo_init_done by exact E. simpl. rewrite app_nil_r. auto.
  - destruct (piezo_init_fresh Hs E) as (w1 & H1 & H2 & H3 & H4 & H5 & _).
    exists w1. auto.
Qed.

Lemma piezo_beep_returns (on_time off_time : Q) :
  0 <= on_time -> 0 <= off_time ->
  forall w : W, steady w ->
  exists w', beep on_time off_time w = (Ok tt, w') /\ steady w' /\
    trace w' = trace w ++ beep_events on_time off_time /\
    clock w' == clock w + (on_time + off_time).
Proof.
  intros Hon Hoff w (F & A & G).
  unfold beep.
  erewrite bind_ok by (apply piezo_gpio_ok; [exact G | exact F]).
  erewrite bind_ok by (apply sleep_ok; exact Hon).
  erewrite bind_ok by (apply piezo_gpio_ok; [simpl; exact G | reflexivity]).
  rewrite sleep_ok by exact Hoff.
  eexists. split; [reflexivity|]. simpl. repeat split; auto.
  - rewrite <- !app_assoc. reflexivity.
  - ring.
Qed.

Lemma piezo_group_returns (n : Z) (on_time off_time pause : Q) :
  0 <= on_time -> 0 <= off_time -> 0 <= pause ->
  forall w : W, steady w ->
  exists w', group n on_time off_time pause w = (Ok tt, w') /\ steady w' /\
    trace w' = trace w ++ cycle_events n on_time off_time pause /\
    clock w' == clock w + cycle_time n on_time off_time pause.
Proof.
  intros Hon Hoff Hp w Hs. unfold group, for_range.
  destruct (@repeatM_shape _ _ steady _ _ _ (piezo_beep_returns Hon Hoff) (Z.to_nat n) w Hs)
    as (w1 & E1 & S1 & T1 & C1).
  erewrite bind_ok by exact E1. rewrite sleep_ok by exact Hp.
  eexists. split; [reflexivity|]. simpl. repeat split; try apply S1.
  - rewrite T1. unfold cycle_events. rewrite app_assoc. reflexivity.
  - rewrite cycle_time_count. lra.
Qed.

Lemma piezo_writes_app (t1 t2 : list (event gpio_op)) :
  writes (t1 ++ t2) = (writes t1 + writes t2)%nat.
Proof. unfold writes. rewrite filter_app, length_app. reflexivity. Qed.

Lemma piezo_writes_beeps (on_time off_time : Q) (n : nat) :
  writes (concat (repeat (beep_events on_time off_time) n)) = (2 * n)%nat.
Proof.
  induction n as [|n IH]; [reflexivity|].
  cbn [repeat]. rewrite concat_cons, piezo_writes_app, IH.
  unfold writes. simpl. lia.
Qed.

Lemma piezo_writes_cycles (n : Z) (on_time off_time pause : Q) (k : nat) :
  writes (concat (repeat (cycle_events n on_time off_time pause) k))
  = (k * (2 * Z.to_nat n))%nat.
Proof.
  induction k as [|k IH]; [reflexivity|].
  cbn [repeat]. rewrite concat_cons, piezo_writes_app, IH.
  unfold cycle_events. rewrite piezo_writes_app, piezo_writes_beeps.
  unfold writes. simpl. lia.
Qed.

End PiezoRuns.

Section PiezoAlarm.

Import piezo_alarm.

Variables (fuel : nat) (duration : Q) (n : Z) (on_time off_time pause : Q).

#[local] Abbreviation steady :=
  (fun w : W => faults w = [] /\ RPI_AVAILABLE (mem w) = true /\ GPIO (mem w) = RealGPIO).

Lemma piezo_alarm_mock (w : W) :
  RPI_AVAILABLE (mem w) = false ->
  alarm fuel duration n on_time off_time pause w = (Ok tt, log (Print mock_notice) w).
Proof. intro H. unfold alarm, bind, read. rewrite H. reflexivity. Qed.

Lemma piezo_alarm_real (w : W) :
  RPI_AVAILABLE (mem w) = true ->
  alarm fuel duration n on_time off_time pause w
  = bind _init_gpio (fun _ =>
      bind time_time (fun start =>
        try_finally (pattern fuel start duration n on_time off_time pause) force_off)) w.
Proof. intro H. unfold alarm at 1, bind at 1, read. rewrite H. reflexivity. Qed.

Lemma piezo_alarm_entered (w wi : W) :
  RPI_AVAILABLE (mem w) = true ->
  _init_gpio w = (Ok tt, wi) ->
  alarm fuel duration n on_time off_time pause w
  = try_finally (pattern fuel (clock wi) duration n on_time off_time pause) force_off wi.
Proof.
  intros A Hi. rewrite piezo_alarm_real by exact A.
  erewrite bind_ok by exact Hi. reflexivity.
Qed.

Lemma piezo_force_off_inv (w : W) r w' :
  GPIO (mem w) = RealGPIO -> force_off w = (r, w') ->
  clock w' = clock w /\
  ((r = Ok tt /\ trace w' = trace w ++ [Call (GPIO_output PIEZO_PIN LOW)] /\
    pin_level (mem w') = LOW) \/
   (r = Raise HardwareError /\ trace w' = trace w ++ [Failed (GPIO_output PIEZO_PIN LOW)])).
Proof.
  intros G H. unfold force_off in H. rewrite piezo_gpio_real in H by exact G.
  apply hw_call_inv in H as [(-> & T & E & C & _) | (-> & T & E & C & _)].
  - split; [exact C|]. left. rewrite E. auto.
  - split; [exact C|]. right. auto.
Qed.

(** Once the loop is entered, the write of LOW is the last thing [alarm]
    does, however the loop ended. *)
Lemma piezo_off_on_exit (w wi : W) r w' :
  hardware_present w ->
  _init_gpio w = (Ok tt, wi) ->
  alarm fuel duration n on_time off_time pause w = (r, w') ->
  r <> OutOfFuel ->
  exists pre,
    (trace w' = pre ++ [Call (GPIO_output PIEZO_PIN LOW)] /\ pin_level (mem w') = LOW) \/
    (trace w' = pre ++ [Failed (GPIO_output PIEZO_PIN LOW)] /\ r = Raise HardwareError).
Proof.
  intros HP Hi H Hr. rewrite piezo_alarm_entered with (wi := wi) in H by (exact Hi || apply HP).
  assert (Pi : hardware_present wi) by (eapply piezo_keeps_init; [exact HP | exact Hi]).
  apply try_finally_inv in H as [(_ & ->) | (r1 & w1 & r2 & H1 & _ & H2 & Hres)];
    [congruence|].
  assert (P1 : hardware_present w1) by (eapply piezo_keeps_pattern; [exact Pi | exact H1]).
  destruct (@piezo_force_off_inv w1 r2 w' (proj2 P1) H2) as [_ [(-> & T & L) | (-> & T)]].
  - exists (trace w1). left. auto.
  - exists (trace w1). right. auto.
Qed.

(** With working hardware and non-negative times, [alarm] is the lazy
    initialisation, whole cycles while the clock is short of the duration,
    and the final write of LOW. *)
Lemma piezo_alarm_shape (w : W) :
  steady w -> 0 <= on_time -> 0 <= off_time -> 0 <= pause ->
  exists k w',
    (k <= fuel)%nat /\
    clock w' == clock w + inject_Z (Z.of_nat k) * cycle_time n on_time off_time pause /\
    (forall j, (j < k)%nat ->
       inject_Z (Z.of_nat j) * cycle_time n on_time off_time pause < duration) /\
    ((alarm fuel duration n on_time off_time pause w = (Ok tt, w') /\
      duration <= inject_Z (Z.of_nat k) * cycle_time n on_time off_time pause /\
      trace w' = trace w ++ init_events (_initialized (mem w))
                 ++ concat (repeat (cycle_events n on_time off_time pause) k)
                 ++ [Call (GPIO_output PIEZO_PIN LOW)]) \/
     (alarm fuel duration n on_time off_time pause w = (OutOfFuel, w') /\
      k = fuel /\
      inject_Z (Z.of_nat k) * cycle_time n on_time off_time pause < duration /\
      trace w' = trace w ++ init_events (_initialized (mem w))
                 ++ concat (repeat (cycle_events n on_time off_time pause) k))).
Proof.
  intros Hs Hon Hoff Hp.
  destruct (piezo_init_ok Hs) as (wi & Ei & Ti & Ci & Si & _).
  destruct (@while_shape _ _ steady _ _ _
              (piezo_group_returns n Hon Hoff Hp) (clock wi) duration fuel wi Si)
    as (k & w1 & Hk & S1 & T1 & C1 & Hj & Hr).
  rewrite piezo_alarm_entered with (wi := wi) by (exact Ei || apply Hs). unfold try_finally, pattern.
  destruct Hr as [(E1 & Hd) | (E1 & -> & Hd)]; rewrite E1; cbv beta iota.
  - unfold force_off. rewrite piezo_gpio_ok by apply S1.
    exists k, (mkWorld (trace w1 ++ [Call (GPIO_output PIEZO_PIN LOW)]) (clock w1) []
                 (gpio_effect (GPIO_output PIEZO_PIN LOW) (mem w1))).
    split; [exact Hk|]. cbn [clock trace].
    split; [rewrite C1, Ci; reflexivity|].
    split; [intros j Hlt; specialize (Hj j Hlt); lra|].
    left. split; [reflexivity|]. split; [lra|].
    rewrite T1, Ti, <- !app_assoc. reflexivity.
  - exists fuel, w1. split; [lia|].
    split; [rewrite C1, Ci; reflexivity|].
    split; [intros j Hlt; specialize (Hj j Hlt); lra|].
    right. split; [reflexivity|]. split; [reflexivity|]. split; [lra|].
    rewrite T1, Ti, <- !app_assoc. reflexivity.
Qed.

(** A non-positive duration: the loop body never runs. *)
Lemma piezo_alarm_zero (w : W) :
  steady w -> duration <= 0 ->
  exists w',
    alarm fuel duration n on_time off_time pause w = (Ok tt, w') /\
    trace w' = trace w ++ init_events (_initialized (mem w))
               ++ [Call (GPIO_output PIEZO_PIN LOW)] /\
    clock w' = clock w /\
    pin_level (mem w') = LOW.
Proof.
  intros Hs Hd.
  destruct (piezo_init_ok Hs) as (wi & Ei & Ti & Ci & Si & _).
  rewrite piezo_alarm_entered with (wi := wi) by (exact Ei || apply Hs).
  unfold try_finally, pattern. rewrite while_stopped by lra. cbv beta iota.
  unfold force_off. rewrite piezo_gpio_ok by apply Si.
  eexists. split; [reflexivity|]. cbn [clock trace mem].
  rewrite Ti, <- app_assoc. auto.
Qed.

Lemma piezo_alarm_within (w : W) r w' :
  0 < duration -> 0 <= on_time -> 0 <= off_time -> 0 <= pause ->
  alarm fuel duration n on_time off_time pause w = (r, w') ->
  clock w <= clock w' /\
  clock w' - clock w <= duration + cycle_time n on_time off_time pause.
Proof.
  intros Hd Hon Hoff Hp H.
  pose proof (cycle_time_nonneg n Hon Hoff Hp) as Hc.
  destruct (RPI_AVAILABLE (mem w)) eqn:A.
  - rewrite piezo_alarm_real in H by exact A.
    apply bind_inv in H as [(a & wi & Hi & H) | [(e & Hi & _) | (Hi & _)]].
    + destruct (piezo_within_init _ Hi) as [Hi1 Hi2].
      unfold bind at 1, time_time in H.
      apply try_finally_inv in H as [(H1 & _) | (r1 & w1 & r2 & H1 & _ & H2 & _)].
      * destruct (@within_while _ _ _ _ _ _ (piezo_within_group n Hon Hoff Hp) Hc _ _ _ _ H1)
          as [Hw1 Hw2].
        split; [lra|]. assert (clock w' - clock wi <= duration
          + cycle_time n on_time off_time pause) by (apply Hw2; lra). lra.
      * destruct (@within_while _ _ _ _ _ _ (piezo_within_group n Hon Hoff Hp) Hc _ _ _ _ H1)
          as [Hw1 Hw2].
        destruct (piezo_within_gpio _ _ H2) as [Hf1 Hf2].
        split; [lra|]. assert (clock w1 - clock wi <= duration
          + cycle_time n on_time off_time pause) by (apply Hw2; lra). lra.
    + destruct (piezo_within_init _ Hi) as [Hi1 Hi2]. split; lra.
    + destruct (piezo_within_init _ Hi) as [Hi1 Hi2]. split; lra.
  - rewrite piezo_alarm_mock in H by exact A. inversion H; subst. simpl. split; lra.
Qed.

Lemma ceiling_budget (d c : Q) (k : nat) :
  0 < c -> (Z.to_nat (Qceiling (d / c)) <= k)%nat -> d <= inject_Z (Z.of_nat k) * c.
Proof.
  intros Hc Hk.
  assert (H1 : d / c <= inject_Z (Qceiling (d / c))) by apply Qle_ceiling.
  assert (H2 : inject_Z (Qceiling (d / c)) <= inject_Z (Z.of_nat k)).
  { rewrite <- Zle_Qle. lia. }
  assert (H3 : d / c <= inject_Z (Z.of_nat k)) by lra.
  apply Qmult_le_r with (z := c) in H3; [|exact Hc].
  assert (E : d / c * c == d) by (field; lra).
  lra.
Qed.

Lemma piezo_alarm_finishes (w : W) :
  0 < cycle_time n on_time off_time pause ->
  (Z.to_nat (Qceiling (duration / cycle_time n on_time off_time pause)) <= fuel)%nat ->
  fst (alarm fuel duration n on_time off_time pause w) <> OutOfFuel.
Proof.
  intros Hc Hk.
  destruct (RPI_AVAILABLE (mem w)) eqn:A.
  - rewrite piezo_alarm_real by exact A. unfold bind at 1.
    destruct (_init_gpio w) as [[[]|e|] wi] eqn:Hi.
    + unfold bind at 1, time_time. unfold try_finally.
      pose proof (@while_finishes _ _ (clock wi) duration _ _
        (piezo_advances_group n on_time off_time pause) Hc fuel wi) as Hf.
      assert (Hb : duration - (clock wi - clock wi)
        <= inject_Z (Z.of_nat fuel) * cycle_time n on_time off_time pause).
      { pose proof (ceiling_budget duration Hc Hk). lra. }
      specialize (Hf Hb). unfold pattern.
      destruct (while fuel (running (clock wi) duration)
        (group n on_time off_time pause) wi) as [[[]|e|] w1] eqn:E1.
      * destruct (force_off w1) as [[[]|e|] w2] eqn:E2; simpl; try discriminate.
        destruct (piezo_advances_gpio _ _ E2) as [Hn _]. congruence.
      * destruct (force_off w1) as [[[]|e2|] w2] eqn:E2; simpl; try discriminate.
        destruct (piezo_advances_gpio _ _ E2) as [Hn _]. congruence.
      * simpl in Hf. congruence.
    + simpl. discriminate.
    + destruct (piezo_advances_init _ Hi) as [Hn _]. congruence.
  - rewrite piezo_alarm_mock by exact A. simpl. discriminate.
Qed.

End PiezoAlarm.

Section PiezoLifecycle.

Import piezo_alarm.

#[local] Abbreviation steady :=
  (fun w : W => faults w = [] /\ RPI_AVAILABLE (mem w) = true /\ GPIO (mem w) = RealGPIO).

Lemma repeatM_idle {Op D : Type} (body : M Op D unit) (w : world Op D) (n : nat) :
  body w = (Ok tt, w) -> repeatM n body w = (Ok tt, w).
Proof.
  intro H. induction n as [|n IH]; [reflexivity|].
  simpl. erewrite bind_ok by exact H. exact IH.
Qed.

Lemma piezo_init_calls_done (n : nat) (w : W) :
  _initialized (mem w) = true -> init_calls n w = (Ok tt, w).
Proof. intro H. apply repeatM_idle. apply piezo_init_done. exact H. Qed.

Lemma piezo_init_calls_mock (n : nat) (w : W) :
  RPI_AVAILABLE (mem w) = false -> init_calls n w = (Ok tt, w).
Proof. intro H. apply repeatM_idle. apply piezo_init_mock. exact H. Qed.

Lemma piezo_cleanup_idle (w : W) :
  RPI_AVAILABLE (mem w) = false \/ _initialized (mem w) = false ->
  cleanup w = (Ok tt, w).
Proof.
  intros [H|H]; unfold cleanup, bind, read.
  - rewrite H. reflexivity.
  - destruct (RPI_AVAILABLE (mem w)); [|reflexivity]. simpl. rewrite H. reflexivity.
Qed.

Lemma piezo_cleanup_calls_idle (n : nat) (w : W) :
  RPI_AVAILABLE (mem w) = false \/ _initialized (mem w) = false ->
  cleanup_calls n w = (Ok tt, w).
Proof. intro H. apply repeatM_idle. apply piezo_cleanup_idle. exact H. Qed.

Lemma piezo_cleanup_release (w : W) :
  steady w -> _initialized (mem w) = true ->
  exists w1, cleanup w = (Ok tt, w1) /\
    trace w1 = trace w ++ [Call (GPIO_output PIEZO_PIN LOW); Call (GPIO_cleanup PIEZO_PIN)] /\
    clock w1 = clock w /\
    steady w1 /\
    _initialized (mem w1) = false /\
    pin_direction (mem w1) = None /\
    pin_level (mem w1) = LOW.
Proof.
  destruct w as [tr ck fs [av g ini nb dir lvl]]. simpl.
  intros (-> & -> & ->) ->.
  eexists. split; [reflexivity|]. simpl.
  rewrite <- !app_assoc. simpl. auto 10.
Qed.

End PiezoLifecycle.

(** ** Facts about the NeoPixel driver *)

Section ZeroTime.

Variables Op D : Type.

Lemma advances_bind0 {A B} (m : M Op D A) (k : A -> M Op D B) :
  advances m 0 -> (forall a, advances (k a) 0) -> advances (bind m k) 0.
Proof.
  intros Hm Hk. eapply advances_eq; [apply advances_bind; eassumption | ring].
Qed.

Lemma within_bind0 {A B} (m : M Op D A) (k : A -> M Op D B) :
  within m 0 -> (forall a, within (k a) 0) -> within (bind m k) 0.
Proof.
  intros Hm Hk. eapply within_le; [apply within_bind; try eassumption; lra | lra].
Qed.

End ZeroTime.

Section PixelFacts.

Import neopixel_alarm.

Lemma pixel_init_cached (w : W) (p : strip) :
  _pixels (mem w) = Some p -> _init_pixels w = (Ok (Some p), w).
Proof. intro H. unfold _init_pixels, bind, read. rewrite H. reflexivity. Qed.

Lemma pixel_init_mock (w : W) :
  _pixels (mem w) = None -> NEOPIXEL_AVAILABLE (mem w) = false ->
  _init_pixels w = (Ok None, log (Print init_notice) w).
Proof.
  intros H A. unfold _init_pixels, bind, read. rewrite H. cbv beta iota.
  rewrite A. reflexivity.
Qed.

Lemma pixel_set_all_cached (c : color) (w : W) (p : strip) :
  _pixels (mem w) = Some p ->
  _set_all c w = bind (fill p c) (fun _ => show p) w.
Proof.
  intro H. unfold _set_all. erewrite bind_ok by (apply pixel_init_cached; exact H).
  reflexivity.
Qed.

Lemma pixel_advances_NeoPixel pin n b aw : advances (NeoPixel pin n b aw) 0.
Proof.
  unfold NeoPixel. apply advances_bind0; [apply advances_read|].
  intros [[]|]; [|apply advances_raise].
  apply advances_bind0; [apply advances_hw_call | intros _; apply advances_ret].
Qed.

Lemma pixel_within_NeoPixel pin n b aw : within (NeoPixel pin n b aw) 0.
Proof.
  unfold NeoPixel. apply within_bind0; [apply within_read|].
  intros [[]|]; [|apply within_raise].
  apply within_bind0; [apply within_hw_call | intros _; apply within_ret].
Qed.

Lemma pixel_advances_init : advances _init_pixels 0.
Proof.
  unfold _init_pixels. apply advances_bind0; [apply advances_read|].
  intros [p|]; [apply advances_ret|].
  apply advances_bind0; [apply advances_read|]. intros [|]; simpl.
  - apply advances_bind0; [apply advances_read | intros pin].
    apply advances_bind0; [apply pixel_advances_NeoPixel | intros p].
    apply advances_bind0; [apply advances_modify | intros _].
    apply advances_bind0; [apply advances_hw_call | intros _].
    apply advances_bind0; [apply advances_hw_call | intros _].
    apply advances_read.
  - apply advances_bind0; [apply advances_print | intros _; apply advances_ret].
Qed.

Lemma pixel_within_init : within _init_pixels 0.
Proof.
  unfold _init_pixels. apply within_bind0; [apply within_read|].
  intros [p|]; [apply within_ret|].
  apply within_bind0; [apply within_read|]. intros [|]; simpl.
  - apply within_bind0; [apply within_read | intros pin].
    apply within_bind0; [apply pixel_within_NeoPixel | intros p].
    apply within_bind0; [apply within_modify | intros _].
    apply within_bind0; [apply within_hw_call | intros _].
    apply within_bind0; [apply within_hw_call | intros _].
    apply within_read.
  - apply within_bind0; [apply within_print | intros _; apply within_ret].
Qed.

Lemma pixel_advances_set_all (c : color) : advances (_set_all c) 0.
Proof.
  unfold _set_all. apply advances_bind0; [apply pixel_advances_init|].
  intros [p|]; [|apply advances_ret].
  apply advances_bind0; [apply advances_hw_call | intros _; apply advances_hw_call].
Qed.

Lemma pixel_within_set_all (c : color) : within (_set_all c) 0.
Proof.
  unfold _set_all. apply within_bind0; [apply pixel_within_init|].
  intros [p|]; [|apply within_ret].
  apply within_bind0; [apply within_hw_call | intros _; apply within_hw_call].
Qed.

Lemma pixel_advances_flash (c : color) (on_time off_time : Q) :
  advances (flash c on_time off_time) (on_time + off_time).
Proof.
  unfold flash. eapply advances_eq.
  - apply advances_bind; [apply pixel_advances_set_all | intros _].
    apply advances_bind; [apply advances_sleep | intros _].
    apply advances_bind; [apply pixel_advances_set_all | intros _].
    apply advances_sleep.
  - ring.
Qed.

Lemma pixel_within_flash (c : color) (on_time off_time : Q) :
  0 <= on_time -> 0 <= off_time ->
  within (flash c on_time off_time) (on_time + off_time).
Proof.
  intros H1 H2. unfold flash. eapply within_le.
  - apply within_bind; [apply pixel_within_set_all | | intros _].
    2:{ apply within_bind; [apply within_sleep; exact H1 | | intros _].
        2:{ apply within_bind; [apply pixel_within_set_all | exact H2 | intros _].
            apply within_sleep; exact H2. }
        lra. }
    lra.
  - lra.
Qed.

Lemma pixel_advances_group (n : Z) (on_time off_time pause : Q) (c : color) :
  advances (group on_time off_time n pause c) (cycle_time n on_time off_time pause).
Proof.
  unfold group, for_range. eapply advances_eq.
  - apply advances_bind; [|intros _; apply advances_sleep].
    apply advances_repeatM. apply pixel_advances_flash.
  - rewrite cycle_time_count. reflexivity.
Qed.

Lemma pixel_within_group (n : Z) (on_time off_time pause : Q) (c : color) :
  0 <= on_time -> 0 <= off_time -> 0 <= pause ->
  within (group on_time off_time n pause c) (cycle_time n on_time off_time pause).
Proof.
  intros H1 H2 H3. unfold group, for_range. eapply within_le.
  - apply within_bind; [|exact H3|intros _; apply within_sleep; exact H3].
    apply within_repeatM; [apply pixel_within_flash; assumption | lra].
  - rewrite cycle_time_count. lra.
Qed.

(** The cached handle stays in place: nothing after the first
    initialisation assigns [_pixels]. *)
Lemma pixel_keeps_set_all (p : strip) (c : color) :
  keeps (fun s => _pixels s = Some p) (_set_all c).
Proof.
  intros w r w' HP H. rewrite (pixel_set_all_cached c w HP) in H.
  revert w r w' HP H. change (keeps (fun s => _pixels s = Some p)
    (bind (fill p c) (fun _ => show p))).
  apply keeps_bind; [|intros _]; apply keeps_hw_call; intros s Hs.
  - destruct (strip_auto_write p); exact Hs.
  - exact Hs.
Qed.

Lemma pixel_keeps_pattern (p : strip) fuel start duration on_time off_time n pause c :
  keeps (fun s => _pixels s = Some p)
    (pattern fuel start duration on_time off_time n pause c).
Proof.
  unfold pattern. apply keeps_while; [apply keeps_running|].
  unfold group. apply keeps_bind; [|intros _; apply keeps_sleep].
  apply keeps_for_range. unfold flash.
  apply keeps_bind; [apply pixel_keeps_set_all | intros _].
  apply keeps_bind; [apply keeps_sleep | intros _].
  apply keeps_bind; [apply pixel_keeps_set_all | intros _].
  apply keeps_sleep.
Qed.

End PixelFacts.

Section PixelRuns.

Import neopixel_alarm.

(** Worlds in which a flash cannot raise: the strip is cached and no fault
    is scheduled. *)
#[local] Abbreviation ready :=
  (fun (p : strip) (w : W) => faults w = [] /\ _pixels (mem w) = Some p).

Lemma all_black_fill (l : list color) : all_black (map (fun _ => black) l).
Proof. unfold all_black. induction l; simpl; constructor; auto. Qed.

Lemma all_black_repeat (n : nat) : all_black (repeat black n).
Proof. unfold all_black. induction n; simpl; constructor; auto. Qed.

Lemma pixel_set_all_ok (p : strip) (c : color) (w : W) :
  ready p w ->
  exists w', _set_all c w = (Ok tt, w') /\ ready p w' /\
    trace w' = trace w ++ set_all_events c /\
    clock w' = clock w /\
    shown (mem w') = map (fun _ => c) (buffer (mem w)).
Proof.
  intros [F HP]. rewrite (pixel_set_all_cached c w HP).
  unfold fill, show.
  erewrite bind_ok by (apply hw_call_ok; exact F).
  rewrite hw_call_ok by reflexivity.
  eexists. split; [reflexivity|]. cbn [trace clock faults mem].
  rewrite <- app_assoc.
  destruct (strip_auto_write p); simpl; auto.
Qed.

Lemma pixel_flash_returns (p : strip) (c : color) (on_time off_time : Q) :
  0 <= on_time -> 0 <= off_time ->
  forall w : W, ready p w ->
  exists w', flash c on_time off_time w = (Ok tt, w') /\ ready p w' /\
    trace w' = trace w ++ flash_events c on_time off_time /\
    clock w' == clock w + (on_time + off_time).
Proof.
  intros Hon Hoff w Hr. unfold flash.
  destruct (pixel_set_all_ok c Hr) as (w1 & E1 & R1 & T1 & C1 & _).
  erewrite bind_ok by exact E1.
  erewrite bind_ok by (apply sleep_ok; exact Hon).
  match goal with |- context [bind (_set_all black) _ ?x] => set (w2 := x) end.
  assert (R2 : ready p w2) by exact R1.
  destruct (pixel_set_all_ok black R2) as (w3 & E3 & R3 & T3 & C3 & _).
  erewrite bind_ok by exact E3.
  rewrite sleep_ok by exact Hoff.
  eexists. split; [reflexivity|]. cbn [trace clock faults mem].
  split; [exact R3|]. split.
  - rewrite T3. subst w2. cbn [trace]. rewrite T1. unfold flash_events.
    rewrite <- !app_assoc. reflexivity.
  - rewrite C3. subst w2. cbn [clock]. rewrite C1. ring.
Qed.

Lemma pixel_group_returns (p : strip) (n : Z) (on_time off_time pause : Q) (c : color) :
  0 <= on_time -> 0 <= off_time -> 0 <= pause ->
  forall w : W, ready p w ->
  exists w', group on_time off_time n pause c w = (Ok tt, w') /\ ready p w' /\
    trace w' = trace w ++ cycle_events n on_time off_time pause c /\
    clock w' == clock w + cycle_time n on_time off_time pause.
Proof.
  intros Hon Hoff Hp w Hr. unfold group, for_range.
  destruct (@repeatM_shape _ _ (ready p) _ _ _
              (@pixel_flash_returns p c on_time off_time Hon Hoff) (Z.to_nat n) w Hr)
    as (w1 & E1 & R1 & T1 & C1).
  erewrite bind_ok by exact E1. rewrite sleep_ok by exact Hp.
  eexists. split; [reflexivity|]. cbn [trace clock faults mem].
  split; [exact R1|]. split.
  - rewrite T1. unfold cycle_events. rewrite app_assoc. reflexivity.
  - rewrite cycle_time_count. lra.
Qed.

Lemma pixel_pushes_app (t1 t2 : list (event pixel_op)) :
  pushes (t1 ++ t2) = (pushes t1 + pushes t2)%nat.
Proof. unfold pushes. rewrite filter_app, length_app. reflexivity. Qed.

Lemma pixel_pushes_flashes (c : color) (on_time off_time : Q) (n : nat) :
  pushes (concat (repeat (flash_events c on_time off_time) n)) = (2 * n)%nat.
Proof.
  induction n as [|n IH]; [reflexivity|].
  cbn [repeat]. rewrite concat_cons, pixel_pushes_app, IH.
  unfold pushes. simpl. lia.
Qed.

Lemma pixel_pushes_cycles (n : Z) (on_time off_time pause : Q) (c : color) (k : nat) :
  pushes (concat (repeat (cycle_events n on_time off_time pause c) k))
  = (k * (2 * Z.to_nat n))%nat.
Proof.
  induction k as [|k IH]; [reflexivity|].
  cbn [repeat]. rewrite concat_cons, pixel_pushes_app, IH.
  unfold cycle_events. rewrite pixel_pushes_app, pixel_pushes_flashes.
  unfold pushes. simpl. lia.
Qed.

Lemma pixel_init_fresh (w : W) :
  faults w = [] -> hardware_present w -> _pixels (mem w) = None ->
  exists w1,
    _init_pixels w
    = (Ok (Some (mkStrip (PIXEL_PIN (mem w)) NUM_PIXELS BRIGHTNESS false)), w1) /\
    trace w1 = trace w ++ init_events None (PIXEL_PIN (mem w)) /\
    clock w1 = clock w /\
    faults w1 = [] /\
    hardware_present w1 /\
    _pixels (mem w1) = Some (mkStrip (PIXEL_PIN (mem w)) NUM_PIXELS BRIGHTNESS false) /\
    shown (mem w1) = repeat black (Z.to_nat NUM_PIXELS).
Proof.
  destruct w as [tr ck fs [av bd lib pin px buf sh]]. unfold hardware_present. simpl.
  intros -> (-> & ->) ->.
  eexists. split; [reflexivity|]. simpl.
  rewrite <- !app_assoc. simpl. auto 10.
Qed.

Lemma pixel_init_ok (w : W) :
  faults w = [] -> hardware_present w ->
  exists p w1,
    _init_pixels w = (Ok (Some p), w1) /\
    trace w1 = trace w ++ init_events (_pixels (mem w)) (PIXEL_PIN (mem w)) /\
    clock w1 = clock w /\
    ready p w1.
Proof.
  intros F HP. destruct (_pixels (mem w)) as [p|] eqn:E.
  - exists p, w. rewrite (pixel_init_cached w E). simpl. rewrite app_nil_r. auto.
  - destruct (pixel_init_fresh F HP E) as (w1 & H1 & H2 & H3 & H4 & _ & H6 & _).
    eexists. exists w1. split; [exact H1|]. auto.
Qed.

Lemma pixel_force_off_inv (p : strip) (w : W) r w' :
  _pixels (mem w) = Some p -> force_off w = (r, w') ->
  clock w' = clock w /\
  ((r = Ok tt /\
    trace w' = trace w ++ [Call (Pixels_fill black); Call Pixels_show] /\
    all_black (shown (mem w'))) \/
   (r = Raise HardwareError /\
    trace w' = trace w ++ [Call (Pixels_fill black); Failed Pixels_show]) \/
   (r = Raise HardwareError /\
    trace w' = trace w ++ [Failed (Pixels_fill black)])).
Proof.
  intros HP H. unfold force_off in H. rewrite (pixel_set_all_cached black w HP) in H.
  apply bind_inv in H as [(a & w1 & H1 & H2) | [(e & H1 & ->) | (H1 & ->)]].
  - apply hw_call_inv in H1 as [(_ & T1 & E1 & C1 & _) | (Hr & _)]; [|discriminate].
    apply hw_call_inv in H2 as [(-> & T2 & E2 & C2 & _) | (-> & T2 & E2 & C2 & _)].
    + split; [congruence|]. left. split; [reflexivity|]. split.
      * rewrite T2, T1, <- app_assoc. reflexivity.
      * rewrite E2, E1. destruct (strip_auto_write p); simpl; apply all_black_fill.
    + split; [congruence|]. right. left. split; [reflexivity|].
      rewrite T2, T1, <- app_assoc. reflexivity.
  - apply hw_call_inv in H1 as [(Hr & _) | (Hr & T1 & _ & C1 & _)]; [discriminate|].
    split; [exact C1|]. right. right. auto.
  - apply hw_call_inv in H1 as [(Hr & _) | (Hr & _)]; discriminate.
Qed.

End PixelRuns.

Section PixelAlarm.

Import neopixel_alarm.

Variables (fuel : nat) (duration on_time off_time : Q) (n : Z) (pause : Q) (c : color).

#[local] Abbreviation ready :=
  (fun (p : strip) (w : W) => faults w = [] /\ _pixels (mem w) = Some p).

Lemma pixel_alarm_mock (w : W) :
  NEOPIXEL_AVAILABLE (mem w) = false ->
  alarm_flash fuel duration on_time off_time n pause c w
  = (Ok tt, log (Print mock_notice) w).
Proof. intro H. unfold alarm_flash, bind, read. rewrite H. reflexivity. Qed.

Lemma pixel_alarm_real (w : W) :
  NEOPIXEL_AVAILABLE (mem w) = true ->
  alarm_flash fuel duration on_time off_time n pause c w
  = bind _init_pixels (fun _ =>
      try_finally (pattern fuel (clock w) duration on_time off_time n pause c)
        force_off) w.
Proof. intro H. unfold alarm_flash at 1, bind at 1, read. rewrite H. reflexivity. Qed.

Lemma pixel_alarm_entered (w wi : W) (px : option strip) :
  NEOPIXEL_AVAILABLE (mem w) = true ->
  _init_pixels w = (Ok px, wi) ->
  alarm_flash fuel duration on_time off_time n pause c w
  = try_finally (pattern fuel (clock w) duration on_time off_time n pause c)
      force_off wi.
Proof.
  intros A Hi. rewrite pixel_alarm_real by exact A.
  erewrite bind_ok by exact Hi. reflexivity.
Qed.

(** With the flag set, an initialisation that returns leaves a handle in
    [_pixels]. *)
Lemma pixel_init_returns (w wi : W) (px : option strip) :
  NEOPIXEL_AVAILABLE (mem w) = true ->
  _init_pixels w = (Ok px, wi) ->
  exists p, px = Some p /\ _pixels (mem wi) = Some p.
Proof.
  intros A H. destruct (_pixels (mem w)) as [p|] eqn:E.
  - rewrite (pixel_init_cached w E) in H. inversion H; subst. eauto.
  - destruct w as [tr ck fs [av bd lib pin cached buf sh]]. simpl in A, E. subst av cached.
    unfold _init_pixels, NeoPixel, fill, show, bind, read, modify, hw_call, ret, raise in H.
    simpl in H.
    destruct lib as [[]|]; [|discriminate].
    destruct fs as [|[|] [|[|] [|[|] fs]]]; simpl in H; inversion H; subst; simpl; eauto.
Qed.

(** Once the loop is entered, blacking the strip out is the last thing
    [alarm_flash] does, however the loop ended. *)
Lemma pixel_off_on_exit (w wi : W) (px : option strip) r w' :
  hardware_present w ->
  _init_pixels w = (Ok px, wi) ->
  alarm_flash fuel duration on_time off_time n pause c w = (r, w') ->
  r <> OutOfFuel ->
  exists pre,
    (trace w' = pre ++ [Call (Pixels_fill black); Call Pixels_show] /\
     all_black (shown (mem w'))) \/
    (trace w' = pre ++ [Call (Pixels_fill black); Failed Pixels_show] /\
     r = Raise HardwareError) \/
    (trace w' = pre ++ [Failed (Pixels_fill black)] /\ r = Raise HardwareError).
Proof.
  intros HP Hi H Hr.
  destruct (pixel_init_returns w (proj1 HP) Hi) as (p & _ & Pi).
  rewrite pixel_alarm_entered with (wi := wi) (px := px) in H by (exact Hi || apply HP).
  apply try_finally_inv in H as [(_ & ->) | (r1 & w1 & r2 & H1 & _ & H2 & Hres)];
    [congruence|].
  assert (P1 : _pixels (mem w1) = Some p).
  { eapply (pixel_keeps_pattern (p := p)); [exact Pi | exact H1]. }
  destruct (pixel_force_off_inv w1 P1 H2) as [_ [(-> & T & B) | [(-> & T) | (-> & T)]]];
    exists (trace w1); auto.
Qed.

(** With working hardware and non-negative times, [alarm_flash] is the lazy
    initialisation, whole cycles while the clock is short of the duration,
    and the final blackout. *)
Lemma pixel_alarm_shape (w : W) :
  faults w = [] -> hardware_present w ->
  0 <= on_time -> 0 <= off_time -> 0 <= pause ->
  exists k w',
    (k <= fuel)%nat /\
    clock w' == clock w + inject_Z (Z.of_nat k) * cycle_time n on_time off_time pause /\
    (forall j, (j < k)%nat ->
       inject_Z (Z.of_nat j) * cycle_time n on_time off_time pause < duration) /\
    ((alarm_flash fuel duration on_time off_time n pause c w = (Ok tt, w') /\
      duration <= inject_Z (Z.of_nat k) * cycle_time n on_time off_time pause /\
      trace w' = trace w ++ init_events (_pixels (mem w)) (PIXEL_PIN (mem w))
                 ++ concat (repeat (cycle_events n on_time off_time pause c) k)
                 ++ set_all_events black /\
      all_black (shown (mem w'))) \/
     (alarm_flash fuel duration on_time off_time n pause c w = (OutOfFuel, w') /\
      k = fuel /\
      inject_Z (Z.of_nat k) * cycle_time n on_time off_time pause < duration /\
      trace w' = trace w ++ init_events (_pixels (mem w)) (PIXEL_PIN (mem w))
                 ++ concat (repeat (cycle_events n on_time off_time pause c) k))).
Proof.
  intros F HP Hon Hoff Hp.
  destruct (pixel_init_ok F HP) as (p & wi & Ei & Ti & Ci & Ri).
  destruct (@while_shape _ _ (ready p) _ _ _
              (@pixel_group_returns p n on_time off_time pause c Hon Hoff Hp)
              (clock w) duration fuel wi Ri)
    as (k & w1 & Hk & R1 & T1 & C1 & Hj & Hr).
  rewrite pixel_alarm_entered with (wi := wi) (px := Some p) by (exact Ei || apply HP).
  unfold try_finally, pattern.
  destruct Hr as [(E1 & Hd) | (E1 & -> & Hd)]; rewrite E1; cbv beta iota.
  - unfold force_off.
    destruct (pixel_set_all_ok black R1) as (w2 & E2 & R2 & T2 & C2 & S2).
    rewrite E2. exists k, w2. split; [exact Hk|].
    split; [rewrite C2, C1, Ci; reflexivity|].
    split; [intros j Hlt; specialize (Hj j Hlt); rewrite Ci in Hj; lra|].
    left. split; [reflexivity|]. split; [rewrite Ci in C1; lra|]. split.
    + rewrite T2, T1, Ti, <- !app_assoc. reflexivity.
    + rewrite S2. apply all_black_fill.
  - exists fuel, w1. split; [lia|].
    split; [rewrite C1, Ci; reflexivity|].
    split; [intros j Hlt; specialize (Hj j Hlt); rewrite Ci in Hj; lra|].
    right. split; [reflexivity|]. split; [reflexivity|].
    split; [rewrite Ci in C1; lra|].
    rewrite T1, Ti, <- !app_assoc. reflexivity.
Qed.

(** A non-positive duration: the loop body never runs. *)
Lemma pixel_alarm_zero (w : W) :
  faults w = [] -> hardware_present w -> duration <= 0 ->
  exists w',
    alarm_flash fuel duration on_time off_time n pause c w = (Ok tt, w') /\
    trace w' = trace w ++ init_events (_pixels (mem w)) (PIXEL_PIN (mem w))
               ++ set_all_events black /\
    clock w' = clock w /\
    all_black (shown (mem w')).
Proof.
  intros F HP Hd.
  destruct (pixel_init_ok F HP) as (p & wi & Ei & Ti & Ci & Ri).
  rewrite pixel_alarm_entered with (wi := wi) (px := Some p) by (exact Ei || apply HP).
  unfold try_finally, pattern. rewrite while_stopped by (rewrite Ci; lra).
  cbv beta iota. unfold force_off.
  destruct (pixel_set_all_ok black Ri) as (w2 & E2 & R2 & T2 & C2 & S2).
  rewrite E2. exists w2. split; [reflexivity|]. split.
  - rewrite T2, Ti, <- app_assoc. reflexivity.
  - split; [congruence|]. rewrite S2. apply all_black_fill.
Qed.

Lemma pixel_alarm_within (w : W) r w' :
  0 < duration -> 0 <= on_time -> 0 <= off_time -> 0 <= pause ->
  alarm_flash fuel duration on_time off_time n pause c w = (r, w') ->
  clock w <= clock w' /\
  clock w' - clock w <= duration + cycle_time n on_time off_time pause.
Proof.
  intros Hd Hon Hoff Hp H.
  pose proof (cycle_time_nonneg n Hon Hoff Hp) as Hc.
  destruct (NEOPIXEL_AVAILABLE (mem w)) eqn:A.
  - rewrite pixel_alarm_real in H by exact A.
    apply bind_inv in H as [(a & wi & Hi & H) | [(e & Hi & _) | (Hi & _)]].
    + destruct (pixel_within_init _ Hi) as [Hi1 Hi2].
      apply try_finally_inv in H as [(H1 & _) | (r1 & w1 & r2 & H1 & _ & H2 & _)].
      * destruct (@within_while _ _ _ _ _ _
          (pixel_within_group n c Hon Hoff Hp) Hc _ _ _ _ H1) as [Hw1 Hw2].
        split; [lra|]. assert (clock w' - clock w <= duration
          + cycle_time n on_time off_time pause) by (apply Hw2; lra). lra.
      * destruct (@within_while _ _ _ _ _ _
          (pixel_within_group n c Hon Hoff Hp) Hc _ _ _ _ H1) as [Hw1 Hw2].
        destruct (pixel_within_set_all _ _ H2) as [Hf1 Hf2].
        split; [lra|]. assert (clock w1 - clock w <= duration
          + cycle_time n on_time off_time pause) by (apply Hw2; lra). lra.
    + destruct (pixel_within_init _ Hi) as [Hi1 Hi2]. split; lra.
    + destruct (pixel_within_init _ Hi) as [Hi1 Hi2]. split; lra.
  - rewrite pixel_alarm_mock in H by exact A. inversion H; subst. simpl. split; lra.
Qed.

Lemma pixel_alarm_finishes (w : W) :
  0 < cycle_time n on_time off_time pause ->
  (Z.to_nat (Qceiling (duration / cycle_time n on_time off_time pause)) <= fuel)%nat ->
  fst (alarm_flash fuel duration on_time off_time n pause c w) <> OutOfFuel.
Proof.
  intros Hc Hk.
  destruct (NEOPIXEL_AVAILABLE (mem w)) eqn:A.
  - rewrite pixel_alarm_real by exact A. unfold bind at 1.
    destruct (_init_pixels w) as [[px|e|] wi] eqn:Hi.
    + unfold try_finally.
      destruct (pixel_advances_init _ Hi) as [_ Hci]. specialize (Hci px eq_refl).
      pose proof (@while_finishes _ _ (clock w) duration _ _
        (pixel_advances_group n on_time off_time pause c) Hc fuel wi) as Hf.
      assert (Hb : duration - (clock wi - clock w)
        <= inject_Z (Z.of_nat fuel) * cycle_time n on_time off_time pause).
      { pose proof (ceiling_budget duration Hc Hk). lra. }
      specialize (Hf Hb). unfold pattern.
      destruct (while fuel (running (clock w) duration)
        (group on_time off_time n pause c) wi) as [[[]|e|] w1] eqn:E1.
      * destruct (force_off w1) as [[[]|e|] w2] eqn:E2; simpl; try discriminate.
        destruct (pixel_advances_set_all _ _ E2) as [Hn _]. congruence.
      * destruct (force_off w1) as [[[]|e2|] w2] eqn:E2; simpl; try discriminate.
        destruct (pixel_advances_set_all _ _ E2) as [Hn _]. congruence.
      * simpl in Hf. congruence.
    + simpl. discriminate.
    + destruct (pixel_advances_init _ Hi) as [Hn _]. congruence.
  - rewrite pixel_alarm_mock by exact A. simpl. discriminate.
Qed.

End PixelAlarm.

Section PixelLifecycle.

Import neopixel_alarm.

#[local] Abbreviation ready :=
  (fun (p : strip) (w : W) => faults w = [] /\ _pixels (mem w) = Some p).

(** Mock mode: the flag is clear and no handle was ever cached. *)
#[local] Abbreviation mocked :=
  (fun w : W => NEOPIXEL_AVAILABLE (mem w) = false /\ _pixels (mem w) = None).

Lemma pixel_init_calls_cached (n : nat) (w : W) (p : strip) :
  _pixels (mem w) = Some p -> init_calls n w = (Ok tt, w).
Proof.
  intro H. apply repeatM_idle.
  erewrite bind_ok by (apply pixel_init_cached; exact H). reflexivity.
Qed.

Lemma pixel_cleanup_mock (w : W) :
  mocked w -> cleanup w = (Ok tt, log (Print init_notice) w).
Proof.
  intros [A E]. unfold cleanup.
  erewrite bind_ok by (apply pixel_init_mock; assumption). reflexivity.
Qed.

Lemma repeatM_prints {Op D : Type} (body : M Op D unit) (line : string)
  (I : world Op D -> Prop) :
  (forall w, I w -> body w = (Ok tt, log (Print line) w) /\ I (log (Print line) w)) ->
  forall n w, I w ->
  exists w', repeatM n body w = (Ok tt, w') /\ I w' /\
    trace w' = trace w ++ repeat (Print line) n /\
    clock w' = clock w /\ faults w' = faults w /\ mem w' = mem w.
Proof.
  intros Hb. induction n as [|n IH]; intros w HI.
  - exists w. simpl. rewrite app_nil_r. auto 10.
  - destruct (Hb w HI) as [E1 I1].
    destruct (IH _ I1) as (w2 & E2 & I2 & T2 & C2 & F2 & M2).
    exists w2. simpl repeatM. erewrite bind_ok by exact E1.
    split; [exact E2|]. split; [exact I2|]. split.
    + rewrite T2. simpl. rewrite <- app_assoc. reflexivity.
    + auto.
Qed.

Lemma pixel_cleanup_calls_mock (n : nat) (w : W) :
  mocked w ->
  exists w', cleanup_calls n w = (Ok tt, w') /\
    trace w' = trace w ++ repeat (Print init_notice) n /\
    clock w' = clock w /\ faults w' = faults w /\ mem w' = mem w.
Proof.
  intro Hm.
  destruct (@repeatM_prints _ _ cleanup init_notice mocked
              (fun w H => conj (pixel_cleanup_mock H) H) n w Hm)
    as (w' & E & _ & T); eauto.
Qed.

Lemma pixel_init_calls_mock (n : nat) (w : W) :
  mocked w ->
  exists w', init_calls n w = (Ok tt, w') /\
    trace w' = trace w ++ repeat (Print init_notice) n /\
    clock w' = clock w /\ faults w' = faults w /\ mem w' = mem w.
Proof.
  intro Hm.
  assert (Hb : forall w, mocked w ->
    bind _init_pixels (fun _ => ret tt) w = (Ok tt, log (Print init_notice) w)
    /\ mocked (log (Print init_notice) w)).
  { intros w0 [A E]. split; [|split; assumption].
    erewrite bind_ok by (apply pixel_init_mock; assumption). reflexivity. }
  destruct (@repeatM_prints _ _ _ init_notice mocked Hb n w Hm)
    as (w' & E & _ & T); eauto.
Qed.

Lemma pixel_cleanup_cached (p : strip) (w : W) :
  ready p w ->
  exists w', cleanup w = (Ok tt, w') /\ ready p w' /\
    trace w' = trace w ++ set_all_events black /\
    clock w' = clock w /\
    all_black (shown (mem w')).
Proof.
  intros Hr. unfold cleanup.
  erewrite bind_ok by (apply pixel_init_cached; apply Hr). cbv beta iota.
  destruct (pixel_set_all_ok black Hr) as (w' & E & R & T & C & S).
  exists w'. repeat split; auto; try apply R. rewrite S. apply all_black_fill.
Qed.

Lemma pixel_cleanup_calls_cached (p : strip) (n : nat) (w : W) :
  ready p w ->
  exists w', cleanup_calls n w = (Ok tt, w') /\ ready p w' /\
    trace w' = trace w ++ concat (repeat (set_all_events black) n) /\
    clock w' == clock w.
Proof.
  intro Hr.
  assert (Hb : forall w, ready p w ->
    exists w', cleanup w = (Ok tt, w') /\ ready p w' /\
      trace w' = trace w ++ set_all_events black /\ clock w' == clock w + 0).
  { intros w0 H0. destruct (pixel_cleanup_cached H0) as (w' & E & R & T & C & _).
    exists w'. repeat split; auto; try apply R. rewrite C. ring. }
  destruct (@repeatM_shape _ _ (ready p) _ _ _ Hb n w Hr) as (w' & E & R & T & C).
  exists w'. repeat split; auto; try apply R. rewrite C. ring.
Qed.

(** First [cleanup] of a process with working hardware: it builds the strip
    and then blacks it out again. *)
Lemma pixel_cleanup_fresh (w : W) :
  faults w = [] -> hardware_present w ->
  exists p w', cleanup w = (Ok tt, w') /\ ready p w' /\
    trace w' = trace w ++ init_events (_pixels (mem w)) (PIXEL_PIN (mem w))
               ++ set_all_events black /\
    clock w' = clock w /\
    all_black (shown (mem w')).
Proof.
  intros F HP.
  destruct (pixel_init_ok F HP) as (p & wi & Ei & Ti & Ci & Ri).
  unfold cleanup. erewrite bind_ok by exact Ei. cbv beta iota.
  destruct (pixel_set_all_ok black Ri) as (w' & E & R & T & C & S).
  exists p, w'. split; [exact E|]. split; [exact R|]. split.
  - rewrite T, Ti, <- app_assoc. reflexivity.
  - split; [congruence|]. rewrite S. apply all_black_fill.
Qed.

End PixelLifecycle.

Section PixelCleanupRuns.

Import neopixel_alarm.

#[local] Abbreviation dark :=
  (fun (p : strip) (w : W) =>
     (faults w = [] /\ _pixels (mem w) = Some p) /\ all_black (shown (mem w))).

Lemma pixel_cleanup_calls_dark (p : strip) (n : nat) (w : W) :
  dark p w ->
  exists w', cleanup_calls n w = (Ok tt, w') /\ dark p w' /\
    trace w' = trace w ++ concat (repeat (set_all_events black) n) /\
    clock w' == clock w.
Proof.
  intro Hd.
  assert (Hb : forall w, dark p w ->
    exists w', cleanup w = (Ok tt, w') /\ dark p w' /\
      trace w' = trace w ++ set_all_events black /\ clock w' == clock w + 0).
  { intros w0 [H0 _]. destruct (pixel_cleanup_cached H0) as (w' & E & R & T & C & B).
    exists w'. repeat split; auto; try apply R. rewrite C. ring. }
  destruct (@repeatM_shape _ _ (dark p) _ _ _ Hb n w Hd) as (w' & E & R & T & C).
  exists w'. split; [exact E|]. split; [exact R|]. split; [exact T|]. rewrite C. ring.
Qed.

(** Any number of [cleanup] calls, the first of them possibly the first
    use of the strip. *)
Lemma pixel_cleanup_calls_fresh (n : nat) (w : W) :
  faults w = [] -> hardware_present w ->
  exists w', cleanup_calls (S n) w = (Ok tt, w') /\
    trace w' = trace w ++ init_events (_pixels (mem w)) (PIXEL_PIN (mem w))
               ++ concat (repeat (set_all_events black) (S n)) /\
    clock w' == clock w /\
    all_black (shown (mem w')).
Proof.
  intros F HP.
  destruct (pixel_cleanup_fresh F HP) as (p & w1 & E1 & R1 & T1 & C1 & B1).
  destruct (@pixel_cleanup_calls_dark p n w1 (conj R1 B1)) as (w2 & E2 & D2 & T2 & C2).
  exists w2. unfold cleanup_calls. simpl repeatM. erewrite bind_ok by exact E1.
  split; [exact E2|]. split.
  - rewrite T2, T1. cbn [repeat]. rewrite concat_cons, <- !app_assoc. reflexivity.
  - split; [rewrite C2, C1; reflexivity | apply D2].
Qed.

Lemma pixel_init_calls_fresh (n : nat) (w : W) :
  faults w = [] -> hardware_present w -> _pixels (mem w) = None ->
  exists p w1, init_calls (S n) w = (Ok tt, w1) /\
    trace w1 = trace w ++ init_events None (PIXEL_PIN (mem w)) /\
    _pixels (mem w1) = Some p /\
    _init_pixels w1 = (Ok (Some p), w1).
Proof.
  intros F HP E.
  destruct (pixel_init_fresh F HP E) as (w1 & H1 & H2 & _ & _ & _ & H6 & _).
  eexists. exists w1. unfold init_calls. simpl repeatM.
  erewrite bind_ok by (erewrite bind_ok by exact H1; reflexivity).
  split; [exact (pixel_init_calls_cached n w1 H6)|].
  split; [exact H2|]. split; [exact H6|]. apply pixel_init_cached. exact H6.
Qed.

End PixelCleanupRuns.

Section PiezoInitRuns.

Import piezo_alarm.

Lemma piezo_init_calls_fresh (n : nat) (w : W) :
  faults w = [] -> hardware_present w -> _initialized (mem w) = false ->
  exists w1, init_calls (S n) w = (Ok tt, w1) /\
    trace w1 = trace w ++ init_events false /\
    _initialized (mem w1) = true /\
    _init_gpio w1 = (Ok tt, w1).
Proof.
  intros F [A G] E.
  destruct (@piezo_init_fresh w (conj F (conj A G)) E) as (w1 & H1 & H2 & _ & _ & H5 & _).
  exists w1. unfold init_calls. simpl repeatM. erewrite bind_ok by exact H1.
  split; [exact (piezo_init_calls_done n w1 H5)|].
  split; [exact H2|]. split; [exact H5|]. apply piezo_init_done. exact H5.
Qed.

End PiezoInitRuns.

(** ** The specification's properties *)

Section ForceOffLast.

Import piezo_alarm.

(** Once the loop is entered, [alarm] is the loop followed by one write of
    LOW, and the head of the fault schedule at the end of the loop decides
    how that write goes. *)
Lemma piezo_force_off_last fuel duration n on_time off_time pause (w wi : W) r w' :
  hardware_present w ->
  _init_gpio w = (Ok tt, wi) ->
  alarm fuel duration n on_time off_time pause w = (r, w') ->
  r <> OutOfFuel ->
  exists r1 w1,
    pattern fuel (clock wi) duration n on_time off_time pause wi = (r1, w1) /\
    r1 <> OutOfFuel /\
    ((hd false (faults w1) = false /\ r = r1 /\
      trace w' = trace w1 ++ [Call (GPIO_output PIEZO_PIN LOW)] /\
      pin_level (mem w') = LOW) \/
     (hd false (faults w1) = true /\ r = Raise HardwareError /\
      trace w' = trace w1 ++ [Failed (GPIO_output PIEZO_PIN LOW)] /\
      pin_level (mem w') = pin_level (mem w1))).
Proof.
  intros HP Hi H Hr.
  rewrite piezo_alarm_entered with (wi := wi) in H by (exact Hi || apply HP).
  assert (Pi : hardware_present wi) by (eapply piezo_keeps_init; [exact HP | exact Hi]).
  apply try_finally_inv in H as [(_ & ->) | (r1 & w1 & r2 & H1 & Hn & H2 & Hres)];
    [congruence|].
  assert (P1 : hardware_present w1) by (eapply piezo_keeps_pattern; [exact Pi | exact H1]).
  exists r1, w1. split; [exact H1|]. split; [exact Hn|].
  unfold force_off in H2. rewrite piezo_gpio_real in H2 by apply P1.
  apply hw_call_inv in H2 as [(-> & T & E & _ & _ & F) | (-> & T & E & _ & _ & F)].
  - left. rewrite E. auto.
  - right. rewrite E. auto.
Qed.

End ForceOffLast.

Section BlackoutLast.

Import neopixel_alarm.

(** Once the loop is entered, [alarm_flash] is the loop followed by the
    black fill and the push, and the head of the fault schedule at the end
    of the loop decides how they go. *)
Lemma pixel_force_off_last fuel duration on_time off_time n pause c
  (w wi : W) px r w' :
  hardware_present w ->
  _init_pixels w = (Ok px, wi) ->
  alarm_flash fuel duration on_time off_time n pause c w = (r, w') ->
  r <> OutOfFuel ->
  exists r1 w1,
    pattern fuel (clock w) duration on_time off_time n pause c wi = (r1, w1) /\
    r1 <> OutOfFuel /\
    ((hd false (faults w1) = false /\ hd false (tl (faults w1)) = false /\ r = r1 /\
      trace w' = trace w1 ++ [Call (Pixels_fill black); Call Pixels_show] /\
      all_black (shown (mem w'))) \/
     (hd false (faults w1) = false /\ hd false (tl (faults w1)) = true /\
      r = Raise HardwareError /\
      trace w' = trace w1 ++ [Call (Pixels_fill black); Failed Pixels_show]) \/
     (hd false (faults w1) = true /\ r = Raise HardwareError /\
      trace w' = trace w1 ++ [Failed (Pixels_fill black)] /\
      shown (mem w') = shown (mem w1))).
Proof.
  intros HP Hi H Hr.
  destruct (pixel_init_returns w (proj1 HP) Hi) as (p & _ & Pi).
  rewrite pixel_alarm_entered with (wi := wi) (px := px) in H by (exact Hi || apply HP).
  apply try_finally_inv in H as [(_ & ->) | (r1 & w1 & r2 & H1 & Hn & H2 & Hres)];
    [congruence|].
  assert (P1 : _pixels (mem w1) = Some p).
  { eapply (pixel_keeps_pattern (p := p)); [exact Pi | exact H1]. }
  exists r1, w1. split; [exact H1|]. split; [exact Hn|].
  unfold force_off in H2. rewrite (pixel_set_all_cached black w1 P1) in H2.
  apply bind_inv in H2 as [(a & w2 & Hf & Hs) | [(e & Hf & ->) | (Hf & ->)]].
  - apply hw_call_inv in Hf as [(_ & T1 & E1 & _ & F1 & Hd1) | (Hx & _)]; [|discriminate].
    apply hw_call_inv in Hs as [(-> & T2 & E2 & _ & _ & Hd2) | (-> & T2 & E2 & _ & _ & Hd2)].
    + left. rewrite F1 in Hd2. split; [exact Hd1|]. split; [exact Hd2|].
      split; [exact Hres|]. split.
      * rewrite T2, T1, <- app_assoc. reflexivity.
      * rewrite E2, E1. destruct (strip_auto_write p); simpl; apply all_black_fill.
    + right. left. rewrite F1 in Hd2. split; [exact Hd1|]. split; [exact Hd2|].
      split; [exact Hres|]. rewrite T2, T1, <- app_assoc. reflexivity.
  - apply hw_call_inv in Hf as [(Hx & _) | (Hx & T1 & E1 & _ & _ & Hd1)]; [discriminate|].
    inversion Hx; subst e.
    right. right. split; [exact Hd1|]. split; [exact Hres|]. split; [exact T1|].
    rewrite E1. reflexivity.
  - apply hw_call_inv in Hf as [(Hx & _) | (Hx & _)]; discriminate.
Qed.

End BlackoutLast.

(** C1, as the specification states it, fails when the hardware fails
    twice: a write raises inside the loop with the output active, and the
    force-off write of the [finally] raises as well.  The call has entered
    the loop, ends by letting the failure through, and leaves the pin HIGH;
    the strip is left with its LEDs lit. *)
Lemma off_on_exit_counterexample :
  (let w := piezo_alarm.load true [false; false; false; false; true; true] in
   let x := piezo_alarm.alarm 5 1 3 (15 # 100) (1 # 10) (1 # 2) w in
   piezo_alarm.hardware_present w /\
   fst (piezo_alarm._init_gpio w) = Ok tt /\
   fst x = Raise HardwareError /\
   piezo_alarm.pin_level (mem (snd x)) <> piezo_alarm.LOW) /\
  (let w := neopixel_alarm.load (Some (neopixel_alarm.mkBoard (Some 18%Z)))
              [false; false; false; false; false; true; true] in
   let x := neopixel_alarm.alarm_flash 5 1 (15 # 100) (15 # 100) 3 (1 # 2)
              (255, 0, 0)%Z w in
   neopixel_alarm.hardware_present w /\
   fst x = Raise HardwareError /\
   neopixel_alarm.shown (mem (snd x)) = repeat (255, 0, 0)%Z 8 /\
   ~ neopixel_alarm.all_black (neopixel_alarm.shown (mem (snd x)))).
Proof.
  split.
  - intros w x. split; [split; reflexivity|]. split; [reflexivity|].
    split; [reflexivity|]. vm_compute. discriminate.
  - intros w x. split; [split; reflexivity|]. split; [reflexivity|].
    split; [reflexivity|]. intro B.
    assert (E : neopixel_alarm.shown (mem (snd x)) = repeat (255, 0, 0)%Z 8) by reflexivity.
    rewrite E in B. inversion B as [|c0 l0 Hc Hl]. discriminate Hc.
Qed.

(** C1, amended.  For every parameter tuple, every fault schedule and
    every way the pattern loop ends (the duration expired, or a hardware
    call or a sleep raised inside it), a call of [alarm] / [alarm_flash]
    that has entered the loop and ends is the run of the loop followed by
    the force-off write and nothing else: the piezo pin written LOW; the
    strip filled with black and pushed.  When the hardware lets that write
    through, the pin is LOW, respectively every LED is black, and the call
    returns or raises as the loop did.  When the force-off write itself
    raises, the call ends with that hardware failure; the pin then keeps
    the level the loop left, and the LEDs keep what they displayed when the
    black fill is what raised. *)
Theorem off_on_exit :
  (forall fuel duration n on_time off_time pause (w wi : piezo_alarm.W) r w',
     piezo_alarm.hardware_present w ->
     piezo_alarm._init_gpio w = (Ok tt, wi) ->
     piezo_alarm.alarm fuel duration n on_time off_time pause w = (r, w') ->
     r <> OutOfFuel ->
     exists r1 w1,
       piezo_alarm.pattern fuel (clock wi) duration n on_time off_time pause wi = (r1, w1) /\
       r1 <> OutOfFuel /\
       ((hd false (faults w1) = false /\ r = r1 /\
         trace w' = trace w1
                    ++ [Call (piezo_alarm.GPIO_output piezo_alarm.PIEZO_PIN piezo_alarm.LOW)] /\
         piezo_alarm.pin_level (mem w') = piezo_alarm.LOW) \/
        (hd false (faults w1) = true /\ r = Raise HardwareError /\
         trace w' = trace w1
                    ++ [Failed (piezo_alarm.GPIO_output piezo_alarm.PIEZO_PIN piezo_alarm.LOW)] /\
         piezo_alarm.pin_level (mem w') = piezo_alarm.pin_level (mem w1)))) /\
  (forall fuel duration on_time off_time n pause c (w wi : neopixel_alarm.W) px r w',
     neopixel_alarm.hardware_present w ->
     neopixel_alarm._init_pixels w = (Ok px, wi) ->
     neopixel_alarm.alarm_flash fuel duration on_time off_time n pause c w = (r, w') ->
     r <> OutOfFuel ->
     exists r1 w1,
       neopixel_alarm.pattern fuel (clock w) duration on_time off_time n pause c wi
       = (r1, w1) /\
       r1 <> OutOfFuel /\
       ((hd false (faults w1) = false /\ hd false (tl (faults w1)) = false /\ r = r1 /\
         trace w' = trace w1 ++ [Call (neopixel_alarm.Pixels_fill neopixel_alarm.black);
                                 Call neopixel_alarm.Pixels_show] /\
         neopixel_alarm.all_black (neopixel_alarm.shown (mem w'))) \/
        (hd false (faults w1) = false /\ hd false (tl (faults w1)) = true /\
         r = Raise HardwareError /\
         trace w' = trace w1 ++ [Call (neopixel_alarm.Pixels_fill neopixel_alarm.black);
                                 Failed neopixel_alarm.Pixels_show]) \/
        (hd false (faults w1) = true /\ r = Raise HardwareError /\
         trace w' = trace w1 ++ [Failed (neopixel_alarm.Pixels_fill neopixel_alarm.black)] /\
         neopixel_alarm.shown (mem w') = neopixel_alarm.shown (mem w1)))).
Proof.
  split.
  - intros. eapply piezo_force_off_last; eassumption.
  - intros. eapply pixel_force_off_last; eassumption.
Qed.

(** C2. Mock-mode no-op.  With the availability flag false, [alarm] /
    [alarm_flash] returns for every duration and every loop budget (zero
    included), and the world it leaves is the one it found plus exactly one
    printed line, the mock notice: no hardware call, no sleep, no clock
    movement, no change of the globals. *)
Theorem mock_mode_noop :
  (forall fuel duration n on_time off_time pause (w : piezo_alarm.W),
     piezo_alarm.RPI_AVAILABLE (mem w) = false ->
     piezo_alarm.alarm fuel duration n on_time off_time pause w
     = (Ok tt, mkWorld (trace w ++ [Print piezo_alarm.mock_notice])
                 (clock w) (faults w) (mem w))) /\
  (forall fuel duration on_time off_time n pause c (w : neopixel_alarm.W),
     neopixel_alarm.NEOPIXEL_AVAILABLE (mem w) = false ->
     neopixel_alarm.alarm_flash fuel duration on_time off_time n pause c w
     = (Ok tt, mkWorld (trace w ++ [Print neopixel_alarm.mock_notice])
                 (clock w) (faults w) (mem w))).
Proof.
  split.
  - intros. apply piezo_alarm_mock. assumption.
  - intros. apply pixel_alarm_mock. assumption.
Qed.

(** A run in which the second write of the first beep raises: the fifth
    hardware call of a fresh process; and the same for the strip, where the
    push of the first flash raises.  No further fault is scheduled, so the
    force-off write goes through. *)
Lemma off_on_exit_witness :
  (let w := piezo_alarm.load true [false; false; false; false; true] in
   let wi := snd (piezo_alarm._init_gpio w) in
   let x := piezo_alarm.alarm 5 1 3 (15 # 100) (1 # 10) (1 # 2) w in
   fst x = Raise HardwareError /\
   piezo_alarm.pin_level (mem (snd x)) = piezo_alarm.LOW /\
   exists r1 w1,
     piezo_alarm.pattern 5 (clock wi) 1 3 (15 # 100) (1 # 10) (1 # 2) wi = (r1, w1) /\
     r1 <> OutOfFuel /\
     ((hd false (faults w1) = false /\ fst x = r1 /\
       trace (snd x) = trace w1
                  ++ [Call (piezo_alarm.GPIO_output piezo_alarm.PIEZO_PIN piezo_alarm.LOW)] /\
       piezo_alarm.pin_level (mem (snd x)) = piezo_alarm.LOW) \/
      (hd false (faults w1) = true /\ fst x = Raise HardwareError /\
       trace (snd x) = trace w1
                  ++ [Failed (piezo_alarm.GPIO_output piezo_alarm.PIEZO_PIN piezo_alarm.LOW)] /\
       piezo_alarm.pin_level (mem (snd x)) = piezo_alarm.pin_level (mem w1)))) /\
  (let w := neopixel_alarm.load (Some (neopixel_alarm.mkBoard (Some 18%Z)))
              [false; false; false; false; true] in
   let wi := snd (neopixel_alarm._init_pixels w) in
   let x := neopixel_alarm.alarm_flash 5 1 (15 # 100) (15 # 100) 3 (1 # 2)
              (255, 0, 0)%Z w in
   fst x = Raise HardwareError /\
   exists r1 w1,
     neopixel_alarm.pattern 5 (clock w) 1 (15 # 100) (15 # 100) 3 (1 # 2) (255, 0, 0)%Z wi
     = (r1, w1) /\
     r1 <> OutOfFuel /\
     ((hd false (faults w1) = false /\ hd false (tl (faults w1)) = false /\ fst x = r1 /\
       trace (snd x) = trace w1 ++ [Call (neopixel_alarm.Pixels_fill neopixel_alarm.black);
                                    Call neopixel_alarm.Pixels_show] /\
       neopixel_alarm.all_black (neopixel_alarm.shown (mem (snd x)))) \/
      (hd false (faults w1) = false /\ hd false (tl (faults w1)) = true /\
       fst x = Raise HardwareError /\
       trace (snd x) = trace w1 ++ [Call (neopixel_alarm.Pixels_fill neopixel_alarm.black);
                                    Failed neopixel_alarm.Pixels_show]) \/
      (hd false (faults w1) = true /\ fst x = Raise HardwareError /\
       trace (snd x) = trace w1
                  ++ [Failed (neopixel_alarm.Pixels_fill neopixel_alarm.black)] /\
       neopixel_alarm.shown (mem (snd x)) = neopixel_alarm.shown (mem w1)))).
Proof.
  split.
  - intros w wi x. split; [reflexivity|]. split; [reflexivity|].
    refine (proj1 off_on_exit 5%nat 1 3%Z (15 # 100) (1 # 10) (1 # 2)
              w wi (fst x) (snd x) _ _ _ _).
    + split; reflexivity.
    + reflexivity.
    + reflexivity.
    + vm_compute. discriminate.
  - intros w wi x. split; [reflexivity|].
    refine (proj2 off_on_exit 5%nat 1 (15 # 100) (15 # 100) 3%Z (1 # 2) (255, 0, 0)%Z
              w wi (Some (neopixel_alarm.mkStrip (Some 18%Z) 8 (4 # 10) false))
              (fst x) (snd x) _ _ _ _).
    + split; reflexivity.
    + reflexivity.
    + reflexivity.
    + vm_compute. discriminate.
Defined.

Lemma mock_mode_noop_witness :
  piezo_alarm.alarm 0 5 3 (15 # 100) (1 # 10) (1 # 2) (piezo_alarm.load false [])
  = (Ok tt, mkWorld [Print piezo_alarm.mock_notice] 0 [] (piezo_alarm.load_state false)) /\
  neopixel_alarm.alarm_flash 0 5 (15 # 100) (15 # 100) 3 (1 # 2) (255, 0, 0)%Z
    (neopixel_alarm.load None [])
  = (Ok tt, mkWorld [Print neopixel_alarm.mock_notice] 0 []
              (neopixel_alarm.load_state None)).
Proof.
  split.
  - apply (proj1 mock_mode_noop 0%nat 5 3%Z (15 # 100) (1 # 10) (1 # 2)
             (piezo_alarm.load false [])).
    reflexivity.
  - apply (proj2 mock_mode_noop 0%nat 5 (15 # 100) (15 # 100) 3%Z (1 # 2) (255, 0, 0)%Z
             (neopixel_alarm.load None [])).
    reflexivity.
Defined.

(** C3, as the specification states it, fails for the strip driver: its
    [cleanup] is not a no-op, neither in mock mode (it prints the notice of
    [_init_pixels]) nor before the first initialisation with hardware
    present (it builds the strip and writes to it). *)
Lemma cleanup_noop_counterexample :
  let mock := neopixel_alarm.load None [] in
  let fresh := neopixel_alarm.load (Some (neopixel_alarm.mkBoard (Some 18%Z))) [] in
  trace (snd (neopixel_alarm.cleanup mock)) <> trace mock /\
  trace (snd (neopixel_alarm.cleanup fresh)) <> trace fresh.
Proof. split; vm_compute; discriminate. Qed.

(** C3, amended.  Piezo driver: in mock mode or before the first
    initialisation, any number of [cleanup] calls in a row return without
    raising and leave the world exactly as it was, so a freshly loaded module
    keeps its pin LOW.  Strip driver: in mock mode every [cleanup] returns
    and touches no hardware but prints one notice line; with hardware
    present and not failing, one or more [cleanup] calls return, the first
    one building the strip if no handle is cached, each one filling black and
    pushing, and the LEDs are black afterwards. *)
Theorem cleanup_safety :
  (forall (k : nat) (w : piezo_alarm.W),
     piezo_alarm.RPI_AVAILABLE (mem w) = false \/ piezo_alarm._initialized (mem w) = false ->
     piezo_alarm.cleanup_calls k w = (Ok tt, w)) /\
  (forall (k : nat) import_ok fs,
     piezo_alarm.cleanup_calls k (piezo_alarm.load import_ok fs)
     = (Ok tt, piezo_alarm.load import_ok fs) /\
     piezo_alarm.pin_level (mem (piezo_alarm.load import_ok fs)) = piezo_alarm.LOW) /\
  (forall (k : nat) (w : neopixel_alarm.W),
     neopixel_alarm.NEOPIXEL_AVAILABLE (mem w) = false ->
     neopixel_alarm._pixels (mem w) = None ->
     exists w',
       neopixel_alarm.cleanup_calls k w = (Ok tt, w') /\
       trace w' = trace w ++ repeat (Print neopixel_alarm.init_notice) k /\
       clock w' = clock w /\ faults w' = faults w /\ mem w' = mem w) /\
  (forall (k : nat) (w : neopixel_alarm.W),
     faults w = [] ->
     neopixel_alarm.hardware_present w ->
     exists w',
       neopixel_alarm.cleanup_calls (S k) w = (Ok tt, w') /\
       trace w' = trace w
                  ++ neopixel_alarm.init_events (neopixel_alarm._pixels (mem w))
                       (neopixel_alarm.PIXEL_PIN (mem w))
                  ++ concat (repeat (neopixel_alarm.set_all_events neopixel_alarm.black) (S k)) /\
       clock w' == clock w /\
       neopixel_alarm.all_black (neopixel_alarm.shown (mem w'))).
Proof.
  split; [|split; [|split]].
  - intros. apply piezo_cleanup_calls_idle. assumption.
  - intros. split; [|reflexivity].
    apply piezo_cleanup_calls_idle. right. reflexivity.
  - intros. apply pixel_cleanup_calls_mock. split; assumption.
  - intros. apply pixel_cleanup_calls_fresh; assumption.
Qed.

Lemma cleanup_safety_witness :
  piezo_alarm.cleanup_calls 3 (piezo_alarm.load true []) = (Ok tt, piezo_alarm.load true []) /\
  (exists w',
     neopixel_alarm.cleanup_calls 2 (neopixel_alarm.load None []) = (Ok tt, w') /\
     trace w' = trace (neopixel_alarm.load None [])
                ++ repeat (Print neopixel_alarm.init_notice) 2 /\
     clock w' = clock (neopixel_alarm.load None []) /\
     faults w' = faults (neopixel_alarm.load None []) /\
     mem w' = mem (neopixel_alarm.load None [])) /\
  (let w := neopixel_alarm.load (Some (neopixel_alarm.mkBoard (Some 18%Z))) [] in
   exists w',
     neopixel_alarm.cleanup_calls 2 w = (Ok tt, w') /\
     trace w' = trace w
                ++ neopixel_alarm.init_events (neopixel_alarm._pixels (mem w))
                     (neopixel_alarm.PIXEL_PIN (mem w))
                ++ concat (repeat (neopixel_alarm.set_all_events neopixel_alarm.black) 2) /\
     clock w' == clock w /\
     neopixel_alarm.all_black (neopixel_alarm.shown (mem w'))).
Proof.
  split; [|split].
  - apply (proj1 cleanup_safety 3%nat (piezo_alarm.load true [])).
    right. reflexivity.
  - apply (proj1 (proj2 (proj2 cleanup_safety)) 2%nat (neopixel_alarm.load None []));
      reflexivity.
  - apply (proj2 (proj2 (proj2 cleanup_safety)) 1%nat
             (neopixel_alarm.load (Some (neopixel_alarm.mkBoard (Some 18%Z))) [])).
    + reflexivity.
    + split; reflexivity.
Defined.

(** C4. Idempotent lazy initialisation, on hardware that does not fail.
    Piezo: one or more [_init_gpio] calls in a row on an uninitialised driver
    send exactly [setmode(BCM)], [setup(pin, OUT)], [output(pin, LOW)], once,
    and set the flag; from then on [_init_gpio] returns at once and changes
    nothing.  In mock mode any number of calls change nothing.  Strip: one
    or more [_init_pixels] calls on a driver without handle send exactly the
    construction, the black fill and the push, once, and cache the handle;
    from then on [_init_pixels] returns the cached handle and changes
    nothing.  In mock mode [_init_pixels] touches no hardware, returns no
    handle and only prints its notice. *)
Theorem idempotent_init :
  (forall (k : nat) (w : piezo_alarm.W),
     faults w = [] -> piezo_alarm.hardware_present w ->
     piezo_alarm._initialized (mem w) = false ->
     exists w1,
       piezo_alarm.init_calls (S k) w = (Ok tt, w1) /\
       trace w1 = trace w
                  ++ [Call (piezo_alarm.GPIO_setmode piezo_alarm.BCM);
                      Call (piezo_alarm.GPIO_setup piezo_alarm.PIEZO_PIN piezo_alarm.OUT);
                      Call (piezo_alarm.GPIO_output piezo_alarm.PIEZO_PIN piezo_alarm.LOW)] /\
       piezo_alarm._initialized (mem w1) = true /\
       piezo_alarm._init_gpio w1 = (Ok tt, w1)) /\
  (forall (w : piezo_alarm.W),
     piezo_alarm._initialized (mem w) = true -> piezo_alarm._init_gpio w = (Ok tt, w)) /\
  (forall (k : nat) (w : piezo_alarm.W),
     piezo_alarm.RPI_AVAILABLE (mem w) = false ->
     piezo_alarm.init_calls k w = (Ok tt, w)) /\
  (forall (k : nat) (w : neopixel_alarm.W),
     faults w = [] -> neopixel_alarm.hardware_present w ->
     neopixel_alarm._pixels (mem w) = None ->
     exists p w1,
       neopixel_alarm.init_calls (S k) w = (Ok tt, w1) /\
       trace w1 = trace w
                  ++ [Call (neopixel_alarm.NeoPixel_new (neopixel_alarm.PIXEL_PIN (mem w))
                              neopixel_alarm.NUM_PIXELS neopixel_alarm.BRIGHTNESS false);
                      Call (neopixel_alarm.Pixels_fill neopixel_alarm.black);
                      Call neopixel_alarm.Pixels_show] /\
       neopixel_alarm._pixels (mem w1) = Some p /\
       neopixel_alarm._init_pixels w1 = (Ok (Some p), w1)) /\
  (forall (w : neopixel_alarm.W) p,
     neopixel_alarm._pixels (mem w) = Some p ->
     neopixel_alarm._init_pixels w = (Ok (Some p), w)) /\
  (forall (w : neopixel_alarm.W),
     neopixel_alarm.NEOPIXEL_AVAILABLE (mem w) = false ->
     neopixel_alarm._pixels (mem w) = None ->
     neopixel_alarm._init_pixels w
     = (Ok None, mkWorld (trace w ++ [Print neopixel_alarm.init_notice])
                   (clock w) (faults w) (mem w))).
Proof.
  repeat split.
  - intros. apply piezo_init_calls_fresh; assumption.
  - intros. apply piezo_init_done. assumption.
  - intros. apply piezo_init_calls_mock. assumption.
  - intros. apply pixel_init_calls_fresh; assumption.
  - intros. apply pixel_init_cached. assumption.
  - intros. apply pixel_init_mock; assumption.
Qed.

Lemma idempotent_init_witness :
  (exists w1,
     piezo_alarm.init_calls 3 (piezo_alarm.load true []) = (Ok tt, w1) /\
     trace w1 = trace (piezo_alarm.load true [])
                ++ [Call (piezo_alarm.GPIO_setmode piezo_alarm.BCM);
                    Call (piezo_alarm.GPIO_setup piezo_alarm.PIEZO_PIN piezo_alarm.OUT);
                    Call (piezo_alarm.GPIO_output piezo_alarm.PIEZO_PIN piezo_alarm.LOW)] /\
     piezo_alarm._initialized (mem w1) = true /\
     piezo_alarm._init_gpio w1 = (Ok tt, w1)) /\
  piezo_alarm.init_calls 3 (piezo_alarm.load false []) = (Ok tt, piezo_alarm.load false []) /\
  (let w := neopixel_alarm.load (Some (neopixel_alarm.mkBoard (Some 18%Z))) [] in
   exists p w1,
     neopixel_alarm.init_calls 3 w = (Ok tt, w1) /\
     trace w1 = trace w
                ++ [Call (neopixel_alarm.NeoPixel_new (neopixel_alarm.PIXEL_PIN (mem w))
                            neopixel_alarm.NUM_PIXELS neopixel_alarm.BRIGHTNESS false);
                    Call (neopixel_alarm.Pixels_fill neopixel_alarm.black);
                    Call neopixel_alarm.Pixels_show] /\
     neopixel_alarm._pixels (mem w1) = Some p /\
     neopixel_alarm._init_pixels w1 = (Ok (Some p), w1)) /\
  neopixel_alarm._init_pixels (neopixel_alarm.load None [])
  = (Ok None, mkWorld [Print neopixel_alarm.init_notice] 0 []
                (neopixel_alarm.load_state None)).
Proof.
  split; [|split; [|split]].
  - apply (proj1 idempotent_init 2%nat (piezo_alarm.load true [])).
    + reflexivity.
    + split; reflexivity.
    + reflexivity.
  - apply (proj1 (proj2 (proj2 idempotent_init)) 3%nat (piezo_alarm.load false [])).
    reflexivity.
  - apply (proj1 (proj2 (proj2 (proj2 idempotent_init))) 2%nat
             (neopixel_alarm.load (Some (neopixel_alarm.mkBoard (Some 18%Z))) [])).
    + reflexivity.
    + split; reflexivity.
    + reflexivity.
  - apply (proj2 (proj2 (proj2 (proj2 (proj2 idempotent_init))))
             (neopixel_alarm.load None [])); reflexivity.
Defined.

Lemma toggles_multiple (n : Z) (k : nat) :
  (2 * n | Z.of_nat (k * (2 * Z.to_nat n)))%Z.
Proof.
  destruct (Z.le_gt_cases 0 n) as [H|H].
  - exists (Z.of_nat k). lia.
  - exists 0%Z. replace (Z.to_nat n) with 0%nat by lia. lia.
Qed.

(** C5. Pattern shape.  With hardware present and not failing and
    non-negative times, a run of [alarm] / [alarm_flash] is: the lazy
    initialisation; then [k] whole cycles, each being N times (output
    ACTIVE, sleep Ton, output INACTIVE, sleep Toff) followed by one sleep of
    Tpause; then the force-off write.  Every one of the [k] cycles started
    with the elapsed time below D, and the run ends with the elapsed time
    [k] cycle times, at least D.  The only other possibility is that the
    loop budget [fuel] was used up, with [fuel] whole cycles done and the
    elapsed time still below D.  The number of toggle writes of the cycles
    (level writes; pushes to the strip) is a multiple of 2N. *)
Theorem pattern_shape :
  (forall fuel duration n on_time off_time pause (w : piezo_alarm.W),
     faults w = [] -> piezo_alarm.hardware_present w ->
     0 <= on_time -> 0 <= off_time -> 0 <= pause ->
     exists k w',
       (k <= fuel)%nat /\
       clock w' == clock w + inject_Z (Z.of_nat k) * cycle_time n on_time off_time pause /\
       (forall j, (j < k)%nat ->
          inject_Z (Z.of_nat j) * cycle_time n on_time off_time pause < duration) /\
       (2 * n | Z.of_nat (piezo_alarm.writes
          (concat (repeat (piezo_alarm.cycle_events n on_time off_time pause) k))))%Z /\
       ((piezo_alarm.alarm fuel duration n on_time off_time pause w = (Ok tt, w') /\
         duration <= inject_Z (Z.of_nat k) * cycle_time n on_time off_time pause /\
         trace w' = trace w
                    ++ piezo_alarm.init_events (piezo_alarm._initialized (mem w))
                    ++ concat (repeat (piezo_alarm.cycle_events n on_time off_time pause) k)
                    ++ [Call (piezo_alarm.GPIO_output piezo_alarm.PIEZO_PIN piezo_alarm.LOW)]) \/
        (piezo_alarm.alarm fuel duration n on_time off_time pause w = (OutOfFuel, w') /\
         k = fuel /\
         inject_Z (Z.of_nat k) * cycle_time n on_time off_time pause < duration /\
         trace w' = trace w
                    ++ piezo_alarm.init_events (piezo_alarm._initialized (mem w))
                    ++ concat (repeat (piezo_alarm.cycle_events n on_time off_time pause) k)))) /\
  (forall fuel duration on_time off_time n pause c (w : neopixel_alarm.W),
     faults w = [] -> neopixel_alarm.hardware_present w ->
     0 <= on_time -> 0 <= off_time -> 0 <= pause ->
     exists k w',
       (k <= fuel)%nat /\
       clock w' == clock w + inject_Z (Z.of_nat k) * cycle_time n on_time off_time pause /\
       (forall j, (j < k)%nat ->
          inject_Z (Z.of_nat j) * cycle_time n on_time off_time pause < duration) /\
       (2 * n | Z.of_nat (neopixel_alarm.pushes
          (concat (repeat (neopixel_alarm.cycle_events n on_time off_time pause c) k))))%Z /\
       ((neopixel_alarm.alarm_flash fuel duration on_time off_time n pause c w = (Ok tt, w') /\
         duration <= inject_Z (Z.of_nat k) * cycle_time n on_time off_time pause /\
         trace w' = trace w
                    ++ neopixel_alarm.init_events (neopixel_alarm._pixels (mem w))
                         (neopixel_alarm.PIXEL_PIN (mem w))
                    ++ concat (repeat (neopixel_alarm.cycle_events n on_time off_time pause c) k)
                    ++ neopixel_alarm.set_all_events neopixel_alarm.black /\
         neopixel_alarm.all_black (neopixel_alarm.shown (mem w'))) \/
        (neopixel_alarm.alarm_flash fuel duration on_time off_time n pause c w
         = (OutOfFuel, w') /\
         k = fuel /\
         inject_Z (Z.of_nat k) * cycle_time n on_time off_time pause < duration /\
         trace w' = trace w
                    ++ neopixel_alarm.init_events (neopixel_alarm._pixels (mem w))
                         (neopixel_alarm.PIXEL_PIN (mem w))
                    ++ concat (repeat (neopixel_alarm.cycle_events n on_time off_time pause c) k)))).
Proof.
  split.
  - intros fuel duration n on_time off_time pause w F [A G] Hon Hoff Hp.
    destruct (@piezo_alarm_shape fuel duration n on_time off_time pause w
                (conj F (conj A G)) Hon Hoff Hp) as (k & w' & Hk & C & Hj & Hr).
    exists k, w'. split; [exact Hk|]. split; [exact C|]. split; [exact Hj|].
    split; [|exact Hr]. rewrite piezo_writes_cycles. apply toggles_multiple.
  - intros fuel duration on_time off_time n pause c w F HP Hon Hoff Hp.
    destruct (@pixel_alarm_shape fuel duration on_time off_time n pause c w
                F HP Hon Hoff Hp) as (k & w' & Hk & C & Hj & Hr).
    exists k, w'. split; [exact Hk|]. split; [exact C|]. split; [exact Hj|].
    split; [|exact Hr]. rewrite pixel_pushes_cycles. apply toggles_multiple.
Qed.

(** The specification's example: D = 1.0, N = 3, Ton = 0.15, Toff = 0.1,
    Tpause = 0.5 on a fresh piezo driver, and the default flash pattern on a
    fresh strip. *)
Lemma pattern_shape_witness :
  (let w := piezo_alarm.load true [] in
   let cyc := piezo_alarm.cycle_events 3 (15 # 100) (1 # 10) (1 # 2) in
   let c := cycle_time 3 (15 # 100) (1 # 10) (1 # 2) in
   exists k w',
     (k <= 5)%nat /\
     clock w' == clock w + inject_Z (Z.of_nat k) * c /\
     (forall j, (j < k)%nat -> inject_Z (Z.of_nat j) * c < 1) /\
     (2 * 3 | Z.of_nat (piezo_alarm.writes (concat (repeat cyc k))))%Z /\
     ((piezo_alarm.alarm 5 1 3 (15 # 100) (1 # 10) (1 # 2) w = (Ok tt, w') /\
       1 <= inject_Z (Z.of_nat k) * c /\
       trace w' = trace w
                  ++ piezo_alarm.init_events (piezo_alarm._initialized (mem w))
                  ++ concat (repeat cyc k)
                  ++ [Call (piezo_alarm.GPIO_output piezo_alarm.PIEZO_PIN piezo_alarm.LOW)]) \/
      (piezo_alarm.alarm 5 1 3 (15 # 100) (1 # 10) (1 # 2) w = (OutOfFuel, w') /\
       k = 5%nat /\
       inject_Z (Z.of_nat k) * c < 1 /\
       trace w' = trace w
                  ++ piezo_alarm.init_events (piezo_alarm._initialized (mem w))
                  ++ concat (repeat cyc k)))) /\
  (let w := neopixel_alarm.load (Some (neopixel_alarm.mkBoard (Some 18%Z))) [] in
   let red := (255, 0, 0)%Z in
   let cyc := neopixel_alarm.cycle_events 3 (15 # 100) (15 # 100) (1 # 2) red in
   let c := cycle_time 3 (15 # 100) (15 # 100) (1 # 2) in
   exists k w',
     (k <= 5)%nat /\
     clock w' == clock w + inject_Z (Z.of_nat k) * c /\
     (forall j, (j < k)%nat -> inject_Z (Z.of_nat j) * c < 1) /\
     (2 * 3 | Z.of_nat (neopixel_alarm.pushes (concat (repeat cyc k))))%Z /\
     ((neopixel_alarm.alarm_flash 5 1 (15 # 100) (15 # 100) 3 (1 # 2) red w = (Ok tt, w') /\
       1 <= inject_Z (Z.of_nat k) * c /\
       trace w' = trace w
                  ++ neopixel_alarm.init_events (neopixel_alarm._pixels (mem w))
                       (neopixel_alarm.PIXEL_PIN (mem w))
                  ++ concat (repeat cyc k)
                  ++ neopixel_alarm.set_all_events neopixel_alarm.black /\
       neopixel_alarm.all_black (neopixel_alarm.shown (mem w'))) \/
      (neopixel_alarm.alarm_flash 5 1 (15 # 100) (15 # 100) 3 (1 # 2) red w
       = (OutOfFuel, w') /\
       k = 5%nat /\
       inject_Z (Z.of_nat k) * c < 1 /\
       trace w' = trace w
                  ++ neopixel_alarm.init_events (neopixel_alarm._pixels (mem w))
                       (neopixel_alarm.PIXEL_PIN (mem w))
                  ++ concat (repeat cyc k)))).
Proof.
  split.
  - apply (proj1 pattern_shape 5%nat 1 3%Z (15 # 100) (1 # 10) (1 # 2)
             (piezo_alarm.load true [])).
    + reflexivity.
    + split; reflexivity.
    + vm_compute; discriminate.
    + vm_compute; discriminate.
    + vm_compute; discriminate.
  - apply (proj2 pattern_shape 5%nat 1 (15 # 100) (15 # 100) 3%Z (1 # 2) (255, 0, 0)%Z
             (neopixel_alarm.load (Some (neopixel_alarm.mkBoard (Some 18%Z))) [])).
    + reflexivity.
    + split; reflexivity.
    + vm_compute; discriminate.
    + vm_compute; discriminate.
    + vm_compute; discriminate.
Defined.

(** C6. Duration overshoot bound.  Time being the sum of the sleeps
    executed, for every D > 0 and non-negative Ton, Toff and Tpause, however
    a call of [alarm] / [alarm_flash] ends (it returns, it raises, or it is
    cut when the loop budget runs out) and whatever the hardware does, the
    clock has not gone back and the call has blocked for at most D plus one
    cycle time, N*(Ton+Toff) + Tpause with N counted as [range] counts it. *)
Theorem overshoot_bound :
  (forall fuel duration n on_time off_time pause (w : piezo_alarm.W) r w',
     0 < duration -> 0 <= on_time -> 0 <= off_time -> 0 <= pause ->
     piezo_alarm.alarm fuel duration n on_time off_time pause w = (r, w') ->
     clock w <= clock w' /\
     clock w' - clock w <= duration + cycle_time n on_time off_time pause) /\
  (forall fuel duration on_time off_time n pause c (w : neopixel_alarm.W) r w',
     0 < duration -> 0 <= on_time -> 0 <= off_time -> 0 <= pause ->
     neopixel_alarm.alarm_flash fuel duration on_time off_time n pause c w = (r, w') ->
     clock w <= clock w' /\
     clock w' - clock w <= duration + cycle_time n on_time off_time pause).
Proof.
  split.
  - intros. eapply piezo_alarm_within; eassumption.
  - intros. eapply pixel_alarm_within; eassumption.
Qed.

Lemma overshoot_bound_witness :
  (let w := piezo_alarm.load true [] in
   let r := piezo_alarm.alarm 5 1 3 (15 # 100) (1 # 10) (1 # 2) w in
   clock w <= clock (snd r) /\
   clock (snd r) - clock w <= 1 + cycle_time 3 (15 # 100) (1 # 10) (1 # 2)) /\
  (let w := neopixel_alarm.load (Some (neopixel_alarm.mkBoard (Some 18%Z))) [] in
   let r := neopixel_alarm.alarm_flash 5 1 (15 # 100) (15 # 100) 3 (1 # 2) (255, 0, 0)%Z w in
   clock w <= clock (snd r) /\
   clock (snd r) - clock w <= 1 + cycle_time 3 (15 # 100) (15 # 100) (1 # 2)).
Proof.
  split.
  - intros w r.
    refine (proj1 overshoot_bound 5%nat 1 3%Z (15 # 100) (1 # 10) (1 # 2)
             w (fst r) (snd r) _ _ _ _ _).
    + reflexivity.
    + vm_compute; discriminate.
    + vm_compute; discriminate.
    + vm_compute; discriminate.
    + apply surjective_pairing.
  - intros w r.
    refine (proj2 overshoot_bound 5%nat 1 (15 # 100) (15 # 100) 3%Z (1 # 2) (255, 0, 0)%Z
             w (fst r) (snd r) _ _ _ _ _).
    + reflexivity.
    + vm_compute; discriminate.
    + vm_compute; discriminate.
    + vm_compute; discriminate.
    + apply surjective_pairing.
Defined.

(** C8. Piezo cleanup releases and re-arms.  With hardware present and not
    failing and the driver initialised, [cleanup] writes the pin LOW,
    releases it through [GPIO.cleanup] and clears the flag; the next
    [_init_gpio] then configures the pin again in full. *)
Theorem piezo_cleanup_rearms :
  forall w : piezo_alarm.W,
    faults w = [] -> piezo_alarm.hardware_present w ->
    piezo_alarm._initialized (mem w) = true ->
    exists w1 w2,
      piezo_alarm.cleanup w = (Ok tt, w1) /\
      trace w1 = trace w
                 ++ [Call (piezo_alarm.GPIO_output piezo_alarm.PIEZO_PIN piezo_alarm.LOW);
                     Call (piezo_alarm.GPIO_cleanup piezo_alarm.PIEZO_PIN)] /\
      piezo_alarm._initialized (mem w1) = false /\
      piezo_alarm.pin_level (mem w1) = piezo_alarm.LOW /\
      piezo_alarm.pin_direction (mem w1) = None /\
      piezo_alarm._init_gpio w1 = (Ok tt, w2) /\
      trace w2 = trace w1
                 ++ [Call (piezo_alarm.GPIO_setmode piezo_alarm.BCM);
                     Call (piezo_alarm.GPIO_setup piezo_alarm.PIEZO_PIN piezo_alarm.OUT);
                     Call (piezo_alarm.GPIO_output piezo_alarm.PIEZO_PIN piezo_alarm.LOW)] /\
      piezo_alarm._initialized (mem w2) = true.
Proof.
  intros w F [A G] I.
  destruct (@piezo_cleanup_release w (conj F (conj A G)) I)
    as (w1 & E1 & T1 & _ & S1 & I1 & D1 & L1).
  destruct (@piezo_init_fresh w1 S1 I1) as (w2 & E2 & T2 & _ & _ & I2 & _).
  exists w1, w2. auto 10.
Qed.

Lemma piezo_cleanup_rearms_witness :
  let w := snd (piezo_alarm._init_gpio (piezo_alarm.load true [])) in
  exists w1 w2,
    piezo_alarm.cleanup w = (Ok tt, w1) /\
    trace w1 = trace w
               ++ [Call (piezo_alarm.GPIO_output piezo_alarm.PIEZO_PIN piezo_alarm.LOW);
                   Call (piezo_alarm.GPIO_cleanup piezo_alarm.PIEZO_PIN)] /\
    piezo_alarm._initialized (mem w1) = false /\
    piezo_alarm.pin_level (mem w1) = piezo_alarm.LOW /\
    piezo_alarm.pin_direction (mem w1) = None /\
    piezo_alarm._init_gpio w1 = (Ok tt, w2) /\
    trace w2 = trace w1
               ++ [Call (piezo_alarm.GPIO_setmode piezo_alarm.BCM);
                   Call (piezo_alarm.GPIO_setup piezo_alarm.PIEZO_PIN piezo_alarm.OUT);
                   Call (piezo_alarm.GPIO_output piezo_alarm.PIEZO_PIN piezo_alarm.LOW)] /\
    piezo_alarm._initialized (mem w2) = true.
Proof.
  intro w.
  refine (@piezo_cleanup_rearms w _ _ _).
  - reflexivity.
  - split; reflexivity.
  - reflexivity.
Defined.

(** C9. Non-positive duration.  With hardware present and not failing, for
    every duration <= 0 and every loop budget the pattern loop is left at its
    first test (it returns at once and changes nothing), so a call of
    [alarm] / [alarm_flash] consists of the lazy initialisation followed by
    exactly one force-off write (one LOW write; one black fill and push):
    no ACTIVE write, no sleep, the clock unmoved.  [alarm_flash] still
    builds the strip when no handle is cached. *)
Theorem nonpositive_duration :
  (forall fuel duration n on_time off_time pause (w : piezo_alarm.W),
     duration <= 0 ->
     piezo_alarm.pattern fuel (clock w) duration n on_time off_time pause w = (Ok tt, w)) /\
  (forall fuel duration n on_time off_time pause (w : piezo_alarm.W),
     faults w = [] -> piezo_alarm.hardware_present w -> duration <= 0 ->
     exists w',
       piezo_alarm.alarm fuel duration n on_time off_time pause w = (Ok tt, w') /\
       trace w' = trace w
                  ++ piezo_alarm.init_events (piezo_alarm._initialized (mem w))
                  ++ [Call (piezo_alarm.GPIO_output piezo_alarm.PIEZO_PIN piezo_alarm.LOW)] /\
       clock w' = clock w /\
       piezo_alarm.pin_level (mem w') = piezo_alarm.LOW) /\
  (forall fuel duration on_time off_time n pause c (w : neopixel_alarm.W),
     duration <= 0 ->
     neopixel_alarm.pattern fuel (clock w) duration on_time off_time n pause c w
     = (Ok tt, w)) /\
  (forall fuel duration on_time off_time n pause c (w : neopixel_alarm.W),
     faults w = [] -> neopixel_alarm.hardware_present w -> duration <= 0 ->
     exists w',
       neopixel_alarm.alarm_flash fuel duration on_time off_time n pause c w = (Ok tt, w') /\
       trace w' = trace w
                  ++ neopixel_alarm.init_events (neopixel_alarm._pixels (mem w))
                       (neopixel_alarm.PIXEL_PIN (mem w))
                  ++ [Call (neopixel_alarm.Pixels_fill neopixel_alarm.black);
                      Call neopixel_alarm.Pixels_show] /\
       clock w' = clock w /\
       neopixel_alarm.all_black (neopixel_alarm.shown (mem w'))).
Proof.
  split; [|split; [|split]].
  - intros. unfold piezo_alarm.pattern. apply while_stopped. lra.
  - intros fuel duration n on_time off_time pause w F [A G] Hd.
    apply piezo_alarm_zero; auto.
  - intros. unfold neopixel_alarm.pattern. apply while_stopped. lra.
  - intros. apply pixel_alarm_zero; assumption.
Qed.

Lemma nonpositive_duration_witness :
  (let w := piezo_alarm.load true [] in
   exists w',
     piezo_alarm.alarm 0 (-1) 3 (15 # 100) (1 # 10) (1 # 2) w = (Ok tt, w') /\
     trace w' = trace w
                ++ piezo_alarm.init_events (piezo_alarm._initialized (mem w))
                ++ [Call (piezo_alarm.GPIO_output piezo_alarm.PIEZO_PIN piezo_alarm.LOW)] /\
     clock w' = clock w /\
     piezo_alarm.pin_level (mem w') = piezo_alarm.LOW) /\
  (let w := neopixel_alarm.load (Some (neopixel_alarm.mkBoard (Some 18%Z))) [] in
   exists w',
     neopixel_alarm.alarm_flash 0 0 (15 # 100) (15 # 100) 3 (1 # 2) (255, 0, 0)%Z w
     = (Ok tt, w') /\
     trace w' = trace w
                ++ neopixel_alarm.init_events (neopixel_alarm._pixels (mem w))
                     (neopixel_alarm.PIXEL_PIN (mem w))
                ++ [Call (neopixel_alarm.Pixels_fill neopixel_alarm.black);
                    Call neopixel_alarm.Pixels_show] /\
     clock w' = clock w /\
     neopixel_alarm.all_black (neopixel_alarm.shown (mem w'))).
Proof.
  split.
  - intro w.
    refine (proj1 (proj2 nonpositive_duration) 0%nat (-1) 3%Z (15 # 100) (1 # 10) (1 # 2)
              w _ _ _).
    + reflexivity.
    + split; reflexivity.
    + vm_compute; discriminate.
  - intro w.
    refine (proj2 (proj2 (proj2 nonpositive_duration)) 0%nat 0 (15 # 100) (15 # 100) 3%Z
              (1 # 2) (255, 0, 0)%Z w _ _ _).
    + reflexivity.
    + split; reflexivity.
    + vm_compute; discriminate.
Defined.

(** C10. Termination.  Time advancing by the sleeps executed, whenever the
    cycle time N*(Ton+Toff) + Tpause (N counted as [range] counts it) is
    strictly positive, [alarm] / [alarm_flash] ends for every duration D,
    every world and every fault schedule: a loop budget of ceil(D / cycle
    time) passes (none when that is negative) is never used up, so the loop
    makes at most that many passes. *)
Theorem alarm_terminates :
  (forall fuel duration n on_time off_time pause (w : piezo_alarm.W),
     0 < cycle_time n on_time off_time pause ->
     (Z.to_nat (Qceiling (duration / cycle_time n on_time off_time pause)) <= fuel)%nat ->
     fst (piezo_alarm.alarm fuel duration n on_time off_time pause w) <> OutOfFuel) /\
  (forall fuel duration on_time off_time n pause c (w : neopixel_alarm.W),
     0 < cycle_time n on_time off_time pause ->
     (Z.to_nat (Qceiling (duration / cycle_time n on_time off_time pause)) <= fuel)%nat ->
     fst (neopixel_alarm.alarm_flash fuel duration on_time off_time n pause c w)
     <> OutOfFuel).
Proof.
  split.
  - intros. apply piezo_alarm_finishes; assumption.
  - intros. apply pixel_alarm_finishes; assumption.
Qed.

Lemma alarm_terminates_witness :
  fst (piezo_alarm.alarm 1 1 3 (15 # 100) (1 # 10) (1 # 2) (piezo_alarm.load true []))
  <> OutOfFuel /\
  fst (neopixel_alarm.alarm_flash 1 1 (15 # 100) (15 # 100) 3 (1 # 2) (255, 0, 0)%Z
         (neopixel_alarm.load (Some (neopixel_alarm.mkBoard (Some 18%Z))) []))
  <> OutOfFuel.
Proof.
  split.
  - refine (proj1 alarm_terminates 1%nat 1 3%Z (15 # 100) (1 # 10) (1 # 2)
              (piezo_alarm.load true []) _ _).
    + reflexivity.
    + vm_compute. apply le_n.
  - refine (proj2 alarm_terminates 1%nat 1 (15 # 100) (15 # 100) 3%Z (1 # 2) (255, 0, 0)%Z
              (neopixel_alarm.load (Some (neopixel_alarm.mkBoard (Some 18%Z))) []) _ _).
    + reflexivity.
    + vm_compute. apply le_n.
Defined.

(** *** The outcome of the import is never revisited *)

Section PiezoBinding.

Import piezo_alarm.

Variables (b : bool) (g : gpio_binding).

#[local] Abbreviation bound :=
  (fun s : state => RPI_AVAILABLE s = b /\ GPIO s = g).

Lemma piezo_bound_gpio (op : gpio_op) : keeps bound (gpio op).
Proof.
  assert (K : keeps bound (hw_call op (gpio_effect op))).
  { apply keeps_hw_call. intros s [H1 H2].
    destruct (piezo_effect_globals op s) as (E1 & E2 & _). rewrite E1, E2. auto. }
  intros w r w' HP H. unfold gpio in H.
  destruct (GPIO (mem w)) eqn:E in H.
  - exact (K w r w' HP H).
  - inversion H; subst. exact HP.
Qed.

Lemma piezo_bound_init : keeps bound _init_gpio.
Proof.
  unfold _init_gpio.
  apply keeps_bind; [apply keeps_read|]. intros [|]; [apply keeps_ret|].
  apply keeps_bind; [apply keeps_read|]. intros [|]; simpl; [|apply keeps_ret].
  repeat (apply keeps_bind; [apply piezo_bound_gpio | intros _]).
  apply keeps_modify. intros s H. exact H.
Qed.

Lemma piezo_bound_alarm fuel duration n on_time off_time pause :
  keeps bound (alarm fuel duration n on_time off_time pause).
Proof.
  unfold alarm.
  apply keeps_bind; [apply keeps_read|]. intros [|]; simpl; [|apply keeps_print].
  apply keeps_bind; [apply piezo_bound_init | intros _].
  apply keeps_bind; [apply keeps_time_time | intros start].
  apply keeps_try_finally; [|apply piezo_bound_gpio].
  unfold pattern. apply keeps_while; [apply keeps_running|].
  unfold group. apply keeps_bind; [|intros _; apply keeps_sleep].
  apply keeps_for_range. unfold beep.
  apply keeps_bind; [apply piezo_bound_gpio | intros _].
  apply keeps_bind; [apply keeps_sleep | intros _].
  apply keeps_bind; [apply piezo_bound_gpio | intros _].
  apply keeps_sleep.
Qed.

Lemma piezo_bound_cleanup : keeps bound cleanup.
Proof.
  unfold cleanup.
  apply keeps_bind; [apply keeps_read|]. intros [|]; simpl; [|apply keeps_ret].
  apply keeps_bind; [apply keeps_read|]. intros [|]; [|apply keeps_ret].
  repeat (apply keeps_bind; [apply piezo_bound_gpio | intros _]).
  apply keeps_modify. intros s H. exact H.
Qed.

End PiezoBinding.

Section PixelBinding.

Import neopixel_alarm.

Variables (b : bool) (bd : option board_module) (lib : option neopixel_module)
  (pin : option Z).

#[local] Abbreviation bound :=
  (fun s : state => NEOPIXEL_AVAILABLE s = b /\ board s = bd /\
                    neopixel s = lib /\ PIXEL_PIN s = pin).

Lemma pixel_bound_fill (p : strip) (c : color) : keeps bound (fill p c).
Proof.
  apply keeps_hw_call. intros s H. destruct (strip_auto_write p); exact H.
Qed.

Lemma pixel_bound_show (p : strip) : keeps bound (show p).
Proof. apply keeps_hw_call. intros s H. exact H. Qed.

Lemma pixel_bound_init : keeps bound _init_pixels.
Proof.
  unfold _init_pixels.
  apply keeps_bind; [apply keeps_read|]. intros [p|]; [apply keeps_ret|].
  apply keeps_bind; [apply keeps_read|]. intros [|]; simpl.
  - apply keeps_bind; [apply keeps_read | intros pn].
    apply keeps_bind.
    + unfold NeoPixel. apply keeps_bind; [apply keeps_read|].
      intros [[]|]; [|apply keeps_raise].
      apply keeps_bind; [|intros _; apply keeps_ret].
      apply keeps_hw_call. intros s H. exact H.
    + intros p.
      apply keeps_bind; [apply keeps_modify; intros s H; exact H | intros _].
      apply keeps_bind; [apply pixel_bound_fill | intros _].
      apply keeps_bind; [apply pixel_bound_show | intros _].
      apply keeps_read.
  - apply keeps_bind; [apply keeps_print | intros _; apply keeps_ret].
Qed.

Lemma pixel_bound_set_all (c : color) : keeps bound (_set_all c).
Proof.
  unfold _set_all. apply keeps_bind; [apply pixel_bound_init|].
  intros [p|]; [|apply keeps_ret].
  apply keeps_bind; [apply pixel_bound_fill | intros _; apply pixel_bound_show].
Qed.

Lemma pixel_bound_alarm fuel duration on_time off_time n pause c :
  keeps bound (alarm_flash fuel duration on_time off_time n pause c).
Proof.
  unfold alarm_flash.
  apply keeps_bind; [apply keeps_read|]. intros [|]; simpl; [|apply keeps_print].
  apply keeps_bind; [apply keeps_time_time | intros start].
  apply keeps_bind; [apply pixel_bound_init | intros _].
  apply keeps_try_finally; [|apply pixel_bound_set_all].
  unfold pattern. apply keeps_while; [apply keeps_running|].
  unfold group. apply keeps_bind; [|intros _; apply keeps_sleep].
  apply keeps_for_range. unfold flash.
  apply keeps_bind; [apply pixel_bound_set_all | intros _].
  apply keeps_bind; [apply keeps_sleep | intros _].
  apply keeps_bind; [apply pixel_bound_set_all | intros _].
  apply keeps_sleep.
Qed.

Lemma pixel_bound_cleanup : keeps bound cleanup.
Proof.
  unfold cleanup. apply keeps_bind; [apply pixel_bound_init|].
  intros [p|]; [apply pixel_bound_set_all | apply keeps_ret].
Qed.

End PixelBinding.

(** C7, as the specification states it, fails on the notice: loading a
    module whose import raises prints nothing.  The mock notices are printed
    by the later calls. *)
Lemma mock_notice_at_load_counterexample :
  ~ (exists line, In (Print line) (trace (piezo_alarm.load false []))) /\
  ~ (exists line, In (Print line) (trace (neopixel_alarm.load None []))).
Proof. split; intros [line H]; exact H. Qed.

(** C7, amended.  The import is probed at module load and its outcome is
    never revisited: no call of the driver changes the flag or the bindings.
    When the import raises, the load itself raises nothing and prints
    nothing; the flag is false; the piezo module binds [GPIO] to a
    [MockGPIO] whose every method returns without doing anything, the strip
    module binds [board] and [neopixel] to [None] and has no pin and no
    handle.  The one-line notice comes later, one line from every [alarm] /
    [alarm_flash] call and from every [_init_pixels] call in mock mode. *)
Theorem mock_fallback :
  (forall fs,
     let w0 := piezo_alarm.load false fs in
     trace w0 = [] /\
     piezo_alarm.RPI_AVAILABLE (mem w0) = false /\
     piezo_alarm.GPIO (mem w0) = piezo_alarm.MockGPIO) /\
  (forall op (w : piezo_alarm.W),
     piezo_alarm.GPIO (mem w) = piezo_alarm.MockGPIO ->
     piezo_alarm.gpio op w = (Ok tt, w)) /\
  (forall b g fuel duration n on_time off_time pause,
     keeps (fun s => piezo_alarm.RPI_AVAILABLE s = b /\ piezo_alarm.GPIO s = g)
       (piezo_alarm.alarm fuel duration n on_time off_time pause) /\
     keeps (fun s => piezo_alarm.RPI_AVAILABLE s = b /\ piezo_alarm.GPIO s = g)
       piezo_alarm.cleanup) /\
  (forall fs fuel duration n on_time off_time pause,
     piezo_alarm.alarm fuel duration n on_time off_time pause (piezo_alarm.load false fs)
     = (Ok tt, mkWorld [Print piezo_alarm.mock_notice] 0 fs (piezo_alarm.load_state false))) /\
  (forall fs,
     let w0 := neopixel_alarm.load None fs in
     trace w0 = [] /\
     neopixel_alarm.NEOPIXEL_AVAILABLE (mem w0) = false /\
     neopixel_alarm.board (mem w0) = None /\
     neopixel_alarm.neopixel (mem w0) = None /\
     neopixel_alarm.PIXEL_PIN (mem w0) = None /\
     neopixel_alarm._pixels (mem w0) = None) /\
  (forall b bd lib pin fuel duration on_time off_time n pause c,
     keeps (fun s => neopixel_alarm.NEOPIXEL_AVAILABLE s = b /\ neopixel_alarm.board s = bd /\
                     neopixel_alarm.neopixel s = lib /\ neopixel_alarm.PIXEL_PIN s = pin)
       (neopixel_alarm.alarm_flash fuel duration on_time off_time n pause c) /\
     keeps (fun s => neopixel_alarm.NEOPIXEL_AVAILABLE s = b /\ neopixel_alarm.board s = bd /\
                     neopixel_alarm.neopixel s = lib /\ neopixel_alarm.PIXEL_PIN s = pin)
       neopixel_alarm.cleanup) /\
  (forall fs fuel duration on_time off_time n pause c,
     neopixel_alarm.alarm_flash fuel duration on_time off_time n pause c
       (neopixel_alarm.load None fs)
     = (Ok tt, mkWorld [Print neopixel_alarm.mock_notice] 0 fs
                 (neopixel_alarm.load_state None)) /\
     neopixel_alarm._init_pixels (neopixel_alarm.load None fs)
     = (Ok None, mkWorld [Print neopixel_alarm.init_notice] 0 fs
                   (neopixel_alarm.load_state None))).
Proof.
  split; [|split; [|split; [|split; [|split; [|split]]]]].
  - intros fs. simpl. auto.
  - intros op w H. unfold piezo_alarm.gpio. rewrite H. reflexivity.
  - intros. split; [apply piezo_bound_alarm | apply piezo_bound_cleanup].
  - intros. reflexivity.
  - intros fs. simpl. auto 10.
  - intros. split; [apply pixel_bound_alarm | apply pixel_bound_cleanup].
  - intros. split; reflexivity.
Qed.

Lemma mock_fallback_witness :
  piezo_alarm.gpio (piezo_alarm.GPIO_output piezo_alarm.PIEZO_PIN piezo_alarm.HIGH)
    (piezo_alarm.load false [true])
  = (Ok tt, piezo_alarm.load false [true]).
Proof.
  refine (proj1 (proj2 mock_fallback)
            (piezo_alarm.GPIO_output piezo_alarm.PIEZO_PIN piezo_alarm.HIGH)
            (piezo_alarm.load false [true]) _).
  reflexivity.
Defined.

(** ** Further properties of the piezo driver *)

Section PiezoBeep.

Import piezo_alarm.

#[local] Abbreviation steady :=
  (fun w : W => faults w = [] /\ RPI_AVAILABLE (mem w) = true /\ GPIO (mem w) = RealGPIO).

#[local] Abbreviation armed :=
  (fun s : state => RPI_AVAILABLE s = true /\ _initialized s = true).

Lemma piezo_armed_gpio (op : gpio_op) : keeps armed (gpio op).
Proof.
  intros w r w' HP H. unfold gpio in H. destruct (GPIO (mem w)).
  - assert (K : keeps armed (hw_call op (gpio_effect op))).
    { apply keeps_hw_call. intros s [H1 H2].
      destruct (piezo_effect_globals op s) as (E1 & _ & E3). rewrite E1, E3. auto. }
    exact (K w r w' HP H).
  - inversion H; subst. exact HP.
Qed.

Lemma piezo_armed_beep (on_time off_time : Q) : keeps armed (beep on_time off_time).
Proof.
  unfold beep.
  apply keeps_bind; [apply piezo_armed_gpio | intros _].
  apply keeps_bind; [apply keeps_sleep | intros _].
  apply keeps_bind; [apply piezo_armed_gpio | intros _].
  apply keeps_sleep.
Qed.

Lemma piezo_beep_inline (on_time off_time : Q) (w : W) :
  armed (mem w) -> _beep on_time off_time w = beep on_time off_time w.
Proof.
  intros [A I]. unfold _beep.
  erewrite bind_ok by (apply piezo_init_done; exact I).
  unfold bind at 1, read. rewrite A. reflexivity.
Qed.

Lemma repeatM_ext {Op D : Type} (P : D -> Prop) (f g : M Op D unit) :
  (forall w, P (mem w) -> f w = g w) -> keeps P g ->
  forall n w, P (mem w) -> repeatM n f w = repeatM n g w.
Proof.
  intros Hfg Hk. induction n as [|n IH]; intros w HP; [reflexivity|].
  simpl. unfold bind. rewrite (Hfg w HP).
  destruct (g w) as [[[]|e|] w1] eqn:E; try reflexivity.
  apply IH. exact (Hk w _ _ HP E).
Qed.

Lemma piezo_beep_mock (on_time off_time : Q) (w : W) :
  RPI_AVAILABLE (mem w) = false -> _beep on_time off_time w = (Ok tt, w).
Proof.
  intro A. unfold _beep.
  erewrite bind_ok by (apply piezo_init_mock; exact A).
  unfold bind, read. rewrite A. reflexivity.
Qed.

Lemma piezo_beep_run (on_time off_time : Q) (w : W) :
  steady w -> 0 <= on_time -> 0 <= off_time ->
  exists w',
    _beep on_time off_time w = (Ok tt, w') /\
    trace w' = trace w ++ init_events (_initialized (mem w))
               ++ beep_events on_time off_time /\
    clock w' == clock w + (on_time + off_time) /\
    _initialized (mem w') = true /\
    pin_level (mem w') = LOW.
Proof.
  intros Hs Hon Hoff.
  destruct (piezo_init_ok Hs) as (wi & Ei & Ti & Ci & (F & A & G) & Ii).
  unfold _beep. erewrite bind_ok by exact Ei.
  unfold bind at 1, read. rewrite A. cbn [negb].
  erewrite bind_ok by (apply piezo_gpio_ok; [exact G | exact F]).
  erewrite bind_ok by (apply sleep_ok; exact Hon).
  erewrite bind_ok by (apply piezo_gpio_ok; [simpl; exact G | reflexivity]).
  rewrite sleep_ok by exact Hoff.
  eexists. split; [reflexivity|]. cbn [trace clock mem].
  split; [rewrite Ti, <- !app_assoc; reflexivity|].
  split; [rewrite Ci; ring|].
  split; [simpl; exact Ii | reflexivity].
Qed.

(** A negative on-time: [time.sleep] raises after the pin went HIGH, and
    [_beep] has no [finally]. *)
Lemma piezo_beep_stuck (on_time off_time : Q) (w : W) :
  steady w -> on_time < 0 ->
  exists w',
    _beep on_time off_time w = (Raise ValueError, w') /\
    trace w' = trace w ++ init_events (_initialized (mem w))
               ++ [Call (GPIO_output PIEZO_PIN HIGH)] /\
    clock w' = clock w /\
    pin_level (mem w') = HIGH.
Proof.
  intros Hs Hon.
  destruct (piezo_init_ok Hs) as (wi & Ei & Ti & Ci & (F & A & G) & Ii).
  unfold _beep. erewrite bind_ok by exact Ei.
  unfold bind at 1, read. rewrite A. cbn [negb].
  erewrite bind_ok by (apply piezo_gpio_ok; [exact G | exact F]).
  unfold bind, sleep. apply Qltb_lt in Hon. rewrite Hon.
  eexists. split; [reflexivity|]. cbn [trace clock mem].
  split; [rewrite Ti, <- !app_assoc; reflexivity|].
  split; [exact Ci | reflexivity].
Qed.

End PiezoBeep.

Section PiezoFailures.

Import piezo_alarm.

#[local] Abbreviation steady :=
  (fun w : W => faults w = [] /\ RPI_AVAILABLE (mem w) = true /\ GPIO (mem w) = RealGPIO).

(** [_initialized] is assigned after the three library calls: it is set
    exactly when all of them went through, and a call that raises has not
    touched the level of the pin. *)
Lemma piezo_init_outcome (w : W) r w' :
  hardware_present w -> _initialized (mem w) = false ->
  _init_gpio w = (r, w') ->
  (r = Ok tt /\ _initialized (mem w') = true /\ pin_level (mem w') = LOW) \/
  (r = Raise HardwareError /\ _initialized (mem w') = false /\
   pin_level (mem w') = pin_level (mem w)).
Proof.
  destruct w as [tr ck fs [av g ini nb dir lvl]]. unfold hardware_present. simpl.
  intros (-> & ->) -> H.
  unfold _init_gpio, gpio, bind, read, modify, hw_call, ret in H. simpl in H.
  destruct fs as [|[|] [|[|] [|[|] fs]]]; simpl in H; inversion H; subst; simpl; auto.
Qed.

(** [cleanup] clears the flag after its two library calls: a [cleanup] that
    raises leaves the driver initialised, and does not reach [GPIO.cleanup]
    when the write of LOW is what raised. *)
Lemma piezo_cleanup_outcome (w : W) r w' :
  hardware_present w -> _initialized (mem w) = true ->
  cleanup w = (r, w') ->
  (r = Ok tt /\ _initialized (mem w') = false /\
   trace w' = trace w ++ [Call (GPIO_output PIEZO_PIN LOW); Call (GPIO_cleanup PIEZO_PIN)]) \/
  (r = Raise HardwareError /\ _initialized (mem w') = true /\
   (trace w' = trace w ++ [Failed (GPIO_output PIEZO_PIN LOW)] \/
    trace w' = trace w ++ [Call (GPIO_output PIEZO_PIN LOW);
                           Failed (GPIO_cleanup PIEZO_PIN)])).
Proof.
  destruct w as [tr ck fs [av g ini nb dir lvl]]. unfold hardware_present. simpl.
  intros (-> & ->) -> H.
  unfold cleanup, gpio, bind, read, modify, hw_call, ret in H. simpl in H.
  destruct fs as [|[|] [|[|] fs]]; simpl in H; inversion H; subst; simpl;
    rewrite <- ?app_assoc; simpl; auto 10.
Qed.

(** The initialisation is outside the [try]: when it raises, [alarm] ends
    there. *)
Lemma piezo_alarm_init_raises fuel duration n on_time off_time pause (w wi : W) e :
  RPI_AVAILABLE (mem w) = true ->
  _init_gpio w = (Raise e, wi) ->
  alarm fuel duration n on_time off_time pause w = (Raise e, wi).
Proof.
  intros A Hi. rewrite piezo_alarm_real by exact A.
  unfold bind at 1. rewrite Hi. reflexivity.
Qed.

Lemma piezo_init_sets_flag (w wi : W) :
  RPI_AVAILABLE (mem w) = true ->
  _init_gpio w = (Ok tt, wi) ->
  RPI_AVAILABLE (mem wi) = true /\ _initialized (mem wi) = true.
Proof.
  intros A H. destruct (_initialized (mem w)) eqn:I.
  - rewrite piezo_init_done in H by exact I. inversion H; subst. auto.
  - destruct w as [tr ck fs [av g ini nb dir lvl]]. simpl in A, I. subst av ini.
    unfold _init_gpio, gpio, bind, read, modify, hw_call, ret in H. simpl in H.
    destruct g; simpl in H.
    + destruct fs as [|[|] [|[|] [|[|] fs]]]; simpl in H; inversion H; subst; simpl; auto.
    + inversion H; subst; simpl; auto.
Qed.

(** Whatever happens in the loop, a call of [alarm] that got past the
    initialisation leaves the driver initialised. *)
Lemma piezo_alarm_stays_armed fuel duration n on_time off_time pause (w wi : W) r w' :
  RPI_AVAILABLE (mem w) = true ->
  _init_gpio w = (Ok tt, wi) ->
  alarm fuel duration n on_time off_time pause w = (r, w') ->
  _initialized (mem w') = true.
Proof.
  intros A Hi H.
  pose proof (piezo_init_sets_flag w A Hi) as Pi.
  rewrite piezo_alarm_entered with (wi := wi) in H by (exact Hi || exact A).
  assert (K : keeps (fun s => RPI_AVAILABLE s = true /\ _initialized s = true)
                (try_finally (pattern fuel (clock wi) duration n on_time off_time pause)
                   force_off)).
  { apply keeps_try_finally; [|apply piezo_armed_gpio].
    unfold pattern. apply keeps_while; [apply keeps_running|].
    unfold group. apply keeps_bind; [|intros _; apply keeps_sleep].
    apply keeps_for_range. apply piezo_armed_beep. }
  exact (proj2 (K wi r w' Pi H)).
Qed.

(** A negative on-time with a positive duration and at least one beep per
    group: the first sleep raises, and the [finally] puts the pin back LOW. *)
Lemma piezo_alarm_negative_on fuel duration n on_time off_time pause (w : W) :
  steady w -> 0 < duration -> (1 <= n)%Z -> on_time < 0 ->
  exists w',
    alarm (S fuel) duration n on_time off_time pause w = (Raise ValueError, w') /\
    trace w' = trace w ++ init_events (_initialized (mem w))
               ++ [Call (GPIO_output PIEZO_PIN HIGH); Call (GPIO_output PIEZO_PIN LOW)] /\
    clock w' = clock w /\
    pin_level (mem w') = LOW.
Proof.
  intros Hs Hd Hn Hon.
  destruct (piezo_init_ok Hs) as (wi & Ei & Ti & Ci & (F & A & G) & Ii).
  rewrite piezo_alarm_entered with (wi := wi) by (exact Ei || apply Hs).
  unfold try_finally, pattern. rewrite while_running by lra.
  unfold group, for_range.
  destruct (Z.to_nat n) as [|m] eqn:En; [lia|]. simpl repeatM.
  unfold beep.
  assert (Eb : bind (gpio (GPIO_output PIEZO_PIN HIGH))
                 (fun _ => bind (sleep on_time)
                    (fun _ => bind (gpio (GPIO_output PIEZO_PIN LOW))
                       (fun _ => sleep off_time))) wi
               = (Raise ValueError,
                  mkWorld (trace wi ++ [Call (GPIO_output PIEZO_PIN HIGH)]) (clock wi) []
                    (gpio_effect (GPIO_output PIEZO_PIN HIGH) (mem wi)))).
  { erewrite bind_ok by (apply piezo_gpio_ok; [exact G | exact F]).
    unfold bind, sleep. apply Qltb_lt in Hon. rewrite Hon. reflexivity. }
  unfold bind at 1. unfold bind at 1. unfold bind at 1. rewrite Eb. cbv beta iota.
  unfold force_off. rewrite piezo_gpio_ok by (simpl; auto).
  eexists. split; [reflexivity|]. cbn [trace clock mem].
  split; [rewrite Ti, <- !app_assoc; reflexivity|].
  split; [exact Ci | reflexivity].
Qed.

End PiezoFailures.

(** ** Further properties of the NeoPixel driver *)

Section PixelFailures.

Import neopixel_alarm.

#[local] Abbreviation ready :=
  (fun (p : strip) (w : W) => faults w = [] /\ _pixels (mem w) = Some p).

(** [_pixels] is assigned as soon as the constructor returns, before the
    strip is blacked out: the handle is cached exactly when the constructor
    went through, also when the fill or the push after it raises; the next
    [_init_pixels] then returns that handle without touching the strip.  A
    call that raises has not changed what the LEDs display. *)
Lemma pixel_init_outcome (w : W) r w' :
  hardware_present w -> _pixels (mem w) = None ->
  _init_pixels w = (r, w') ->
  (r = Ok (Some (module_strip (mem w))) /\
   _pixels (mem w') = Some (module_strip (mem w)) /\
   all_black (shown (mem w'))) \/
  (r = Raise HardwareError /\
   shown (mem w') = shown (mem w) /\
   ((trace w' = trace w ++ [Failed (NeoPixel_new (PIXEL_PIN (mem w)) NUM_PIXELS
                                      BRIGHTNESS false)] /\
     _pixels (mem w') = None) \/
    ((trace w' = trace w ++ [Call (NeoPixel_new (PIXEL_PIN (mem w)) NUM_PIXELS
                                     BRIGHTNESS false);
                             Failed (Pixels_fill black)] \/
      trace w' = trace w ++ [Call (NeoPixel_new (PIXEL_PIN (mem w)) NUM_PIXELS
                                     BRIGHTNESS false);
                             Call (Pixels_fill black); Failed Pixels_show]) /\
     _pixels (mem w') = Some (module_strip (mem w)) /\
     _init_pixels w' = (Ok (Some (module_strip (mem w))), w')))).
Proof.
  destruct w as [tr ck fs [av bd lib pin px buf sh]]. unfold hardware_present. simpl.
  intros (-> & ->) -> H.
  unfold _init_pixels, NeoPixel, fill, show, bind, read, modify, hw_call, ret, raise in H.
  simpl in H.
  destruct fs as [|[|] [|[|] [|[|] fs]]]; simpl in H; inversion H; subst;
    unfold module_strip; simpl; rewrite <- ?app_assoc; simpl;
    try (left; repeat split; try reflexivity; apply (all_black_repeat 8));
    right; (split; [reflexivity|]); (split; [reflexivity|]); auto 10.
Qed.

(** The initialisation is outside the [try]: when it raises, [alarm_flash]
    ends there. *)
Lemma pixel_alarm_init_raises fuel duration on_time off_time n pause c (w wi : W) e :
  NEOPIXEL_AVAILABLE (mem w) = true ->
  _init_pixels w = (Raise e, wi) ->
  alarm_flash fuel duration on_time off_time n pause c w = (Raise e, wi).
Proof.
  intros A Hi. rewrite pixel_alarm_real by exact A.
  unfold bind at 1. rewrite Hi. reflexivity.
Qed.

(** Whatever happens in the loop, a call of [alarm_flash] that got past the
    initialisation leaves the handle cached. *)
Lemma pixel_alarm_stays_cached fuel duration on_time off_time n pause c
  (w wi : W) px r w' :
  NEOPIXEL_AVAILABLE (mem w) = true ->
  _init_pixels w = (Ok px, wi) ->
  alarm_flash fuel duration on_time off_time n pause c w = (r, w') ->
  exists p, px = Some p /\ _pixels (mem w') = Some p.
Proof.
  intros A Hi H.
  destruct (pixel_init_returns w A Hi) as (p & -> & Pi).
  rewrite pixel_alarm_entered with (wi := wi) (px := Some p) in H by (exact Hi || exact A).
  exists p. split; [reflexivity|].
  assert (K : keeps (fun s => _pixels s = Some p)
                (try_finally (pattern fuel (clock w) duration on_time off_time n pause c)
                   force_off)).
  { apply keeps_try_finally; [apply pixel_keeps_pattern | apply pixel_keeps_set_all]. }
  exact (K wi r w' Pi H).
Qed.

(** A negative on-time with a positive duration and at least one flash per
    group: the first sleep raises with the LEDs lit, and the [finally]
    blacks them out. *)
Lemma pixel_alarm_negative_on fuel duration on_time off_time n pause c (w : W) :
  faults w = [] -> hardware_present w ->
  0 < duration -> (1 <= n)%Z -> on_time < 0 ->
  exists w',
    alarm_flash (S fuel) duration on_time off_time n pause c w
    = (Raise ValueError, w') /\
    trace w' = trace w ++ init_events (_pixels (mem w)) (PIXEL_PIN (mem w))
               ++ set_all_events c ++ set_all_events black /\
    clock w' = clock w /\
    all_black (shown (mem w')).
Proof.
  intros F HP Hd Hn Hon.
  destruct (pixel_init_ok F HP) as (p & wi & Ei & Ti & Ci & Ri).
  rewrite pixel_alarm_entered with (wi := wi) (px := Some p) by (exact Ei || apply HP).
  unfold try_finally, pattern. rewrite while_running by (rewrite Ci; lra).
  unfold group, for_range.
  destruct (Z.to_nat n) as [|m] eqn:En; [lia|]. simpl repeatM.
  destruct (pixel_set_all_ok c Ri) as (w1 & E1 & R1 & T1 & C1 & _).
  assert (Eb : flash c on_time off_time wi = (Raise ValueError, w1)).
  { unfold flash. erewrite bind_ok by exact E1.
    unfold bind, sleep. apply Qltb_lt in Hon. rewrite Hon. reflexivity. }
  unfold bind at 1. unfold bind at 1. unfold bind at 1. rewrite Eb. cbv beta iota.
  unfold force_off.
  destruct (pixel_set_all_ok black R1) as (w2 & E2 & R2 & T2 & C2 & S2).
  rewrite E2. exists w2. split; [reflexivity|].
  split; [rewrite T2, T1, Ti, <- !app_assoc; reflexivity|].
  split; [congruence|]. rewrite S2. apply all_black_fill.
Qed.

(** [_set_all] in mock mode reaches no hardware but prints the notice of
    [_init_pixels]. *)
Lemma pixel_set_all_mock (c : color) (w : W) :
  NEOPIXEL_AVAILABLE (mem w) = false -> _pixels (mem w) = None ->
  _set_all c w = (Ok tt, log (Print init_notice) w).
Proof.
  intros A E. unfold _set_all.
  erewrite bind_ok by (apply pixel_init_mock; assumption). reflexivity.
Qed.

(** [_set_all] on working hardware: the strip is built first when no handle
    is cached, and afterwards every LED shows the colour. *)
Lemma pixel_set_all_run (c : color) (w : W) :
  faults w = [] -> hardware_present w ->
  exists w',
    _set_all c w = (Ok tt, w') /\
    trace w' = trace w ++ init_events (_pixels (mem w)) (PIXEL_PIN (mem w))
               ++ set_all_events c /\
    clock w' = clock w /\
    Forall (fun x => x = c) (shown (mem w')) /\
    (_pixels (mem w) = None -> shown (mem w') = repeat c (Z.to_nat NUM_PIXELS)).
Proof.
  intros F HP. destruct (_pixels (mem w)) as [p|] eqn:E.
  - destruct (@pixel_set_all_ok p c w (conj F E)) as (w' & E1 & _ & T1 & C1 & S1).
    exists w'. split; [exact E1|]. split; [exact T1|]. split; [exact C1|].
    split; [|discriminate].
    rewrite S1. clear. induction (buffer (mem w)) as [|x l IH]; simpl; constructor; auto.
  - destruct w as [tr ck fs [av bd lib pin px buf sh]]. unfold hardware_present in HP.
    simpl in F, HP, E. destruct HP as [-> ->]. subst fs px.
    eexists. split; [reflexivity|]. simpl.
    split; [rewrite <- !app_assoc; reflexivity|]. split; [reflexivity|].
    split; [repeat constructor | intros _; reflexivity].
Qed.

End PixelFailures.

(** ** How long a run is *)

Lemma ceiling_cycles (d c : Q) (k : nat) :
  0 < c ->
  (forall j, (j < k)%nat -> inject_Z (Z.of_nat j) * c < d) ->
  d <= inject_Z (Z.of_nat k) * c ->
  k = Z.to_nat (Qceiling (d / c)).
Proof.
  intros Hc Hj Hk.
  assert (Hx : d / c <= inject_Z (Z.of_nat k)) by (apply Qle_shift_div_r; assumption).
  destruct k as [|j].
  - apply Qceiling_resp_le in Hx. rewrite Qceiling_Z in Hx. lia.
  - assert (Hlo : inject_Z (Z.of_nat j) < d / c).
    { apply Qlt_shift_div_l; [exact Hc | apply Hj; lia]. }
    apply Qceiling_resp_le in Hx. rewrite Qceiling_Z in Hx.
    pose proof (Qle_ceiling (d / c)) as Hup.
    assert (Hz : inject_Z (Z.of_nat j) < inject_Z (Qceiling (d / c))) by lra.
    rewrite <- Zlt_Qlt in Hz. lia.
Qed.

Section PiezoExact.

Import piezo_alarm.

Variables (fuel : nat) (duration : Q) (n : Z) (on_time off_time pause : Q).

#[local] Abbreviation steady :=
  (fun w : W => faults w = [] /\ RPI_AVAILABLE (mem w) = true /\ GPIO (mem w) = RealGPIO).

(** With working hardware, non-negative times and a positive cycle time,
    [alarm] runs exactly ceil(D / cycle time) cycles (none for D <= 0). *)
Lemma piezo_alarm_exact (w : W) :
  steady w -> 0 <= on_time -> 0 <= off_time -> 0 <= pause ->
  0 < cycle_time n on_time off_time pause ->
  (Z.to_nat (Qceiling (duration / cycle_time n on_time off_time pause)) <= fuel)%nat ->
  exists w',
    alarm fuel duration n on_time off_time pause w = (Ok tt, w') /\
    trace w' = trace w ++ init_events (_initialized (mem w))
               ++ concat (repeat (cycle_events n on_time off_time pause)
                    (Z.to_nat (Qceiling (duration / cycle_time n on_time off_time pause))))
               ++ [Call (GPIO_output PIEZO_PIN LOW)] /\
    clock w' == clock w
                + inject_Z (Z.of_nat (Z.to_nat
                    (Qceiling (duration / cycle_time n on_time off_time pause))))
                  * cycle_time n on_time off_time pause /\
    steady w' /\
    _initialized (mem w') = true /\
    pin_level (mem w') = LOW.
Proof.
  intros Hs Hon Hoff Hp Hc Hf.
  destruct (piezo_init_ok Hs) as (wi & Ei & Ti & Ci & Si & Ii).
  destruct (@while_shape _ _ steady _ _ _
              (piezo_group_returns n Hon Hoff Hp) (clock wi) duration fuel wi Si)
    as (k & w1 & Hk & S1 & T1 & C1 & Hj & Hr).
  pose proof (ceiling_budget duration Hc Hf) as Hb.
  destruct Hr as [(E1 & Hd) | (E1 & -> & Hd)]; [|lra].
  assert (Ek : k = Z.to_nat (Qceiling (duration / cycle_time n on_time off_time pause))).
  { apply ceiling_cycles; [exact Hc | | lra].
    intros j Hlt. specialize (Hj j Hlt). lra. }
  assert (Ea : alarm fuel duration n on_time off_time pause w
               = (Ok tt, mkWorld (trace w1 ++ [Call (GPIO_output PIEZO_PIN LOW)])
                           (clock w1) [] (gpio_effect (GPIO_output PIEZO_PIN LOW) (mem w1)))).
  { rewrite piezo_alarm_entered with (wi := wi) by (exact Ei || apply Hs).
    unfold try_finally, pattern. rewrite E1. cbv beta iota.
    unfold force_off. rewrite piezo_gpio_ok by apply S1. reflexivity. }
  pose proof (@piezo_alarm_stays_armed fuel duration n on_time off_time pause
                w wi (Ok tt) _ (proj1 (proj2 Hs)) Ei Ea) as Ia.
  eexists. split; [exact Ea|]. split; [|split; [|split; [|split]]].
  - cbn [trace]. rewrite T1, Ti, <- Ek, <- !app_assoc. reflexivity.
  - cbn [clock]. rewrite <- Ek, C1, Ci. reflexivity.
  - simpl. split; [reflexivity | apply S1].
  - exact Ia.
  - reflexivity.
Qed.

End PiezoExact.

Section PixelExact.

Import neopixel_alarm.

Variables (fuel : nat) (duration on_time off_time : Q) (n : Z) (pause : Q) (c : color).

#[local] Abbreviation ready :=
  (fun (p : strip) (w : W) => faults w = [] /\ _pixels (mem w) = Some p).

(** With working hardware, non-negative times and a positive cycle time,
    [alarm_flash] runs exactly ceil(D / cycle time) cycles (none for
    D <= 0). *)
Lemma pixel_alarm_exact (w : W) :
  faults w = [] -> hardware_present w ->
  0 <= on_time -> 0 <= off_time -> 0 <= pause ->
  0 < cycle_time n on_time off_time pause ->
  (Z.to_nat (Qceiling (duration / cycle_time n on_time off_time pause)) <= fuel)%nat ->
  exists p w',
    alarm_flash fuel duration on_time off_time n pause c w = (Ok tt, w') /\
    trace w' = trace w ++ init_events (_pixels (mem w)) (PIXEL_PIN (mem w))
               ++ concat (repeat (cycle_events n on_time off_time pause c)
                    (Z.to_nat (Qceiling (duration / cycle_time n on_time off_time pause))))
               ++ set_all_events black /\
    clock w' == clock w
                + inject_Z (Z.of_nat (Z.to_nat
                    (Qceiling (duration / cycle_time n on_time off_time pause))))
                  * cycle_time n on_time off_time pause /\
    ready p w' /\
    all_black (shown (mem w')).
Proof.
  intros F HP Hon Hoff Hp Hc Hf.
  destruct (pixel_init_ok F HP) as (p & wi & Ei & Ti & Ci & Ri).
  destruct (@while_shape _ _ (ready p) _ _ _
              (@pixel_group_returns p n on_time off_time pause c Hon Hoff Hp)
              (clock w) duration fuel wi Ri)
    as (k & w1 & Hk & R1 & T1 & C1 & Hj & Hr).
  pose proof (ceiling_budget duration Hc Hf) as Hb.
  rewrite Ci in C1.
  destruct Hr as [(E1 & Hd) | (E1 & -> & Hd)]; [|lra].
  assert (Ek : k = Z.to_nat (Qceiling (duration / cycle_time n on_time off_time pause))).
  { apply ceiling_cycles; [exact Hc | | lra].
    intros j Hlt. specialize (Hj j Hlt). rewrite Ci in Hj. lra. }
  destruct (pixel_set_all_ok black R1) as (w2 & E2 & R2 & T2 & C2 & S2).
  exists p, w2. split.
  { rewrite pixel_alarm_entered with (wi := wi) (px := Some p) by (exact Ei || apply HP).
    unfold try_finally, pattern. rewrite E1. cbv beta iota.
    unfold force_off. rewrite E2. reflexivity. }
  split; [rewrite T2, T1, Ti, <- Ek, <- !app_assoc; reflexivity|].
  split; [rewrite <- Ek, C2, C1; reflexivity|].
  split; [exact R2|]. rewrite S2. apply all_black_fill.
Qed.

End PixelExact.

Section PixelConfiguration.

Import neopixel_alarm.

Lemma pixel_configured_init : keeps well_configured _init_pixels.
Proof.
  intros w r w' HP H. destruct (_pixels (mem w)) as [p|] eqn:E.
  - rewrite (pixel_init_cached w E) in H. inversion H; subst. exact HP.
  - destruct w as [tr ck fs [av bd lib pin px buf sh]]. simpl in E. subst px.
    unfold _init_pixels, NeoPixel, fill, show, bind, read, modify, hw_call, ret, raise,
      print, log in H.
    simpl in H. destruct av; simpl in H.
    + destruct lib as [[]|]; simpl in H.
      * destruct fs as [|[|] [|[|] [|[|] fs]]]; simpl in H; inversion H; subst;
          unfold well_configured, module_strip; simpl; auto.
      * inversion H; subst. left. reflexivity.
    + inversion H; subst. left. reflexivity.
Qed.

Lemma pixel_configured_set_all (c : color) : keeps well_configured (_set_all c).
Proof.
  unfold _set_all. apply keeps_bind; [apply pixel_configured_init|].
  intros [p|]; [|apply keeps_ret].
  apply keeps_bind; [|intros _]; apply keeps_hw_call; intros s Hs.
  - destruct (strip_auto_write p); exact Hs.
  - exact Hs.
Qed.

Lemma pixel_configured_alarm fuel duration on_time off_time n pause c :
  keeps well_configured (alarm_flash fuel duration on_time off_time n pause c).
Proof.
  unfold alarm_flash.
  apply keeps_bind; [apply keeps_read|]. intros [|]; simpl; [|apply keeps_print].
  apply keeps_bind; [apply keeps_time_time | intros start].
  apply keeps_bind; [apply pixel_configured_init | intros _].
  apply keeps_try_finally; [|apply pixel_configured_set_all].
  unfold pattern. apply keeps_while; [apply keeps_running|].
  unfold group. apply keeps_bind; [|intros _; apply keeps_sleep].
  apply keeps_for_range. unfold flash.
  apply keeps_bind; [apply pixel_configured_set_all | intros _].
  apply keeps_bind; [apply keeps_sleep | intros _].
  apply keeps_bind; [apply pixel_configured_set_all | intros _].
  apply keeps_sleep.
Qed.

Lemma pixel_configured_cleanup : keeps well_configured cleanup.
Proof.
  unfold cleanup. apply keeps_bind; [apply pixel_configured_init|].
  intros [p|]; [apply pixel_configured_set_all | apply keeps_ret].
Qed.

End PixelConfiguration.

Section PiezoMain.

Import piezo_alarm.

Lemma piezo_main_mock (fuel : nat) (w : W) :
  RPI_AVAILABLE (mem w) = false ->
  main fuel w
  = (Ok tt, mkWorld (trace w ++ [Print "Starting piezo alarm test for 10 seconds...";
                                 Print mock_notice; Print "Done."])
              (clock w) (faults w) (mem w)).
Proof.
  intro A. unfold main.
  unfold bind at 1, print at 1.
  erewrite bind_ok by (apply piezo_alarm_mock; exact A).
  unfold bind at 1, print at 1.
  rewrite piezo_cleanup_idle by (left; exact A).
  unfold log. cbn [trace clock faults mem]. rewrite <- !app_assoc. reflexivity.
Qed.

(** The self-test on working hardware: eight cycles of 1.25 s fill the ten
    seconds exactly; then the pin is released. *)
Lemma piezo_main_real (fuel : nat) (w : W) :
  faults w = [] -> hardware_present w -> (8 <= fuel)%nat ->
  exists w',
    main fuel w = (Ok tt, w') /\
    trace w' = trace w
               ++ [Print "Starting piezo alarm test for 10 seconds..."]
               ++ init_events (_initialized (mem w))
               ++ concat (repeat (cycle_events 3 (15 # 100) (1 # 10) (1 # 2)) 8)
               ++ [Call (GPIO_output PIEZO_PIN LOW); Print "Done.";
                   Call (GPIO_output PIEZO_PIN LOW); Call (GPIO_cleanup PIEZO_PIN)] /\
    clock w' == clock w + 10 /\
    _initialized (mem w') = false /\
    pin_level (mem w') = LOW.
Proof.
  intros F [A G] Hf. unfold main.
  unfold bind at 1, print at 1.
  set (w0 := log (Print "Starting piezo alarm test for 10 seconds...") w).
  assert (S0 : faults w0 = [] /\ RPI_AVAILABLE (mem w0) = true /\ GPIO (mem w0) = RealGPIO)
    by (subst w0; simpl; auto).
  destruct (@piezo_alarm_exact fuel 10 3 (15 # 100) (1 # 10) (1 # 2) w0 S0)
    as (w1 & E1 & T1 & C1 & S1 & I1 & L1).
  { vm_compute; discriminate. }
  { vm_compute; discriminate. }
  { vm_compute; discriminate. }
  { reflexivity. }
  { exact Hf. }
  change (Z.to_nat (Qceiling (10 / cycle_time 3 (15 # 100) (1 # 10) (1 # 2))))
    with 8%nat in T1, C1.
  erewrite bind_ok by exact E1.
  unfold bind at 1, print at 1.
  set (w2 := log (Print "Done.") w1).
  assert (S2 : faults w2 = [] /\ RPI_AVAILABLE (mem w2) = true /\ GPIO (mem w2) = RealGPIO)
    by (subst w2; simpl; exact S1).
  assert (I2 : _initialized (mem w2) = true) by (subst w2; simpl; exact I1).
  destruct (@piezo_cleanup_release w2 S2 I2) as (w3 & E3 & T3 & C3 & _ & I3 & _ & L3).
  exists w3. split; [exact E3|]. split; [|split; [|split]].
  - rewrite T3. subst w2. cbn [log trace]. rewrite T1. subst w0. cbn [log trace mem].
    rewrite <- !app_assoc. reflexivity.
  - rewrite C3. subst w2. cbn [log clock]. rewrite C1. subst w0. cbn [log clock].
    assert (Hq : inject_Z (Z.of_nat 8) * cycle_time 3 (15 # 100) (1 # 10) (1 # 2) == 10)
      by (vm_compute; reflexivity).
    rewrite Hq. reflexivity.
  - exact I3.
  - exact L3.
Qed.

End PiezoMain.

Section PixelMain.

Import neopixel_alarm.

Lemma pixel_main_mock (fuel : nat) (w : W) :
  NEOPIXEL_AVAILABLE (mem w) = false -> _pixels (mem w) = None ->
  main fuel w
  = (Ok tt, mkWorld (trace w
                     ++ [Print "Starting Neopixel alarm flash test for 10 seconds...";
                         Print mock_notice; Print "Done."; Print init_notice])
              (clock w) (faults w) (mem w)).
Proof.
  intros A E. unfold main.
  unfold bind at 1, print at 1.
  erewrite bind_ok by (apply pixel_alarm_mock; exact A).
  unfold bind at 1, print at 1.
  rewrite pixel_cleanup_mock by (split; assumption).
  unfold log. cbn [trace clock faults mem]. rewrite <- !app_assoc. reflexivity.
Qed.

(** The self-test on working hardware: a cycle takes 1.4 s, so the eighth
    cycle starts at 9.8 s and the run lasts 11.2 s. *)
Lemma pixel_main_real (fuel : nat) (w : W) :
  faults w = [] -> hardware_present w -> (8 <= fuel)%nat ->
  exists w',
    main fuel w = (Ok tt, w') /\
    trace w' = trace w
               ++ [Print "Starting Neopixel alarm flash test for 10 seconds..."]
               ++ init_events (_pixels (mem w)) (PIXEL_PIN (mem w))
               ++ concat (repeat (cycle_events 3 (15 # 100) (15 # 100) (1 # 2)
                                    (255, 0, 0)%Z) 8)
               ++ set_all_events black ++ [Print "Done."] ++ set_all_events black /\
    clock w' == clock w + (112 # 10) /\
    all_black (shown (mem w')).
Proof.
  intros F HP Hf. unfold main.
  unfold bind at 1, print at 1.
  set (w0 := log (Print "Starting Neopixel alarm flash test for 10 seconds...") w).
  assert (F0 : faults w0 = []) by (subst w0; exact F).
  assert (P0 : hardware_present w0) by (subst w0; exact HP).
  destruct (@pixel_alarm_exact fuel 10 (15 # 100) (15 # 100) 3 (1 # 2) (255, 0, 0)%Z
              w0 F0 P0)
    as (p & w1 & E1 & T1 & C1 & R1 & B1).
  { vm_compute; discriminate. }
  { vm_compute; discriminate. }
  { vm_compute; discriminate. }
  { reflexivity. }
  { exact Hf. }
  change (Z.to_nat (Qceiling (10 / cycle_time 3 (15 # 100) (15 # 100) (1 # 2))))
    with 8%nat in T1, C1.
  erewrite bind_ok by exact E1.
  unfold bind at 1, print at 1.
  set (w2 := log (Print "Done.") w1).
  assert (R2 : faults w2 = [] /\ _pixels (mem w2) = Some p) by (subst w2; exact R1).
  destruct (pixel_cleanup_cached R2) as (w3 & E3 & _ & T3 & C3 & B3).
  exists w3. split; [exact E3|]. split; [|split].
  - rewrite T3. subst w2. cbn [log trace]. rewrite T1. subst w0. cbn [log trace mem].
    rewrite <- !app_assoc. reflexivity.
  - rewrite C3. subst w2. cbn [log clock]. rewrite C1. subst w0. cbn [log clock].
    assert (Hq : inject_Z (Z.of_nat 8) * cycle_time 3 (15 # 100) (15 # 100) (1 # 2)
                 == 112 # 10) by (vm_compute; reflexivity).
    rewrite Hq. reflexivity.
  - exact B3.
Qed.

End PixelMain.

Section PiezoGroup.

Import piezo_alarm.

(** The group inside [alarm] repeats the body of [_beep]: on an
    initialised driver it is N calls of [_beep] and the pause. *)
Lemma piezo_group_beeps (n : Z) (on_time off_time pause : Q) (w : W) :
  RPI_AVAILABLE (mem w) = true -> _initialized (mem w) = true ->
  group n on_time off_time pause w
  = bind (for_range n (_beep on_time off_time)) (fun _ => sleep pause) w.
Proof.
  intros A I. unfold group, for_range, bind.
  rewrite (@repeatM_ext _ _
             (fun s => RPI_AVAILABLE s = true /\ _initialized s = true)
             (_beep on_time off_time) (beep on_time off_time)
             (fun w0 H0 => piezo_beep_inline on_time off_time w0 H0)
             (piezo_armed_beep on_time off_time) (Z.to_nat n) w (conj A I)).
  reflexivity.
Qed.

End PiezoGroup.

(** ** Further properties, as theorems *)

(** X1. [_beep]: in mock mode it returns and changes nothing; on working
    hardware with non-negative times it initialises the driver if needed,
    writes HIGH, sleeps the on-time, writes LOW, sleeps the off-time, and
    leaves the pin LOW and the driver initialised. *)
Theorem beep_once :
  (forall on_time off_time (w : piezo_alarm.W),
     piezo_alarm.RPI_AVAILABLE (mem w) = false ->
     piezo_alarm._beep on_time off_time w = (Ok tt, w)) /\
  (forall on_time off_time (w : piezo_alarm.W),
     faults w = [] -> piezo_alarm.hardware_present w ->
     0 <= on_time -> 0 <= off_time ->
     exists w',
       piezo_alarm._beep on_time off_time w = (Ok tt, w') /\
       trace w' = trace w
                  ++ piezo_alarm.init_events (piezo_alarm._initialized (mem w))
                  ++ piezo_alarm.beep_events on_time off_time /\
       clock w' == clock w + (on_time + off_time) /\
       piezo_alarm._initialized (mem w') = true /\
       piezo_alarm.pin_level (mem w') = piezo_alarm.LOW).
Proof.
  split.
  - intros. apply piezo_beep_mock. assumption.
  - intros on_time off_time w F [A G] Hon Hoff.
    apply piezo_beep_run; auto.
Qed.

Lemma beep_once_witness :
  piezo_alarm._beep (15 # 100) (1 # 10) (piezo_alarm.load false [])
  = (Ok tt, piezo_alarm.load false []) /\
  (let w := piezo_alarm.load true [] in
   exists w',
     piezo_alarm._beep (15 # 100) (1 # 10) w = (Ok tt, w') /\
     trace w' = trace w
                ++ piezo_alarm.init_events (piezo_alarm._initialized (mem w))
                ++ piezo_alarm.beep_events (15 # 100) (1 # 10) /\
     clock w' == clock w + ((15 # 100) + (1 # 10)) /\
     piezo_alarm._initialized (mem w') = true /\
     piezo_alarm.pin_level (mem w') = piezo_alarm.LOW).
Proof.
  split.
  - refine (proj1 beep_once (15 # 100) (1 # 10) (piezo_alarm.load false []) _).
    reflexivity.
  - intro w.
    refine (proj2 beep_once (15 # 100) (1 # 10) w _ _ _ _).
    + reflexivity.
    + split; reflexivity.
    + vm_compute; discriminate.
    + vm_compute; discriminate.
Defined.

(** X2. [_beep] has no [finally]: with a negative on-time, on working
    hardware, the sleep raises [ValueError] right after the HIGH write, and
    the pin is left HIGH. *)
Theorem beep_leaves_pin_high :
  forall on_time off_time (w : piezo_alarm.W),
    faults w = [] -> piezo_alarm.hardware_present w -> on_time < 0 ->
    exists w',
      piezo_alarm._beep on_time off_time w = (Raise ValueError, w') /\
      trace w' = trace w
                 ++ piezo_alarm.init_events (piezo_alarm._initialized (mem w))
                 ++ [Call (piezo_alarm.GPIO_output piezo_alarm.PIEZO_PIN piezo_alarm.HIGH)] /\
      clock w' = clock w /\
      piezo_alarm.pin_level (mem w') = piezo_alarm.HIGH.
Proof.
  intros on_time off_time w F [A G] Hon. apply piezo_beep_stuck; auto.
Qed.

Lemma beep_leaves_pin_high_witness :
  let w := piezo_alarm.load true [] in
  exists w',
    piezo_alarm._beep (-1) (1 # 10) w = (Raise ValueError, w') /\
    trace w' = trace w
               ++ piezo_alarm.init_events (piezo_alarm._initialized (mem w))
               ++ [Call (piezo_alarm.GPIO_output piezo_alarm.PIEZO_PIN piezo_alarm.HIGH)] /\
    clock w' = clock w /\
    piezo_alarm.pin_level (mem w') = piezo_alarm.HIGH.
Proof.
  intro w.
  refine (@beep_leaves_pin_high (-1) (1 # 10) w _ _ _).
  - reflexivity.
  - split; reflexivity.
  - reflexivity.
Defined.

(** X3. The group of beeps inside [alarm] repeats the body of [_beep]: on
    an initialised driver with the flag set, one pass of the loop body is N
    calls of [_beep] followed by the pause, whatever the hardware does. *)
Theorem group_is_beeps :
  forall n on_time off_time pause (w : piezo_alarm.W),
    piezo_alarm.RPI_AVAILABLE (mem w) = true ->
    piezo_alarm._initialized (mem w) = true ->
    piezo_alarm.group n on_time off_time pause w
    = bind (for_range n (piezo_alarm._beep on_time off_time)) (fun _ => sleep pause) w.
Proof. intros. apply piezo_group_beeps; assumption. Qed.

Lemma group_is_beeps_witness :
  let w := snd (piezo_alarm._init_gpio (piezo_alarm.load true [false; false; false; true])) in
  piezo_alarm.group 3 (15 # 100) (1 # 10) (1 # 2) w
  = bind (for_range 3 (piezo_alarm._beep (15 # 100) (1 # 10))) (fun _ => sleep (1 # 2)) w.
Proof.
  intro w.
  refine (@group_is_beeps 3%Z (15 # 100) (1 # 10) (1 # 2) w _ _); reflexivity.
Defined.

(** X4. [_init_gpio] sets [_initialized] last: on an uninitialised driver
    with hardware present the flag is set exactly when all three library
    calls went through (and then the pin is LOW); when one of them raises
    the flag stays false, so the next call starts over, and the level of
    the pin is as it was. *)
Theorem init_gpio_outcome :
  forall (w : piezo_alarm.W) r w',
    piezo_alarm.hardware_present w ->
    piezo_alarm._initialized (mem w) = false ->
    piezo_alarm._init_gpio w = (r, w') ->
    (r = Ok tt /\ piezo_alarm._initialized (mem w') = true /\
     piezo_alarm.pin_level (mem w') = piezo_alarm.LOW) \/
    (r = Raise HardwareError /\ piezo_alarm._initialized (mem w') = false /\
     piezo_alarm.pin_level (mem w') = piezo_alarm.pin_level (mem w)).
Proof. intros. eapply piezo_init_outcome; eassumption. Qed.

Lemma init_gpio_outcome_witness :
  let w := piezo_alarm.load true [false; true] in
  let x := piezo_alarm._init_gpio w in
  fst x = Raise HardwareError /\
  ((fst x = Ok tt /\ piezo_alarm._initialized (mem (snd x)) = true /\
    piezo_alarm.pin_level (mem (snd x)) = piezo_alarm.LOW) \/
   (fst x = Raise HardwareError /\ piezo_alarm._initialized (mem (snd x)) = false /\
    piezo_alarm.pin_level (mem (snd x)) = piezo_alarm.pin_level (mem w))).
Proof.
  intros w x. split; [reflexivity|].
  refine (@init_gpio_outcome w (fst x) (snd x) _ _ _).
  - split; reflexivity.
  - reflexivity.
  - reflexivity.
Defined.

(** X5. Piezo [cleanup] clears [_initialized] last: on an initialised
    driver with hardware present the flag is cleared exactly when both the
    LOW write and [GPIO.cleanup] went through; when the LOW write raises,
    [GPIO.cleanup] is not attempted; in both failing cases the driver stays
    initialised. *)
Theorem cleanup_failure_keeps_flag :
  forall (w : piezo_alarm.W) r w',
    piezo_alarm.hardware_present w ->
    piezo_alarm._initialized (mem w) = true ->
    piezo_alarm.cleanup w = (r, w') ->
    (r = Ok tt /\ piezo_alarm._initialized (mem w') = false /\
     trace w' = trace w
                ++ [Call (piezo_alarm.GPIO_output piezo_alarm.PIEZO_PIN piezo_alarm.LOW);
                    Call (piezo_alarm.GPIO_cleanup piezo_alarm.PIEZO_PIN)]) \/
    (r = Raise HardwareError /\ piezo_alarm._initialized (mem w') = true /\
     (trace w' = trace w
                 ++ [Failed (piezo_alarm.GPIO_output piezo_alarm.PIEZO_PIN piezo_alarm.LOW)] \/
      trace w' = trace w
                 ++ [Call (piezo_alarm.GPIO_output piezo_alarm.PIEZO_PIN piezo_alarm.LOW);
                     Failed (piezo_alarm.GPIO_cleanup piezo_alarm.PIEZO_PIN)])).
Proof. intros. eapply piezo_cleanup_outcome; eassumption. Qed.

Lemma cleanup_failure_keeps_flag_witness :
  let w := snd (piezo_alarm._init_gpio
                  (piezo_alarm.load true [false; false; false; false; true])) in
  let x := piezo_alarm.cleanup w in
  fst x = Raise HardwareError /\
  ((fst x = Ok tt /\ piezo_alarm._initialized (mem (snd x)) = false /\
    trace (snd x) = trace w
               ++ [Call (piezo_alarm.GPIO_output piezo_alarm.PIEZO_PIN piezo_alarm.LOW);
                   Call (piezo_alarm.GPIO_cleanup piezo_alarm.PIEZO_PIN)]) \/
   (fst x = Raise HardwareError /\ piezo_alarm._initialized (mem (snd x)) = true /\
    (trace (snd x) = trace w
                ++ [Failed (piezo_alarm.GPIO_output piezo_alarm.PIEZO_PIN piezo_alarm.LOW)] \/
     trace (snd x) = trace w
                ++ [Call (piezo_alarm.GPIO_output piezo_alarm.PIEZO_PIN piezo_alarm.LOW);
                    Failed (piezo_alarm.GPIO_cleanup piezo_alarm.PIEZO_PIN)]))).
Proof.
  intros w x. split; [reflexivity|].
  refine (@cleanup_failure_keeps_flag w (fst x) (snd x) _ _ _).
  - split; reflexivity.
  - reflexivity.
  - reflexivity.
Defined.

(** X6. The lazy initialisation runs before the [try]: when it raises,
    [alarm] / [alarm_flash] ends with that error exactly where the
    initialisation stopped, with no loop, no sleep and no force-off write;
    the piezo driver is left uninitialised and the level of the pin, or
    what the LEDs display, is as before the call. *)
Theorem init_failure_ends_alarm :
  (forall fuel duration n on_time off_time pause (w wi : piezo_alarm.W) e,
     piezo_alarm.hardware_present w ->
     piezo_alarm._init_gpio w = (Raise e, wi) ->
     piezo_alarm.alarm fuel duration n on_time off_time pause w = (Raise e, wi) /\
     piezo_alarm._initialized (mem wi) = false /\
     piezo_alarm.pin_level (mem wi) = piezo_alarm.pin_level (mem w)) /\
  (forall fuel duration on_time off_time n pause c (w wi : neopixel_alarm.W) e,
     neopixel_alarm.hardware_present w ->
     neopixel_alarm._init_pixels w = (Raise e, wi) ->
     neopixel_alarm.alarm_flash fuel duration on_time off_time n pause c w
     = (Raise e, wi) /\
     neopixel_alarm.shown (mem wi) = neopixel_alarm.shown (mem w)).
Proof.
  split.
  - intros fuel duration n on_time off_time pause w wi e HP Hi.
    split; [apply piezo_alarm_init_raises; [apply HP | exact Hi]|].
    destruct (piezo_alarm._initialized (mem w)) eqn:I.
    + rewrite piezo_init_done in Hi by exact I. discriminate.
    + destruct (piezo_init_outcome HP I Hi) as [(Hr & _) | (_ & H1 & H2)];
        [discriminate | auto].
  - intros fuel duration on_time off_time n pause c w wi e HP Hi.
    split; [apply pixel_alarm_init_raises; [apply HP | exact Hi]|].
    destruct (neopixel_alarm._pixels (mem w)) as [p|] eqn:E.
    + rewrite (pixel_init_cached w E) in Hi. discriminate.
    + destruct (pixel_init_outcome HP E Hi) as [(Hr & _) | (_ & H1 & _)];
        [discriminate | exact H1].
Qed.

Lemma init_failure_ends_alarm_witness :
  (let w := piezo_alarm.load true [false; false; true] in
   let wi := snd (piezo_alarm._init_gpio w) in
   piezo_alarm.alarm 5 1 3 (15 # 100) (1 # 10) (1 # 2) w = (Raise HardwareError, wi) /\
   piezo_alarm._initialized (mem wi) = false /\
   piezo_alarm.pin_level (mem wi) = piezo_alarm.pin_level (mem w)) /\
  (let w := neopixel_alarm.load (Some (neopixel_alarm.mkBoard (Some 18%Z))) [false; true] in
   let wi := snd (neopixel_alarm._init_pixels w) in
   neopixel_alarm.alarm_flash 5 1 (15 # 100) (15 # 100) 3 (1 # 2) (255, 0, 0)%Z w
   = (Raise HardwareError, wi) /\
   neopixel_alarm.shown (mem wi) = neopixel_alarm.shown (mem w)).
Proof.
  split.
  - intros w wi.
    refine (proj1 init_failure_ends_alarm 5%nat 1 3%Z (15 # 100) (1 # 10) (1 # 2)
              w wi HardwareError _ _).
    + split; reflexivity.
    + reflexivity.
  - intros w wi.
    refine (proj2 init_failure_ends_alarm 5%nat 1 (15 # 100) (15 # 100) 3%Z (1 # 2)
              (255, 0, 0)%Z w wi HardwareError _ _).
    + split; reflexivity.
    + reflexivity.
Defined.

(** X7. A call of [alarm] / [alarm_flash] that got past its lazy
    initialisation leaves the driver initialised, however the loop went
    (returned, raised, or was cut): [_initialized] is true, and [_pixels]
    still holds the handle the initialisation returned. *)
Theorem alarm_stays_initialised :
  (forall fuel duration n on_time off_time pause (w wi : piezo_alarm.W) r w',
     piezo_alarm.RPI_AVAILABLE (mem w) = true ->
     piezo_alarm._init_gpio w = (Ok tt, wi) ->
     piezo_alarm.alarm fuel duration n on_time off_time pause w = (r, w') ->
     piezo_alarm._initialized (mem w') = true) /\
  (forall fuel duration on_time off_time n pause c (w wi : neopixel_alarm.W) px r w',
     neopixel_alarm.NEOPIXEL_AVAILABLE (mem w) = true ->
     neopixel_alarm._init_pixels w = (Ok px, wi) ->
     neopixel_alarm.alarm_flash fuel duration on_time off_time n pause c w = (r, w') ->
     exists p, px = Some p /\ neopixel_alarm._pixels (mem w') = Some p).
Proof.
  split.
  - intros. eapply piezo_alarm_stays_armed; eassumption.
  - intros. eapply pixel_alarm_stays_cached; eassumption.
Qed.

Lemma alarm_stays_initialised_witness :
  (let w := piezo_alarm.load true [false; false; false; false; true] in
   let x := piezo_alarm.alarm 5 1 3 (15 # 100) (1 # 10) (1 # 2) w in
   fst x = Raise HardwareError /\
   piezo_alarm._initialized (mem (snd x)) = true) /\
  (let w := neopixel_alarm.load (Some (neopixel_alarm.mkBoard (Some 18%Z)))
              [false; false; false; false; true] in
   let x := neopixel_alarm.alarm_flash 5 1 (15 # 100) (15 # 100) 3 (1 # 2)
              (255, 0, 0)%Z w in
   fst x = Raise HardwareError /\
   exists p, fst (neopixel_alarm._init_pixels w) = Ok (Some p) /\
             neopixel_alarm._pixels (mem (snd x)) = Some p).
Proof.
  split.
  - intros w x. split; [reflexivity|].
    refine (proj1 alarm_stays_initialised 5%nat 1 3%Z (15 # 100) (1 # 10) (1 # 2)
              w (snd (piezo_alarm._init_gpio w)) (fst x) (snd x) _ _ _); reflexivity.
  - intros w x. split; [reflexivity|].
    destruct (proj2 alarm_stays_initialised 5%nat 1 (15 # 100) (15 # 100) 3%Z (1 # 2)
                (255, 0, 0)%Z w (snd (neopixel_alarm._init_pixels w))
                (Some (neopixel_alarm.mkStrip (Some 18%Z) 8 (4 # 10) false))
                (fst x) (snd x) eq_refl eq_refl eq_refl) as (p & Hp & Hc).
    exists p. split; [rewrite <- Hp; reflexivity | exact Hc].
Defined.

(** X8. A negative on-time with a positive duration and at least one beep
    (flash) per group, on working hardware: the first sleep raises
    [ValueError] with the output active; the [finally] then switches it
    off, so the call sends the initialisation, one ACTIVE write and the
    force-off write, never sleeps, and ends with the pin LOW / the LEDs
    black. *)
Theorem negative_on_time :
  (forall fuel duration n on_time off_time pause (w : piezo_alarm.W),
     faults w = [] -> piezo_alarm.hardware_present w ->
     0 < duration -> (1 <= n)%Z -> on_time < 0 ->
     exists w',
       piezo_alarm.alarm (S fuel) duration n on_time off_time pause w
       = (Raise ValueError, w') /\
       trace w' = trace w
                  ++ piezo_alarm.init_events (piezo_alarm._initialized (mem w))
                  ++ [Call (piezo_alarm.GPIO_output piezo_alarm.PIEZO_PIN piezo_alarm.HIGH);
                      Call (piezo_alarm.GPIO_output piezo_alarm.PIEZO_PIN piezo_alarm.LOW)] /\
       clock w' = clock w /\
       piezo_alarm.pin_level (mem w') = piezo_alarm.LOW) /\
  (forall fuel duration on_time off_time n pause c (w : neopixel_alarm.W),
     faults w = [] -> neopixel_alarm.hardware_present w ->
     0 < duration -> (1 <= n)%Z -> on_time < 0 ->
     exists w',
       neopixel_alarm.alarm_flash (S fuel) duration on_time off_time n pause c w
       = (Raise ValueError, w') /\
       trace w' = trace w
                  ++ neopixel_alarm.init_events (neopixel_alarm._pixels (mem w))
                       (neopixel_alarm.PIXEL_PIN (mem w))
                  ++ neopixel_alarm.set_all_events c
                  ++ neopixel_alarm.set_all_events neopixel_alarm.black /\
       clock w' = clock w /\
       neopixel_alarm.all_black (neopixel_alarm.shown (mem w'))).
Proof.
  split.
  - intros fuel duration n on_time off_time pause w F [A G] Hd Hn Hon.
    apply piezo_alarm_negative_on; auto.
  - intros. apply pixel_alarm_negative_on; assumption.
Qed.

Lemma negative_on_time_witness :
  (let w := piezo_alarm.load true [] in
   exists w',
     piezo_alarm.alarm 1 1 3 (-1) (1 # 10) (1 # 2) w = (Raise ValueError, w') /\
     trace w' = trace w
                ++ piezo_alarm.init_events (piezo_alarm._initialized (mem w))
                ++ [Call (piezo_alarm.GPIO_output piezo_alarm.PIEZO_PIN piezo_alarm.HIGH);
                    Call (piezo_alarm.GPIO_output piezo_alarm.PIEZO_PIN piezo_alarm.LOW)] /\
     clock w' = clock w /\
     piezo_alarm.pin_level (mem w') = piezo_alarm.LOW) /\
  (let w := neopixel_alarm.load (Some (neopixel_alarm.mkBoard (Some 18%Z))) [] in
   exists w',
     neopixel_alarm.alarm_flash 1 1 (-1) (15 # 100) 3 (1 # 2) (255, 0, 0)%Z w
     = (Raise ValueError, w') /\
     trace w' = trace w
                ++ neopixel_alarm.init_events (neopixel_alarm._pixels (mem w))
                     (neopixel_alarm.PIXEL_PIN (mem w))
                ++ neopixel_alarm.set_all_events (255, 0, 0)%Z
                ++ neopixel_alarm.set_all_events neopixel_alarm.black /\
     clock w' = clock w /\
     neopixel_alarm.all_black (neopixel_alarm.shown (mem w'))).
Proof.
  split.
  - intro w.
    refine (proj1 negative_on_time 0%nat 1 3%Z (-1) (1 # 10) (1 # 2) w _ _ _ _ _).
    + reflexivity.
    + split; reflexivity.
    + reflexivity.
    + vm_compute; discriminate.
    + reflexivity.
  - intro w.
    refine (proj2 negative_on_time 0%nat 1 (-1) (15 # 100) 3%Z (1 # 2) (255, 0, 0)%Z
              w _ _ _ _ _).
    + reflexivity.
    + split; reflexivity.
    + reflexivity.
    + vm_compute; discriminate.
    + reflexivity.
Defined.

(** X9. Exact length of a run.  On working hardware, with non-negative
    times and a positive cycle time, [alarm] / [alarm_flash] returns after
    exactly ceil(D / cycle time) cycles (none when D <= 0), having blocked
    for that many cycle times, and ends on the force-off write with the pin
    LOW / the LEDs black; any loop budget of at least that many passes
    gives this same run. *)
Theorem exact_cycles :
  (forall fuel duration n on_time off_time pause (w : piezo_alarm.W),
     faults w = [] -> piezo_alarm.hardware_present w ->
     0 <= on_time -> 0 <= off_time -> 0 <= pause ->
     0 < cycle_time n on_time off_time pause ->
     (Z.to_nat (Qceiling (duration / cycle_time n on_time off_time pause)) <= fuel)%nat ->
     exists w',
       piezo_alarm.alarm fuel duration n on_time off_time pause w = (Ok tt, w') /\
       trace w' = trace w
                  ++ piezo_alarm.init_events (piezo_alarm._initialized (mem w))
                  ++ concat (repeat (piezo_alarm.cycle_events n on_time off_time pause)
                       (Z.to_nat (Qceiling (duration / cycle_time n on_time off_time pause))))
                  ++ [Call (piezo_alarm.GPIO_output piezo_alarm.PIEZO_PIN piezo_alarm.LOW)] /\
       clock w' == clock w
                   + inject_Z (Z.of_nat (Z.to_nat
                       (Qceiling (duration / cycle_time n on_time off_time pause))))
                     * cycle_time n on_time off_time pause /\
       piezo_alarm.pin_level (mem w') = piezo_alarm.LOW) /\
  (forall fuel duration on_time off_time n pause c (w : neopixel_alarm.W),
     faults w = [] -> neopixel_alarm.hardware_present w ->
     0 <= on_time -> 0 <= off_time -> 0 <= pause ->
     0 < cycle_time n on_time off_time pause ->
     (Z.to_nat (Qceiling (duration / cycle_time n on_time off_time pause)) <= fuel)%nat ->
     exists w',
       neopixel_alarm.alarm_flash fuel duration on_time off_time n pause c w = (Ok tt, w') /\
       trace w' = trace w
                  ++ neopixel_alarm.init_events (neopixel_alarm._pixels (mem w))
                       (neopixel_alarm.PIXEL_PIN (mem w))
                  ++ concat (repeat (neopixel_alarm.cycle_events n on_time off_time pause c)
                       (Z.to_nat (Qceiling (duration / cycle_time n on_time off_time pause))))
                  ++ neopixel_alarm.set_all_events neopixel_alarm.black /\
       clock w' == clock w
                   + inject_Z (Z.of_nat (Z.to_nat
                       (Qceiling (duration / cycle_time n on_time off_time pause))))
                     * cycle_time n on_time off_time pause /\
       neopixel_alarm.all_black (neopixel_alarm.shown (mem w'))).
Proof.
  split.
  - intros fuel duration n on_time off_time pause w F [A G] Hon Hoff Hp Hc Hf.
    destruct (@piezo_alarm_exact fuel duration n on_time off_time pause w
                (conj F (conj A G)) Hon Hoff Hp Hc Hf)
      as (w' & E & T & C & _ & _ & L).
    exists w'. auto.
  - intros fuel duration on_time off_time n pause c w F HP Hon Hoff Hp Hc Hf.
    destruct (@pixel_alarm_exact fuel duration on_time off_time n pause c w
                F HP Hon Hoff Hp Hc Hf)
      as (p & w' & E & T & C & _ & B).
    exists w'. auto.
Qed.

Lemma exact_cycles_witness :
  (let w := piezo_alarm.load true [] in
   let k := Z.to_nat (Qceiling (1 / cycle_time 3 (15 # 100) (1 # 10) (1 # 2))) in
   k = 1%nat /\
   exists w',
     piezo_alarm.alarm 4 1 3 (15 # 100) (1 # 10) (1 # 2) w = (Ok tt, w') /\
     trace w' = trace w
                ++ piezo_alarm.init_events (piezo_alarm._initialized (mem w))
                ++ concat (repeat (piezo_alarm.cycle_events 3 (15 # 100) (1 # 10) (1 # 2)) k)
                ++ [Call (piezo_alarm.GPIO_output piezo_alarm.PIEZO_PIN piezo_alarm.LOW)] /\
     clock w' == clock w
                 + inject_Z (Z.of_nat k) * cycle_time 3 (15 # 100) (1 # 10) (1 # 2) /\
     piezo_alarm.pin_level (mem w') = piezo_alarm.LOW) /\
  (let w := neopixel_alarm.load (Some (neopixel_alarm.mkBoard (Some 18%Z))) [] in
   let k := Z.to_nat (Qceiling (3 / cycle_time 3 (15 # 100) (15 # 100) (1 # 2))) in
   k = 3%nat /\
   exists w',
     neopixel_alarm.alarm_flash 4 3 (15 # 100) (15 # 100) 3 (1 # 2) (255, 0, 0)%Z w
     = (Ok tt, w') /\
     trace w' = trace w
                ++ neopixel_alarm.init_events (neopixel_alarm._pixels (mem w))
                     (neopixel_alarm.PIXEL_PIN (mem w))
                ++ concat (repeat (neopixel_alarm.cycle_events 3 (15 # 100) (15 # 100)
                                     (1 # 2) (255, 0, 0)%Z) k)
                ++ neopixel_alarm.set_all_events neopixel_alarm.black /\
     clock w' == clock w
                 + inject_Z (Z.of_nat k) * cycle_time 3 (15 # 100) (15 # 100) (1 # 2) /\
     neopixel_alarm.all_black (neopixel_alarm.shown (mem w'))).
Proof.
  split.
  - intros w k. split; [reflexivity|].
    refine (proj1 exact_cycles 4%nat 1 3%Z (15 # 100) (1 # 10) (1 # 2) w _ _ _ _ _ _ _).
    + reflexivity.
    + split; reflexivity.
    + vm_compute; discriminate.
    + vm_compute; discriminate.
    + vm_compute; discriminate.
    + reflexivity.
    + vm_compute. repeat constructor.
  - intros w k. split; [reflexivity|].
    refine (proj2 exact_cycles 4%nat 3 (15 # 100) (15 # 100) 3%Z (1 # 2) (255, 0, 0)%Z
              w _ _ _ _ _ _ _).
    + reflexivity.
    + split; reflexivity.
    + vm_compute; discriminate.
    + vm_compute; discriminate.
    + vm_compute; discriminate.
    + reflexivity.
    + vm_compute. repeat constructor.
Defined.

(** X10. [_init_pixels] assigns [_pixels] as soon as the constructor
    returns, before the strip is blacked out.  On a driver without handle,
    with hardware present: when everything goes through the handle is the
    8-pixel strip on [PIXEL_PIN] and the LEDs are black; when the
    constructor raises no handle is cached; when the fill or the push
    raises the handle is cached all the same, and the next [_init_pixels]
    returns it at once without touching the strip.  A call that raises has
    not changed what the LEDs display. *)
Theorem init_pixels_outcome :
  forall (w : neopixel_alarm.W) r w',
    neopixel_alarm.hardware_present w ->
    neopixel_alarm._pixels (mem w) = None ->
    neopixel_alarm._init_pixels w = (r, w') ->
    (r = Ok (Some (neopixel_alarm.module_strip (mem w))) /\
     neopixel_alarm._pixels (mem w') = Some (neopixel_alarm.module_strip (mem w)) /\
     neopixel_alarm.all_black (neopixel_alarm.shown (mem w'))) \/
    (r = Raise HardwareError /\
     neopixel_alarm.shown (mem w') = neopixel_alarm.shown (mem w) /\
     ((trace w' = trace w
                  ++ [Failed (neopixel_alarm.NeoPixel_new (neopixel_alarm.PIXEL_PIN (mem w))
                                neopixel_alarm.NUM_PIXELS neopixel_alarm.BRIGHTNESS false)] /\
       neopixel_alarm._pixels (mem w') = None) \/
      ((trace w' = trace w
                   ++ [Call (neopixel_alarm.NeoPixel_new (neopixel_alarm.PIXEL_PIN (mem w))
                               neopixel_alarm.NUM_PIXELS neopixel_alarm.BRIGHTNESS false);
                       Failed (neopixel_alarm.Pixels_fill neopixel_alarm.black)] \/
        trace w' = trace w
                   ++ [Call (neopixel_alarm.NeoPixel_new (neopixel_alarm.PIXEL_PIN (mem w))
                               neopixel_alarm.NUM_PIXELS neopixel_alarm.BRIGHTNESS false);
                       Call (neopixel_alarm.Pixels_fill neopixel_alarm.black);
                       Failed neopixel_alarm.Pixels_show]) /\
       neopixel_alarm._pixels (mem w') = Some (neopixel_alarm.module_strip (mem w)) /\
       neopixel_alarm._init_pixels w'
       = (Ok (Some (neopixel_alarm.module_strip (mem w))), w')))).
Proof. intros. eapply pixel_init_outcome; eassumption. Qed.

Lemma init_pixels_outcome_witness :
  let w := neopixel_alarm.load (Some (neopixel_alarm.mkBoard (Some 18%Z))) [false; true] in
  let x := neopixel_alarm._init_pixels w in
  fst x = Raise HardwareError /\
  neopixel_alarm._pixels (mem (snd x)) = Some (neopixel_alarm.module_strip (mem w)) /\
  neopixel_alarm._init_pixels (snd x)
  = (Ok (Some (neopixel_alarm.module_strip (mem w))), snd x).
Proof.
  intros w x.
  destruct (@init_pixels_outcome w (fst x) (snd x)
              (conj eq_refl eq_refl) eq_refl eq_refl)
    as [(Hr & _) | (Hr & _ & [(_ & Hn) | (_ & Hc & Hi)])].
  - discriminate Hr.
  - discriminate Hn.
  - split; [exact Hr|]. split; [exact Hc | exact Hi].
Defined.

(** X11. [_set_all c]: in mock mode it reaches no hardware and prints the
    notice of [_init_pixels]; on working hardware it builds the strip first
    when no handle is cached, then fills and pushes, and afterwards every
    LED shows [c] (all 8 of them on a fresh driver). *)
Theorem set_all_behaviour :
  (forall c (w : neopixel_alarm.W),
     neopixel_alarm.NEOPIXEL_AVAILABLE (mem w) = false ->
     neopixel_alarm._pixels (mem w) = None ->
     neopixel_alarm._set_all c w
     = (Ok tt, mkWorld (trace w ++ [Print neopixel_alarm.init_notice])
                 (clock w) (faults w) (mem w))) /\
  (forall c (w : neopixel_alarm.W),
     faults w = [] -> neopixel_alarm.hardware_present w ->
     exists w',
       neopixel_alarm._set_all c w = (Ok tt, w') /\
       trace w' = trace w
                  ++ neopixel_alarm.init_events (neopixel_alarm._pixels (mem w))
                       (neopixel_alarm.PIXEL_PIN (mem w))
                  ++ neopixel_alarm.set_all_events c /\
       clock w' = clock w /\
       Forall (fun x => x = c) (neopixel_alarm.shown (mem w')) /\
       (neopixel_alarm._pixels (mem w) = None ->
        neopixel_alarm.shown (mem w') = repeat c (Z.to_nat neopixel_alarm.NUM_PIXELS))).
Proof.
  split.
  - intros. apply pixel_set_all_mock; assumption.
  - intros. apply pixel_set_all_run; assumption.
Qed.

Lemma set_all_behaviour_witness :
  neopixel_alarm._set_all (255, 0, 0)%Z (neopixel_alarm.load None [])
  = (Ok tt, mkWorld [Print neopixel_alarm.init_notice] 0 []
              (neopixel_alarm.load_state None)) /\
  (let w := neopixel_alarm.load (Some (neopixel_alarm.mkBoard (Some 18%Z))) [] in
   let c := (255, 0, 0)%Z in
   exists w',
     neopixel_alarm._set_all c w = (Ok tt, w') /\
     trace w' = trace w
                ++ neopixel_alarm.init_events (neopixel_alarm._pixels (mem w))
                     (neopixel_alarm.PIXEL_PIN (mem w))
                ++ neopixel_alarm.set_all_events c /\
     clock w' = clock w /\
     Forall (fun x => x = c) (neopixel_alarm.shown (mem w')) /\
     (neopixel_alarm._pixels (mem w) = None ->
      neopixel_alarm.shown (mem w') = repeat c (Z.to_nat neopixel_alarm.NUM_PIXELS))).
Proof.
  split.
  - refine (proj1 set_all_behaviour (255, 0, 0)%Z (neopixel_alarm.load None []) _ _);
      reflexivity.
  - intros w c.
    refine (proj2 set_all_behaviour c w _ _).
    + reflexivity.
    + split; reflexivity.
Defined.

(** X12. The only handle the strip driver ever caches is the one built
    from the module constants: [PIXEL_PIN], 8 pixels, brightness 0.4,
    manual push.  [_pixels] is [None] at load, and [_init_pixels],
    [_set_all], [alarm_flash] and [cleanup] keep it [None] or equal to that
    handle, whatever the hardware does and however they end. *)
Theorem handle_configuration :
  (forall imported,
     neopixel_alarm.well_configured (neopixel_alarm.load_state imported)) /\
  (forall (w : neopixel_alarm.W) r w',
     neopixel_alarm.well_configured (mem w) ->
     neopixel_alarm._init_pixels w = (r, w') ->
     neopixel_alarm.well_configured (mem w')) /\
  (forall c (w : neopixel_alarm.W) r w',
     neopixel_alarm.well_configured (mem w) ->
     neopixel_alarm._set_all c w = (r, w') ->
     neopixel_alarm.well_configured (mem w')) /\
  (forall fuel duration on_time off_time n pause c (w : neopixel_alarm.W) r w',
     neopixel_alarm.well_configured (mem w) ->
     neopixel_alarm.alarm_flash fuel duration on_time off_time n pause c w = (r, w') ->
     neopixel_alarm.well_configured (mem w')) /\
  (forall (w : neopixel_alarm.W) r w',
     neopixel_alarm.well_configured (mem w) ->
     neopixel_alarm.cleanup w = (r, w') ->
     neopixel_alarm.well_configured (mem w')).
Proof.
  split; [|split; [|split; [|split]]].
  - intros [b|]; left; reflexivity.
  - exact pixel_configured_init.
  - intros c. exact (pixel_configured_set_all c).
  - intros fuel duration on_time off_time n pause c.
    exact (pixel_configured_alarm fuel duration on_time off_time n pause c).
  - exact pixel_configured_cleanup.
Qed.

Lemma handle_configuration_witness :
  let w := neopixel_alarm.load (Some (neopixel_alarm.mkBoard (Some 18%Z)))
             [false; false; false; false; true] in
  let x := neopixel_alarm.alarm_flash 5 1 (15 # 100) (15 # 100) 3 (1 # 2) (255, 0, 0)%Z w in
  neopixel_alarm.well_configured (mem (snd x)).
Proof.
  intros w x.
  refine (proj1 (proj2 (proj2 (proj2 handle_configuration)))
            5%nat 1 (15 # 100) (15 # 100) 3%Z (1 # 2) (255, 0, 0)%Z w (fst x) (snd x) _ _).
  - left. reflexivity.
  - reflexivity.
Defined.

(** X13. The piezo self-test ([__main__]).  In mock mode it prints the
    start line, the mock notice of [alarm] and "Done.", and nothing else
    happens.  On working hardware, with a loop budget of at least 8 passes,
    it returns after exactly 8 cycles of the default pattern, that is after
    10 s, then writes LOW again and releases the pin: the driver ends
    uninitialised with the pin LOW. *)
Theorem piezo_main_run :
  (forall fuel (w : piezo_alarm.W),
     piezo_alarm.RPI_AVAILABLE (mem w) = false ->
     piezo_alarm.main fuel w
     = (Ok tt, mkWorld (trace w ++ [Print "Starting piezo alarm test for 10 seconds...";
                                    Print piezo_alarm.mock_notice; Print "Done."])
                 (clock w) (faults w) (mem w))) /\
  (forall fuel (w : piezo_alarm.W),
     faults w = [] -> piezo_alarm.hardware_present w -> (8 <= fuel)%nat ->
     exists w',
       piezo_alarm.main fuel w = (Ok tt, w') /\
       trace w' = trace w
                  ++ [Print "Starting piezo alarm test for 10 seconds..."]
                  ++ piezo_alarm.init_events (piezo_alarm._initialized (mem w))
                  ++ concat (repeat (piezo_alarm.cycle_events 3 (15 # 100) (1 # 10) (1 # 2)) 8)
                  ++ [Call (piezo_alarm.GPIO_output piezo_alarm.PIEZO_PIN piezo_alarm.LOW);
                      Print "Done.";
                      Call (piezo_alarm.GPIO_output piezo_alarm.PIEZO_PIN piezo_alarm.LOW);
                      Call (piezo_alarm.GPIO_cleanup piezo_alarm.PIEZO_PIN)] /\
       clock w' == clock w + 10 /\
       piezo_alarm._initialized (mem w') = false /\
       piezo_alarm.pin_level (mem w') = piezo_alarm.LOW).
Proof.
  split.
  - intros. apply piezo_main_mock. assumption.
  - intros. apply piezo_main_real; assumption.
Qed.

Lemma piezo_main_run_witness :
  piezo_alarm.main 0 (piezo_alarm.load false [])
  = (Ok tt, mkWorld [Print "Starting piezo alarm test for 10 seconds...";
                     Print piezo_alarm.mock_notice; Print "Done."]
              0 [] (piezo_alarm.load_state false)) /\
  (let w := piezo_alarm.load true [] in
   exists w',
     piezo_alarm.main 8 w = (Ok tt, w') /\
     trace w' = trace w
                ++ [Print "Starting piezo alarm test for 10 seconds..."]
                ++ piezo_alarm.init_events (piezo_alarm._initialized (mem w))
                ++ concat (repeat (piezo_alarm.cycle_events 3 (15 # 100) (1 # 10) (1 # 2)) 8)
                ++ [Call (piezo_alarm.GPIO_output piezo_alarm.PIEZO_PIN piezo_alarm.LOW);
                    Print "Done.";
                    Call (piezo_alarm.GPIO_output piezo_alarm.PIEZO_PIN piezo_alarm.LOW);
                    Call (piezo_alarm.GPIO_cleanup piezo_alarm.PIEZO_PIN)] /\
     clock w' == clock w + 10 /\
     piezo_alarm._initialized (mem w') = false /\
     piezo_alarm.pin_level (mem w') = piezo_alarm.LOW).
Proof.
  split.
  - refine (proj1 piezo_main_run 0%nat (piezo_alarm.load false []) _). reflexivity.
  - intro w.
    refine (proj2 piezo_main_run 8%nat w _ _ _).
    + reflexivity.
    + split; reflexivity.
    + apply le_n.
Defined.

(** X14. The strip self-test ([__main__]).  In mock mode it prints the
    start line, the mock notice of [alarm_flash], "Done." and then, from
    [cleanup], the notice of [_init_pixels]: four lines.  On working
    hardware, with a loop budget of at least 8 passes, it returns after
    exactly 8 cycles of the default pattern, that is after 11.2 s (the
    eighth cycle starts at 9.8 s), blacks the strip out, prints "Done." and
    blacks it out again. *)
Theorem pixel_main_run :
  (forall fuel (w : neopixel_alarm.W),
     neopixel_alarm.NEOPIXEL_AVAILABLE (mem w) = false ->
     neopixel_alarm._pixels (mem w) = None ->
     neopixel_alarm.main fuel w
     = (Ok tt, mkWorld (trace w
                        ++ [Print "Starting Neopixel alarm flash test for 10 seconds...";
                            Print neopixel_alarm.mock_notice; Print "Done.";
                            Print neopixel_alarm.init_notice])
                 (clock w) (faults w) (mem w))) /\
  (forall fuel (w : neopixel_alarm.W),
     faults w = [] -> neopixel_alarm.hardware_present w -> (8 <= fuel)%nat ->
     exists w',
       neopixel_alarm.main fuel w = (Ok tt, w') /\
       trace w' = trace w
                  ++ [Print "Starting Neopixel alarm flash test for 10 seconds..."]
                  ++ neopixel_alarm.init_events (neopixel_alarm._pixels (mem w))
                       (neopixel_alarm.PIXEL_PIN (mem w))
                  ++ concat (repeat (neopixel_alarm.cycle_events 3 (15 # 100) (15 # 100)
                                       (1 # 2) (255, 0, 0)%Z) 8)
                  ++ neopixel_alarm.set_all_events neopixel_alarm.black
                  ++ [Print "Done."]
                  ++ neopixel_alarm.set_all_events neopixel_alarm.black /\
       clock w' == clock w + (112 # 10) /\
       neopixel_alarm.all_black (neopixel_alarm.shown (mem w'))).
Proof.
  split.
  - intros. apply pixel_main_mock; assumption.
  - intros. apply pixel_main_real; assumption.
Qed.

Lemma pixel_main_run_witness :
  neopixel_alarm.main 0 (neopixel_alarm.load None [])
  = (Ok tt, mkWorld [Print "Starting Neopixel alarm flash test for 10 seconds...";
                     Print neopixel_alarm.mock_notice; Print "Done.";
                     Print neopixel_alarm.init_notice]
              0 [] (neopixel_alarm.load_state None)) /\
  (let w := neopixel_alarm.load (Some (neopixel_alarm.mkBoard (Some 18%Z))) [] in
   exists w',
     neopixel_alarm.main 8 w = (Ok tt, w') /\
     trace w' = trace w
                ++ [Print "Starting Neopixel alarm flash test for 10 seconds..."]
                ++ neopixel_alarm.init_events (neopixel_alarm._pixels (mem w))
                     (neopixel_alarm.PIXEL_PIN (mem w))
                ++ concat (repeat (neopixel_alarm.cycle_events 3 (15 # 100) (15 # 100)
                                     (1 # 2) (255, 0, 0)%Z) 8)
                ++ neopixel_alarm.set_all_events neopixel_alarm.black
                ++ [Print "Done."]
                ++ neopixel_alarm.set_all_events neopixel_alarm.black /\
     clock w' == clock w + (112 # 10) /\
     neopixel_alarm.all_black (neopixel_alarm.shown (mem w'))).
Proof.
  split.
  - refine (proj1 pixel_main_run 0%nat (neopixel_alarm.load None []) _ _); reflexivity.
  - intro w.
    refine (proj2 pixel_main_run 8%nat w _ _ _).
    + reflexivity.
    + split; reflexivity.
    + apply le_n.
Defined.
